(** * zapi: event bus, outage deduper, heartbeat aggregator and job queue

    A shallow embedding of the coordination core of the zapi repository:

    - [Js]                 the fragment of JavaScript values the code inspects
    - [Emitter]            Node's [EventEmitter] ([on] / [emit])
    - [EventServer]        src/Core/events/EventServer.js
    - [OutageDeduper]      core/infra/OutageDeduper.js
    - [RedisEventService]  src/Core/events/RedisEventService.js (pmessage handler)
    - [MessageBus]         src/ws/MessageBus.js
    - [Heartbeat]          src/server/WorkerServer.js (hbState and the snapshot timer)
    - [JobQueueServer]     src/server/JobQueueServer.js

    Objects mutated in place become explicit states; every function returns
    the new state next to what the caller can observe (a completion, a list
    of callback invocations).  Readings of the clock, of the random source
    and the answers of the remote store are inputs of the operation that
    makes them. *)

From stdpp Require Import base option list strings pretty gmap fin_maps.
From Stdlib Require Import Ascii ZArith Lia.

Set Warnings "-register-all,-automation,-clear-no-such-hyp".

Local Open Scope string_scope.
Local Open Scope list_scope.
Local Open Scope Z_scope.

(* ===================================================================== *)
(** ** JavaScript values *)
(* ===================================================================== *)

Module Js.

(** JSON-shaped values plus [undefined].  Numbers are the integers that
    print in plain decimal; strings are sequences of code units below
    256, which is what [ascii] holds. *)
Inductive value : Type :=
| VUndef
| VNull
| VBool (b : bool)
| VNum (z : Z)
| VStr (s : string)
| VArr (items : list value)
| VObj (fields : list (string * value)).

(** How a synchronous call ends. *)
Inductive completion : Type := Normal | Throw.

(** [ToBoolean]. *)
Definition truthy (v : value) : bool :=
  match v with
  | VUndef | VNull => false
  | VBool b => b
  | VNum z => negb (z =? 0)
  | VStr s => negb (String.eqb s "")
  | VArr _ | VObj _ => true
  end.

(** [a || b]. *)
Definition or_else (a b : value) : value := if truthy a then a else b.

Fixpoint assoc (k : string) (fs : list (string * value)) : value :=
  match fs with
  | [] => VUndef
  | (k', v) :: r => if String.eqb k' k then v else assoc k r
  end.

(** [v?.k] for a property name that no built-in prototype defines: own
    fields of an object, [undefined] on everything else. *)
Definition get (k : string) (v : value) : value :=
  match v with
  | VObj fs => assoc k fs
  | _ => VUndef
  end.

(** [o[k] = v] on an object's field list: overwrite in place, else append. *)
Fixpoint obj_set (k : string) (v : value) (fs : list (string * value))
  : list (string * value) :=
  match fs with
  | [] => [(k, v)]
  | (k', v') :: r =>
      if String.eqb k' k then (k', v) :: r else (k', v') :: obj_set k v r
  end.

(** [v === s] for a string [s], [v === z] for a number [z]. *)
Definition is_str (v : value) (s : string) : bool :=
  match v with VStr s' => String.eqb s' s | _ => false end.

Definition is_num (v : value) (z : Z) : bool :=
  match v with VNum z' => z' =? z | _ => false end.

(** [String(v)]. *)
Fixpoint to_String (v : value) : string :=
  match v with
  | VUndef => "undefined"
  | VNull => "null"
  | VBool true => "true"
  | VBool false => "false"
  | VNum z => pretty z
  | VStr s => s
  | VArr items =>
      (fix join (l : list value) : string :=
         match l with
         | [] => ""
         | x :: r =>
             let sx := match x with
                       | VUndef | VNull => ""
                       | _ => to_String x
                       end in
             match r with
             | [] => sx
             | _ :: _ => sx +:+ "," +:+ join r
             end
         end) items
  | VObj _ => "[object Object]"
  end.

(** The one-character string holding a double quote. *)
Definition quote : string := String (ascii_of_nat 34) EmptyString.

(** [s.startsWith(p)]. *)
Definition startsWith (p s : string) : bool := String.prefix p s.

(** [s.endsWith("*")]. *)
Fixpoint endsWithStar (s : string) : bool :=
  match s with
  | EmptyString => false
  | String c EmptyString => Ascii.eqb c "*"%char
  | String _ r => endsWithStar r
  end.

(** [s.slice(0, -1)]. *)
Fixpoint dropLast (s : string) : string :=
  match s with
  | EmptyString => EmptyString
  | String _ EmptyString => EmptyString
  | String c r => String c (dropLast r)
  end.

(** White space code units below 256: TAB, LF, VT, FF, CR, SP, NBSP. *)
Definition isWhite (c : ascii) : bool :=
  let n := N_of_ascii c in
  ((9 <=? n) && (n <=? 13) || (n =? 32) || (n =? 160))%N.

Fixpoint trimStart (s : string) : string :=
  match s with
  | EmptyString => EmptyString
  | String c r => if isWhite c then trimStart r else s
  end.

(** [s.trim()]. *)
Definition trim (s : string) : string :=
  String.rev (trimStart (String.rev (trimStart s))).

End Js.

(* ===================================================================== *)
(** ** EventEmitter *)
(* ===================================================================== *)

Module Emitter.
Import Js.

Section Emit.
(** [L] is what can be registered, [O] what running a listener leaves
    behind for an observer. *)
Context {L O : Type}.
Variable invoke : L -> value -> list O * completion.

(** [on(ch, l)]: appended, never de-duplicated. *)
Definition on (ch : string) (l : L) (ls : list (string * L)) : list (string * L) :=
  ls ++ [(ch, l)].

Definition listeners (ls : list (string * L)) (ch : string) : list L :=
  map snd (List.filter (fun p => String.eqb (fst p) ch) ls).

(** Listeners run in registration order; the first one that throws
    ends the emission and the exception reaches the caller of [emit]. *)
Fixpoint call_all (fs : list L) (arg : value) : list O * completion :=
  match fs with
  | [] => ([], Normal)
  | f :: r =>
      match invoke f arg with
      | (o, Throw) => (o, Throw)
      | (o, Normal) =>
          let '(o', c) := call_all r arg in (o ++ o', c)
      end
  end.

(** [emit(ch, arg)].  An "error" event nobody listens to is thrown. *)
Definition emit (ls : list (string * L)) (ch : string) (arg : value)
  : list O * completion :=
  match listeners ls ch with
  | [] => ([], if String.eqb ch "error" then Throw else Normal)
  | fs => call_all fs arg
  end.
End Emit.

(** [off(ch, l)]: one registration of [l] on [ch] goes, the most recent. *)
Fixpoint off_first {L : Type} `{EqDecision L} (ch : string) (l : L)
         (ls : list (string * L)) : list (string * L) :=
  match ls with
  | [] => []
  | (ch', l') :: r =>
      if String.eqb ch' ch && bool_decide (l' = l) then r
      else (ch', l') :: off_first ch l r
  end.

Definition off {L : Type} `{EqDecision L} (ch : string) (l : L)
           (ls : list (string * L)) : list (string * L) :=
  rev (off_first ch l (rev ls)).

End Emitter.

(* ===================================================================== *)
(** ** EventServer (src/Core/events/EventServer.js) *)
(* ===================================================================== *)

Module EventServer.
Import Js.

(** Application callbacks and transport adapters are opaque: they are
    named, a call is observed, and a handler call either returns or
    throws.  A callback does not call back into the server while it runs.
    The disposers returned by [subscribe], [any] and [registerAdapter]
    are left out. *)
Definition handler := nat.
Definition adapter := nat.

Inductive listener : Type :=
| Wrapped (topic : string) (h : handler)   (* the closure [fn] of [subscribe] *)
| Plain (h : handler).                     (* the handler itself, from [any] *)

Inductive obs : Type :=
| Handled (h : handler) (env : value)      (* [handler(env)] was called *)
| Adapted (a : adapter) (env : value).     (* [ad.publish(env)] was called *)

(** [process.env.ZAPI_SERVER_NAME], [process.pid],
    [Number(process.env.WORKER_INDEX ?? -1)], [ZAPI_PRIMARY === '1']. *)
Record process : Type := {
  server_name : option string;
  pid : Z;
  worker_index : Z;
  is_primary : bool
}.

Record state : Type := {
  local : list (string * listener);   (* this.local *)
  adapters : list adapter;            (* this.adapters, in insertion order *)
  started : bool;                     (* this._started *)
  buffer : list value                 (* this._buffer *)
}.

Definition create : state :=
  {| local := []; adapters := []; started := false; buffer := [] |}.

(** [registerAdapter]: a [Set], so adding a member again changes nothing. *)
Definition registerAdapter (a : adapter) (st : state) : state :=
  {| local := local st;
     adapters := if bool_decide (a ∈ adapters st) then adapters st
                 else adapters st ++ [a];
     started := started st;
     buffer := buffer st |}.

(** [{...v}]: the own enumerable properties of [v]. *)
Definition spread (v : value) : list (string * value) :=
  match v with
  | VObj fs => fs
  | VArr l => imap (fun i x => (pretty i, x)) l
  | VStr s => imap (fun i c => (pretty i, VStr (String c EmptyString)))
                   (String.list_ascii_of_string s)
  | _ => []
  end.

(** The envelope literal of [publish] (lines 52-68). *)
Definition envelope (p : process) (now : Z) (hstate : value)
           (event : string) (payload : value) : value :=
  let origin := match server_name p with
                | Some s => if String.eqb s "" then "zapiAppServer" else s
                | None => "zapiAppServer"
                end in
  let meta :=
    obj_set "role" (VStr (if is_primary p then "primary" else "worker"))
      (obj_set "workerIndex" (VNum (worker_index p))
         (obj_set "pid" (VNum (pid p))
            (spread (or_else (get "meta" hstate) (VObj []))))) in
  VObj [ ("event", VStr event);
         ("eventHeader",
           VObj [ ("origin", VStr origin);
                  ("ts", VNum now);
                  ("state",
                    VObj [ ("status", or_else (get "status" hstate) (VStr "Ok"));
                           ("meta", VObj meta) ]) ]);
         ("eventPayload", payload) ].

(** The key under which [emit(env.event, env)] looks up listeners. *)
Definition event_of (env : value) : string := to_String (get "event" env).

Section Delivery.
(** Whether [handler(env)] throws. *)
Variable throws : handler -> value -> bool.

Definition call (h : handler) (env : value) : list obs * completion :=
  ([Handled h env], if throws h env then Throw else Normal).

(** The closure [fn] of [subscribe] (lines 83-90). *)
Definition invoke (l : listener) (env : value) : list obs * completion :=
  match l with
  | Plain h => call h env
  | Wrapped topic h =>
      if String.eqb topic "*" || String.eqb topic "zapi:*" then call h env
      else if is_str (get "event" env) topic then call h env
      else if endsWithStar topic
              && startsWith (dropLast topic)
                   (to_String (or_else (get "event" env) (VStr "")))
           then call h env
      else ([], Normal)
  end.

Definition to_adapters (ads : list adapter) (env : value) : list obs :=
  map (fun a => Adapted a env) ads.

(** Lines 75-77 and 34-36: the topic, then "*", then every adapter
    (an adapter's failure is caught, the call itself is observed). *)
Definition deliver (st : state) (ev : string) (env : value)
  : list obs * completion :=
  match Emitter.emit invoke (local st) ev env with
  | (o1, Throw) => (o1, Throw)
  | (o1, Normal) =>
      match Emitter.emit invoke (local st) "*" env with
      | (o2, Throw) => (o1 ++ o2, Throw)
      | (o2, Normal) => (o1 ++ o2 ++ to_adapters (adapters st) env, Normal)
      end
  end.

(** [publish(event, payload)].  [health] is what
    [Health.getState()] returned, [None] when there is no such
    service; reading [state.status] of [null] or [undefined] throws. *)
Definition publish (p : process) (now : Z) (health : option value)
           (event : string) (payload : value) (st : state)
  : state * list obs * completion :=
  let hstate := match health with
                | Some s => s
                | None => VObj [("status", VStr "Ok"); ("meta", VObj [])]
                end in
  match hstate with
  | VUndef | VNull => (st, [], Throw)
  | _ =>
      let payload' := match payload with VUndef => VObj [] | _ => payload end in
      let env := envelope p now hstate event payload' in
      if negb (started st) then
        ({| local := local st; adapters := adapters st;
            started := started st; buffer := buffer st ++ [env] |},
         [], Normal)
      else
        let '(o, c) := deliver st event env in (st, o, c)
  end.

(** The loop of [start]: an exception leaves it for the enclosing
    [catch {}], which ends the drain. *)
Fixpoint drain (st : state) (buf : list value) : list obs :=
  match buf with
  | [] => []
  | env :: r =>
      match deliver st (event_of env) env with
      | (o, Throw) => o
      | (o, Normal) => o ++ drain st r
      end
  end.

(** [start()]: [_started] is set, [_buffer.splice(0)] empties the
    buffer and hands its content to the loop. *)
Definition start (st : state) : state * list obs :=
  let st' := {| local := local st; adapters := adapters st;
                started := true; buffer := [] |} in
  (st', drain st' (buffer st)).
End Delivery.

(** [stop()]. *)
Definition stop (st : state) : state :=
  {| local := []; adapters := adapters st; started := false; buffer := buffer st |}.

(** [subscribe(topic, handler)] (lines 92-94). *)
Definition subscribe (topic : string) (h : handler) (st : state) : state :=
  let fn := Wrapped topic h in
  let isWild := String.eqb topic "*" || endsWithStar topic in
  let l1 := if isWild then Emitter.on "*" fn (local st) else local st in
  {| local := Emitter.on topic fn l1; adapters := adapters st;
     started := started st; buffer := buffer st |}.

(** [any(handler)]. *)
Definition any (h : handler) (st : state) : state :=
  {| local := Emitter.on "*" (Plain h) (local st); adapters := adapters st;
     started := started st; buffer := buffer st |}.

(** A run of independent [publish] calls, each with its clock reading
    and the health state it reads; the observations are concatenated. *)
Record call_args : Type := {
  c_now : Z; c_health : option value; c_event : string; c_payload : value
}.

Fixpoint publish_all (throws : handler -> value -> bool) (p : process)
         (cs : list call_args) (st : state) : state * list obs :=
  match cs with
  | [] => (st, [])
  | c :: r =>
      let '(st', o, _) :=
        publish throws p (c_now c) (c_health c) (c_event c) (c_payload c) st in
      let '(st'', o') := publish_all throws p r st' in
      (st'', o ++ o')
  end.

(** The envelope a call builds, if it gets that far. *)
Definition built (p : process) (c : call_args) : option value :=
  let hstate := match c_health c with
                | Some s => s
                | None => VObj [("status", VStr "Ok"); ("meta", VObj [])]
                end in
  match hstate with
  | VUndef | VNull => None
  | _ => Some (envelope p (c_now c) hstate (c_event c)
                 (match c_payload c with VUndef => VObj [] | _ => c_payload c end))
  end.

Definition envelopes (p : process) (cs : list call_args) : list value :=
  omap (built p) cs.

(** The envelopes handed to adapter [a], oldest first. *)
Definition received (a : adapter) (o : list obs) : list value :=
  omap (fun x => match x with
                 | Adapted a' env => if Nat.eqb a' a then Some env else None
                 | Handled _ _ => None
                 end) o.

(** The envelopes handler [h] was called with, oldest first. *)
Definition handled (h : handler) (o : list obs) : list value :=
  omap (fun x => match x with
                 | Handled h' env => if Nat.eqb h' h then Some env else None
                 | Adapted _ _ => None
                 end) o.

End EventServer.

(* ===================================================================== *)
(** ** OutageDeduper (core/infra/OutageDeduper.js) *)
(* ===================================================================== *)

Module OutageDeduper.
Import Js.

(** One value of the module-level [states] map.  Fields that were never
    assigned are [None]. *)
Record entry : Type := {
  down_flag : bool;              (* s.down *)
  lastAt : option Z;             (* s.lastAt *)
  lastReason : option value;     (* s.lastReason *)
  lastUpAt : option Z;           (* s.lastUpAt *)
  lastUpMeta : option value      (* s.lastUpMeta *)
}.

(** The literal [{ down: false }]. *)
Definition fresh : entry :=
  {| down_flag := false; lastAt := None; lastReason := None;
     lastUpAt := None; lastUpMeta := None |}.

Record result : Type := {
  emitted : bool;
  meta : option entry            (* the copy [{ ...s }] returned by [down] *)
}.

(** [states.get(key) || { down: false }]: an entry is an object, hence truthy. *)
Definition current (key : string) (states : gmap string entry) : entry :=
  default fresh (states !! key).

(** [isDown(key)]. *)
Definition isDown (key : string) (states : gmap string entry) : bool :=
  match states !! key with
  | Some s => down_flag s
  | None => false
  end.

(** [down(key, meta = {})].  The result is [None] when reading
    [meta.reason] throws, which happens for [meta === null]; by then
    [s.down] and [s.lastAt] are assigned, and [s] is the object held by
    the map when the key had one. *)
Definition down (key : string) (meta_arg : value) (now : Z)
           (states : gmap string entry)
  : gmap string entry * option result :=
  let m := match meta_arg with VUndef => VObj [] | _ => meta_arg end in
  let s := current key states in
  if down_flag s then (states, Some {| emitted := false; meta := None |})
  else
    match m with
    | VNull =>
        (match states !! key with
         | Some _ => <[key := {| down_flag := true;
                                 lastAt := Some now;
                                 lastReason := lastReason s;
                                 lastUpAt := lastUpAt s;
                                 lastUpMeta := lastUpMeta s |}]> states
         | None => states
         end, None)
    | _ =>
        let s' := {| down_flag := true;
                     lastAt := Some now;
                     lastReason := Some (or_else (get "reason" m) VNull);
                     lastUpAt := lastUpAt s;
                     lastUpMeta := lastUpMeta s |} in
        (<[key := s']> states, Some {| emitted := true; meta := Some s' |})
    end.

(** [up(key, meta = {})]. *)
Definition up (key : string) (meta_arg : value) (now : Z)
           (states : gmap string entry)
  : gmap string entry * result :=
  let m := match meta_arg with VUndef => VObj [] | _ => meta_arg end in
  let s := current key states in
  let wasDown := down_flag s in
  let s' := {| down_flag := false;
               lastAt := lastAt s;
               lastReason := lastReason s;
               lastUpAt := Some now;
               lastUpMeta := Some m |} in
  (<[key := s']> states, {| emitted := wasDown; meta := None |}).

(** Sequences of calls [down(key)] / [up(key)] (no [meta] argument), each
    with the clock reading it makes. *)
Inductive op : Type :=
| Down (key : string) (now : Z)
| Up (key : string) (now : Z).

Definition op_key (o : op) : string :=
  match o with Down k _ | Up k _ => k end.

(** The [emitted] field the call returns, and the map it leaves. *)
Definition step (o : op) (states : gmap string entry)
  : gmap string entry * bool :=
  match o with
  | Down k now =>
      match down k VUndef now states with
      | (st', Some r) => (st', emitted r)
      | (st', None) => (st', false)
      end
  | Up k now => let '(st', r) := up k VUndef now states in (st', emitted r)
  end.

Fixpoint run (ops : list op) (states : gmap string entry)
  : gmap string entry * list bool :=
  match ops with
  | [] => (states, [])
  | o :: r =>
      let '(st1, e) := step o states in
      let '(st2, es) := run r st1 in
      (st2, e :: es)
  end.

(** Whether the calls made so far leave [key] marked down: the last call
    on [key] was a [down]. *)
Fixpoint marked_down (key : string) (history : list op) (initially : bool) : bool :=
  match history with
  | [] => initially
  | Down k _ :: r => marked_down key r (if String.eqb k key then true else initially)
  | Up k _ :: r => marked_down key r (if String.eqb k key then false else initially)
  end.

End OutageDeduper.

(* ===================================================================== *)
(** ** Config: what core/Config exports (lines 285-290) *)
(* ===================================================================== *)

Module Config.

(** [module.exports]. *)
Definition exports : list string :=
  ["loadConfig"; "getConfig"; "setConfig"; "deepMerge"; "appDirCandidates"].

(** Whether [const { name } = require('../Config')] binds [name] to a
    function; a name that is not exported is bound to [undefined], and
    calling it throws. *)
Definition exported (name : string) : bool :=
  existsb (String.eqb name) exports.

End Config.

(* ===================================================================== *)
(** ** RedisEventService (src/Core/events/RedisEventService.js) *)
(* ===================================================================== *)

Module RedisEventService.
Import Js.

(** [selfPid], [selfWI] and [selfOrigin], the three constants the
    listener of "pmessage" closes over (lines 52-53); [start] below
    makes them. *)
Record identity : Type := {
  selfPid : Z;
  selfWI : Z;
  selfOrigin : string
}.

(** The test of line 60. *)
Definition is_own (self : identity) (env : value) : bool :=
  let meta := or_else (get "meta" (get "state" (get "eventHeader" env))) (VObj []) in
  let origin := get "origin" (get "eventHeader" env) in
  is_num (get "pid" meta) (selfPid self)
  && is_num (get "workerIndex" meta) (selfWI self)
  && is_str origin (selfOrigin self).

(** The function of lines 55-64, which [start] hands to
    [sub.on('pmessage', ...)] when it gets that far.  [parsed] is what
    [JSON.parse(message)] returned, [None] when it threw; [ls] is
    [EventServer.local].  Whatever throws inside is swallowed by the
    function's own [catch {}]. *)
Definition on_pmessage (throws : EventServer.handler -> value -> bool)
           (self : identity) (ls : list (string * EventServer.listener))
           (channel : string) (parsed : option value)
  : list EventServer.obs :=
  match parsed with
  | None => []
  | Some env =>
      if is_own self env then []
      else
        match Emitter.emit (EventServer.invoke throws) ls channel env with
        | (o1, Throw) => o1
        | (o1, Normal) =>
            o1 ++ fst (Emitter.emit (EventServer.invoke throws) ls "*" env)
        end
  end.

(** What [start()] leaves behind. *)
Record service : Type := {
  attached : bool;            (* [pub] and [sub] exist, [attachQuiet] was run on both *)
  registered : bool;          (* the adapter of lines 46-48 is registered *)
  subscribed : bool;          (* [psubscribe('zapi:*')] resolved *)
  installed : option identity (* the constants of the listener of "pmessage",
                                 when [sub] got one *)
}.

Definition idle : service :=
  {| attached := false; registered := false; subscribed := false;
     installed := None |}.

(** [start()] (lines 27-65), and how it completes.  [es] tells whether
    [resolveService('EventServer')] gives a server, [clients] whether
    the cache can be duplicated or [cfg.redis] is set, [psub] how
    [await this.sub.psubscribe('zapi:*')] ends.  [p] is the process;
    [serverName] stands for what the call [getServerName()] of line 53
    returns, which is asked for only when core/Config exports that
    name: otherwise the name is bound to [undefined], the call throws
    and line 55 is not reached. *)
Definition start (es clients : bool) (psub : completion)
           (p : EventServer.process) (serverName : string)
  : service * completion :=
  if negb es then (idle, Normal)
  else if negb clients then (idle, Normal)
  else
    match psub with
    | Throw =>
        ({| attached := true; registered := true; subscribed := false;
            installed := None |}, Throw)
    | Normal =>
        if Config.exported "getServerName" then
          ({| attached := true; registered := true; subscribed := true;
              installed := Some {| selfPid := EventServer.pid p;
                                 selfWI := EventServer.worker_index p;
                                 selfOrigin := serverName |} |}, Normal)
        else
          ({| attached := true; registered := true; subscribed := true;
              installed := None |}, Throw)
    end.

(** A "pmessage" of [sub] on a service: the listener runs when there is
    one; an event nobody listens to does nothing. *)
Definition receive (throws : EventServer.handler -> value -> bool)
           (svc : service) (ls : list (string * EventServer.listener))
           (channel : string) (parsed : option value)
  : list EventServer.obs :=
  match installed svc with
  | Some self => on_pmessage throws self ls channel parsed
  | None => []
  end.

(** [retryMs(times)]. *)
Definition retryMs (times : Z) : Z := Z.min (times * 10000) 60000.

(** [err?.code || err?.message]. *)
Definition reason_of (err : value) : value :=
  or_else (get "code" err) (get "message" err).

(** The two listeners [attachQuiet(c, key)] puts on a client.  [wi] is
    [process.env.WORKER_INDEX] as a number when set, [es] tells whether
    [resolveService('EventServer')] gives a server; the result lists the
    [publish(event, payload)] calls asked of it. *)
Definition is_leader (wi : option Z) : bool := default 0 wi =? 0.

Definition on_error (wi : option Z) (es : bool) (key : string) (err : value)
           (now : Z) (states : gmap string OutageDeduper.entry)
  : gmap string OutageDeduper.entry * list (string * value) :=
  let reason := reason_of err in
  match OutageDeduper.down key (VObj [("reason", reason)]) now states with
  | (states', Some r) =>
      (states',
       if OutageDeduper.emitted r && is_leader wi && es
       then [("zapi:infra:redis:down", VObj [("reason", reason); ("ts", VNum now)])]
       else [])
  | (states', None) => (states', [])
  end.

Definition on_ready (wi : option Z) (es : bool) (key : string)
           (now : Z) (states : gmap string OutageDeduper.entry)
  : gmap string OutageDeduper.entry * list (string * value) :=
  let '(states', r) := OutageDeduper.up key VUndef now states in
  (states',
   if OutageDeduper.emitted r && is_leader wi && es
   then [("zapi:infra:redis:up", VObj [("ts", VNum now)])]
   else []).

(** What a client tells its listeners over time. *)
Inductive client_event : Type :=
| Error (err : value) (now : Z)
| Ready (now : Z).

Fixpoint client_run (wi : option Z) (es : bool) (key : string)
         (evs : list client_event) (states : gmap string OutageDeduper.entry)
  : gmap string OutageDeduper.entry * list (string * value) :=
  match evs with
  | [] => (states, [])
  | e :: r =>
      let '(st1, o1) :=
        match e with
        | Error err now => on_error wi es key err now states
        | Ready now => on_ready wi es key now states
        end in
      let '(st2, o2) := client_run wi es key r st1 in
      (st2, o1 ++ o2)
  end.

(** The changes of state in what a client tells, written from the
    events alone: an error of a client that is up is a change to down, a
    "ready" of a client that is down is a change to up, and nothing
    else is a change.  Each change is given as the event and payload
    that announce it; [down] tells how the client starts. *)
Fixpoint state_changes (down : bool) (evs : list client_event)
  : list (string * value) :=
  match evs with
  | [] => []
  | Error err now :: r =>
      if down then state_changes true r
      else ("zapi:infra:redis:down",
            VObj [("reason", reason_of err); ("ts", VNum now)])
           :: state_changes true r
  | Ready now :: r =>
      if down then ("zapi:infra:redis:up", VObj [("ts", VNum now)])
                   :: state_changes false r
      else state_changes false r
  end.

End RedisEventService.

(* ===================================================================== *)
(** ** MessageBus (src/ws/MessageBus.js) *)
(* ===================================================================== *)

Module MessageBus.
Import Js.

Definition handler := nat.

(** What the bus reads of a client: [typeof c.publish === 'function']
    and [c.status]. *)
Record client : Type := {
  has_publish : bool;
  status : string
}.

Record state : Type := {
  prefix : string;                       (* this.prefix *)
  emitter : list (string * handler);     (* this.emitter *)
  pub : option client;                   (* this._pub *)
  sub : option client;                   (* this._sub *)
  redisAttached : bool;                  (* this._redisAttached *)
  topicCounts : gmap string nat          (* this._topicCounts *)
}.

Inductive obs : Type :=
| Local (h : handler) (payload : value)         (* [handler(payload)] was called *)
| Remote (channel : string) (payload : value).  (* [_pub.publish(channel, JSON.stringify(payload))] *)

(** The constructor's [String(prefix || 'ws')], before any attachment. *)
Definition create (prefix_arg : value) : state :=
  {| prefix := to_String (or_else prefix_arg (VStr "ws"));
     emitter := []; pub := None; sub := None; redisAttached := false;
     topicCounts := ∅ |}.

(** [String(topic || '').trim()]. *)
Definition normalize (topic : value) : string :=
  trim (to_String (or_else topic (VStr ""))).

Definition invoke (throws : handler -> value -> bool) (h : handler) (payload : value)
  : list obs * completion :=
  ([Local h payload], if throws h payload then Throw else Normal).

(** [publish(topic, payload)].  Both the local emission and the remote
    publication sit in a [try { } catch {}]. *)
Definition publish (throws : handler -> value -> bool)
           (topic payload : value) (st : state) : list obs :=
  let t := normalize topic in
  if String.eqb t "" then []
  else
    let o_local := fst (Emitter.emit (invoke throws) (emitter st) t payload) in
    let o_remote :=
      match pub st with
      | Some c =>
          if redisAttached st && has_publish c && negb (String.eqb (status c) "end")
          then [Remote (prefix st +:+ ":" +:+ t) payload]
          else []
      | None => []
      end in
    o_local ++ o_remote.

(** [subscribe(topic, handler)] for a function [handler]. *)
Definition subscribe (topic : value) (h : handler) (st : state) : state :=
  let t := normalize topic in
  if String.eqb t "" then st
  else
    {| prefix := prefix st;
       emitter := Emitter.on t h (emitter st);
       pub := pub st; sub := sub st; redisAttached := redisAttached st;
       topicCounts := <[t := S (default 0%nat (topicCounts st !! t))]> (topicCounts st) |}.

(** [_attachRedisIfPossible()].  [made] is the pair of clients the
    factory returned, [None] when there is no factory, when it threw or
    when it returned a falsy client. *)
Definition attachRedisIfPossible (made : option (client * client)) (st : state)
  : state :=
  if redisAttached st then st
  else
    match made with
    | None => st
    | Some (p, s) =>
        {| prefix := prefix st; emitter := emitter st;
           pub := Some p; sub := Some s; redisAttached := true;
           topicCounts := topicCounts st |}
    end.

(** [_detachRedis()]. *)
Definition detachRedis (st : state) : state :=
  if negb (redisAttached st) then st
  else
    {| prefix := prefix st; emitter := emitter st;
       pub := None; sub := None; redisAttached := false;
       topicCounts := topicCounts st |}.

(** The function [off] returned by [subscribe(topic, handler)]. *)
Definition unsubscribe (topic : value) (h : handler) (st : state) : state :=
  let t := normalize topic in
  if String.eqb t "" then st
  else
    let c := match topicCounts st !! t with
             | Some (S c') => S c'
             | _ => 1%nat
             end in
    let n := Nat.pred c in
    {| prefix := prefix st;
       emitter := Emitter.off t h (emitter st);
       pub := pub st; sub := sub st; redisAttached := redisAttached st;
       topicCounts := match n with
                      | O => delete t (topicCounts st)
                      | S _ => <[t := n]> (topicCounts st)
                      end |}.

(** [close()]. *)
Definition close (st : state) : state :=
  let st1 := detachRedis st in
  {| prefix := prefix st1; emitter := []; pub := pub st1; sub := sub st1;
     redisAttached := redisAttached st1; topicCounts := topicCounts st1 |}.

(** [s.slice(n)]. *)
Fixpoint sliceFrom (n : nat) (s : string) : string :=
  match n, s with
  | O, _ => s
  | S _, EmptyString => EmptyString
  | S n', String _ r => sliceFrom n' r
  end.

(** [_topicFromChannel(channel)] for a string [channel]. *)
Definition topicFromChannel (pfx channel : string) : option string :=
  if String.eqb channel "" then None
  else
    let p := pfx +:+ ":" in
    if startsWith p channel then Some (sliceFrom (String.length p) channel)
    else None.

(** [_safeParse(s)]: [parsed] is what [JSON.parse(s)] returned, [None]
    when it threw. *)
Definition safeParse (s : string) (parsed : option value) : value :=
  match parsed with
  | Some v => v
  | None => VStr s
  end.

(** [_onRedisPMessage(_pattern, channel, message)], the same body as
    [_onRedisMessage(channel, message)]. *)
Definition onRedisPMessage (throws : handler -> value -> bool)
           (channel message : string) (parsed : option value) (st : state)
  : list obs :=
  match topicFromChannel (prefix st) channel with
  | Some t =>
      if String.eqb t "" then []
      else fst (Emitter.emit (invoke throws) (emitter st) t (safeParse message parsed))
  | None => []
  end.

(** The two listeners the constructor puts on InfraStatus (lines 41-42),
    applied to the name of an event InfraStatus emits; [made] is what the
    client factory gives at that moment. *)
Definition onInfra (made : option (client * client)) (event : string) (st : state)
  : state :=
  if String.eqb event "redisUp:up" then attachRedisIfPossible made st
  else if String.eqb event "redisUp:down" then detachRedis st
  else st.

(** The handler calls and the remote publications among observations. *)
Definition locals (o : list obs) : list (handler * value) :=
  omap (fun x => match x with Local h v => Some (h, v) | Remote _ _ => None end) o.

Definition remotes (o : list obs) : list (string * value) :=
  omap (fun x => match x with Remote c v => Some (c, v) | Local _ _ => None end) o.

(** Calls of [subscribe] and of the functions it returned, in any order
    and any number of times. *)
Inductive op : Type :=
| Subscribe (topic : value) (h : handler)
| Unsubscribe (topic : value) (h : handler).

Definition apply (st : state) (o : op) : state :=
  match o with
  | Subscribe topic h => subscribe topic h st
  | Unsubscribe topic h => unsubscribe topic h st
  end.

End MessageBus.

(* ===================================================================== *)
(** ** Heartbeat aggregation (src/server/WorkerServer.js, lines 301-367) *)
(* ===================================================================== *)

Module Heartbeat.
Import Js.

(** A heartbeat as [ClusterHeartbeat.buildPayload] makes it: [nodeId] is
    the host name, [pid] the process id. *)
Record sample : Type := {
  nodeId : string;
  pid : N;
  workerIndex : option Z;
  ts : Z;
  uptimeSec : Z;
  rss : Z;
  heapUsed : Z
}.

(** A value of [hbState]. *)
Record worker : Type := {
  w_pid : N;
  w_nodeId : string;
  w_workerIndex : Z;
  w_ts : Z;
  w_uptimeSec : Z;
  w_rss : Z;
  w_heapUsed : Z
}.

(** The template literal [`${evt.nodeId}|${evt.pid}`]. *)
Definition key_of (nodeId : string) (pid : N) : string :=
  nodeId +:+ "|" +:+ pretty pid.

(** [Map.prototype.set] on a map kept in insertion order: a known key
    keeps its place. *)
Fixpoint map_set {V : Type} (k : string) (v : V) (m : list (string * V))
  : list (string * V) :=
  match m with
  | [] => [(k, v)]
  | (k', v') :: r =>
      if String.eqb k' k then (k', v) :: r else (k', v') :: map_set k v r
  end.

(** [onWorkerHeartbeat(evt)]; [None] stands for a falsy [evt]. *)
Definition onWorkerHeartbeat (now : Z) (evt : option sample)
           (hbState : list (string * worker)) : list (string * worker) :=
  match evt with
  | None => hbState
  | Some e =>
      map_set (key_of (nodeId e) (pid e))
        {| w_pid := pid e;
           w_nodeId := nodeId e;
           w_workerIndex := default (-1) (workerIndex e);
           w_ts := if ts e =? 0 then now else ts e;
           w_uptimeSec := uptimeSec e;
           w_rss := rss e;
           w_heapUsed := heapUsed e |}
        hbState
  end.

Record stat : Type := { s_min : Z; s_avg : Z; s_max : Z }.

Record snapshot : Type := {
  snap_ts : Z;
  expected_total : Z;
  observed_total : nat;
  stat_uptimeSec : stat;
  stat_rss : stat;
  stat_heapUsed : stat;
  workers : option (list worker)
}.

(** [avg], [max] and [min] of lines 344-346; [Math.round] of a quotient
    of integers is the floor of the quotient plus one half. *)
Definition avg (a : list Z) : Z :=
  match a with
  | [] => 0
  | _ => (2 * foldl Z.add 0 a + Z.of_nat (length a)) / (2 * Z.of_nat (length a))
  end.

Definition maxl (a : list Z) : Z :=
  match a with [] => 0 | x :: r => foldl Z.max x r end.

Definition minl (a : list Z) : Z :=
  match a with [] => 0 | x :: r => foldl Z.min x r end.

Definition stat_of (a : list Z) : stat :=
  {| s_min := minl a; s_avg := avg a; s_max := maxl a |}.

(** What the timer reads of the configuration: [cfg.express?.workers]
    and whether [detail] is "full". *)
Record config : Type := {
  express_workers : option Z;
  full_detail : bool
}.

(** [Math.max(1, Number(cfg.express?.workers || 1))]. *)
Definition expectedTotal (cfg : config) : Z :=
  Z.max 1 (match express_workers cfg with
           | Some w => if w =? 0 then 1 else w
           | None => 1
           end).

(** The payload built by the timer callback (lines 339-362). *)
Definition build (cfg : config) (now : Z) (hbState : list (string * worker))
  : snapshot :=
  let workersArr := map snd hbState in
  {| snap_ts := now;
     expected_total := expectedTotal cfg;
     observed_total := length workersArr;
     stat_uptimeSec := stat_of (map w_uptimeSec workersArr);
     stat_rss := stat_of (map w_rss workersArr);
     stat_heapUsed := stat_of (map w_heapUsed workersArr);
     workers := if full_detail cfg then Some workersArr else None |}.

(** What the leader sees: heartbeats and timer expiries. *)
Inductive input : Type :=
| Beat (now : Z) (evt : option sample)
| Tick (now : Z).

(** The aggregator over a run: the snapshots handed to
    [eventServer.publish('zapi:sys:heartbeat:snapshot', _)], oldest
    first, and the final [hbState]. *)
Fixpoint run (cfg : config) (ins : list input) (hbState : list (string * worker))
  : list (string * worker) * list snapshot :=
  match ins with
  | [] => (hbState, [])
  | Beat now evt :: r => run cfg r (onWorkerHeartbeat now evt hbState)
  | Tick now :: r =>
      let '(st, out) := run cfg r hbState in
      (st, build cfg now hbState :: out)
  end.

(** The [(nodeId, pid)] pairs of the heartbeats in a run. *)
Fixpoint beats (ins : list input) : list (string * N) :=
  match ins with
  | [] => []
  | Beat _ (Some e) :: r => (nodeId e, pid e) :: beats r
  | _ :: r => beats r
  end.

(** The number of distinct members of a list of pairs. *)
Definition distinct (l : list (string * N)) : nat :=
  size (list_to_set l : gset (string * N)).

(** The inputs that follow the last [Tick] of a run: the current
    aggregation window. *)
Fixpoint window (ins : list input) (acc : list input) : list input :=
  match ins with
  | [] => acc
  | Tick _ :: r => window r []
  | b :: r => window r (acc ++ [b])
  end.

End Heartbeat.

(* ===================================================================== *)
(** ** JobQueueServer (src/server/JobQueueServer.js) *)
(* ===================================================================== *)

Module JobQueueServer.
Import Js.

(** The record built by [enqueue]. *)
Record job : Type := {
  id : string;
  name : string;
  payload : value;
  ts : Z
}.

(** A registered definition; its two functions are application code and
    are only named here. *)
Record definition : Type := {
  middleware : option nat;
  execute : nat
}.

(** [zapi.jobqueue] as read from the configuration, absent keys [None]. *)
Record raw_config : Type := {
  cfg_throttlecount : option Z;
  cfg_throttletime : option Z;
  cfg_useredis : bool;
  cfg_jobworkerinstances : option Z;
  cfg_broadcast : bool;
  cfg_leaderOnly : bool
}.

Record options : Type := {
  throttlecount : Z;
  throttletime : Z;
  useredis : bool;
  jobworkerinstances : Z;
  broadcast : bool;
  leaderOnly : bool
}.

(** [this.options] of [init] (lines 101-108). *)
Definition make_options (jq : raw_config) : options :=
  {| throttlecount := default 100 (cfg_throttlecount jq);
     throttletime := default 1 (cfg_throttletime jq);
     useredis := cfg_useredis jq;
     jobworkerinstances := Z.max 1 (default 1 (cfg_jobworkerinstances jq));
     broadcast := cfg_broadcast jq;
     leaderOnly := cfg_leaderOnly jq |}.

Record statistics : Type := {
  totalJobs : Z;
  perRoute : gmap string Z;
  throttleEvents : Z;
  throttledMsTotal : Z
}.

Record completion_notice : Type := {
  n_id : string;
  n_name : string;
  n_completedAt : Z
}.

(** The server, together with the two things outside it that the claims
    speak about: the remote list it pushes to and pops from (each member
    stands for the JSON text of the record) and the envelopes it asked
    the EventServer to publish.  [polling] counts the loops of [_pump]
    suspended in [await blpop], [inflight] holds those suspended in the
    [await] of a job's middleware or [execute]; the loops themselves are
    not counted, so more of them may be under way here than [start()]
    makes. *)
Record state : Type := {
  jobs : gmap string definition;          (* this.jobs *)
  queue : list job;                       (* this.queue *)
  running : bool;                         (* this.running *)
  active : Z;                             (* this._active *)
  stats : statistics;                     (* this.stats *)
  throttleActive : bool;                  (* this._throttleActive *)
  throttleStart : Z;                      (* this._throttleStart *)
  concurrency : Z;                        (* this._concurrency *)
  opts : options;                         (* this.options *)
  redis : bool;                           (* this.redis is a client *)
  eventServer : bool;                     (* this.eventServer is a server *)
  remote : list job;                      (* the list "jobq:_all" *)
  polling : nat;                          (* loops waiting in blpop *)
  inflight : list (job * definition);     (* loops waiting for a job to end *)
  published : list completion_notice      (* "zapi:jobqueue:completed" *)
}.

Definition set_jobs (v : gmap string definition) (st : state) : state :=
  {| jobs := v; queue := queue st; running := running st;
     active := active st; stats := stats st;
     throttleActive := throttleActive st; throttleStart := throttleStart st;
     concurrency := concurrency st; opts := opts st; redis := redis st;
     eventServer := eventServer st; remote := remote st;
     polling := polling st; inflight := inflight st;
     published := published st |}.

Definition set_queue (v : list job) (st : state) : state :=
  {| jobs := jobs st; queue := v; running := running st; active := active st;
     stats := stats st; throttleActive := throttleActive st;
     throttleStart := throttleStart st; concurrency := concurrency st;
     opts := opts st; redis := redis st; eventServer := eventServer st;
     remote := remote st; polling := polling st; inflight := inflight st;
     published := published st |}.

Definition set_running (v : bool) (st : state) : state :=
  {| jobs := jobs st; queue := queue st; running := v; active := active st;
     stats := stats st; throttleActive := throttleActive st;
     throttleStart := throttleStart st; concurrency := concurrency st;
     opts := opts st; redis := redis st; eventServer := eventServer st;
     remote := remote st; polling := polling st; inflight := inflight st;
     published := published st |}.

Definition set_active (v : Z) (st : state) : state :=
  {| jobs := jobs st; queue := queue st; running := running st; active := v;
     stats := stats st; throttleActive := throttleActive st;
     throttleStart := throttleStart st; concurrency := concurrency st;
     opts := opts st; redis := redis st; eventServer := eventServer st;
     remote := remote st; polling := polling st; inflight := inflight st;
     published := published st |}.

Definition set_stats (v : statistics) (st : state) : state :=
  {| jobs := jobs st; queue := queue st; running := running st;
     active := active st; stats := v; throttleActive := throttleActive st;
     throttleStart := throttleStart st; concurrency := concurrency st;
     opts := opts st; redis := redis st; eventServer := eventServer st;
     remote := remote st; polling := polling st; inflight := inflight st;
     published := published st |}.

Definition set_throttleActive (v : bool) (st : state) : state :=
  {| jobs := jobs st; queue := queue st; running := running st;
     active := active st; stats := stats st; throttleActive := v;
     throttleStart := throttleStart st; concurrency := concurrency st;
     opts := opts st; redis := redis st; eventServer := eventServer st;
     remote := remote st; polling := polling st; inflight := inflight st;
     published := published st |}.

Definition set_throttleStart (v : Z) (st : state) : state :=
  {| jobs := jobs st; queue := queue st; running := running st;
     active := active st; stats := stats st;
     throttleActive := throttleActive st; throttleStart := v;
     concurrency := concurrency st; opts := opts st; redis := redis st;
     eventServer := eventServer st; remote := remote st;
     polling := polling st; inflight := inflight st;
     published := published st |}.

Definition set_remote (v : list job) (st : state) : state :=
  {| jobs := jobs st; queue := queue st; running := running st;
     active := active st; stats := stats st;
     throttleActive := throttleActive st; throttleStart := throttleStart st;
     concurrency := concurrency st; opts := opts st; redis := redis st;
     eventServer := eventServer st; remote := v; polling := polling st;
     inflight := inflight st; published := published st |}.

Definition set_polling (v : nat) (st : state) : state :=
  {| jobs := jobs st; queue := queue st; running := running st;
     active := active st; stats := stats st;
     throttleActive := throttleActive st; throttleStart := throttleStart st;
     concurrency := concurrency st; opts := opts st; redis := redis st;
     eventServer := eventServer st; remote := remote st; polling := v;
     inflight := inflight st; published := published st |}.

Definition set_inflight (v : list (job * definition)) (st : state) : state :=
  {| jobs := jobs st; queue := queue st; running := running st;
     active := active st; stats := stats st;
     throttleActive := throttleActive st; throttleStart := throttleStart st;
     concurrency := concurrency st; opts := opts st; redis := redis st;
     eventServer := eventServer st; remote := remote st;
     polling := polling st; inflight := v; published := published st |}.

Definition set_published (v : list completion_notice) (st : state) : state :=
  {| jobs := jobs st; queue := queue st; running := running st;
     active := active st; stats := stats st;
     throttleActive := throttleActive st; throttleStart := throttleStart st;
     concurrency := concurrency st; opts := opts st; redis := redis st;
     eventServer := eventServer st; remote := remote st;
     polling := polling st; inflight := inflight st; published := v |}.
(** The constructor followed by [init]; [client] tells whether [init]
    obtained a live remote client, [es] whether it resolved an
    EventServer. *)
Definition create (jq : raw_config) (client es : bool) : state :=
  let o := make_options jq in
  {| jobs := ∅; queue := []; running := false; active := 0;
     stats := {| totalJobs := 0; perRoute := ∅;
                 throttleEvents := 0; throttledMsTotal := 0 |};
     throttleActive := false; throttleStart := 0;
     concurrency := jobworkerinstances o; opts := o;
     redis := useredis o && client; eventServer := es;
     remote := []; polling := 0%nat; inflight := []; published := [] |}.

(** [_throttleBegin()]. *)
Definition throttleBegin (now : Z) (st : state) : state :=
  let s := stats st in
  set_stats {| totalJobs := totalJobs s; perRoute := perRoute s;
               throttleEvents := throttleEvents s + 1;
               throttledMsTotal := throttledMsTotal s |}
    (set_throttleStart now (set_throttleActive true st)).

(** [_throttleEnd()]; [_throttleStart || Date.now()] makes the duration
    0 when no start was recorded. *)
Definition throttleEnd (now : Z) (st : state) : state :=
  let s := stats st in
  let dur := if throttleStart st =? 0 then 0 else now - throttleStart st in
  set_throttleStart 0
    (set_stats {| totalJobs := totalJobs s; perRoute := perRoute s;
                  throttleEvents := throttleEvents s;
                  throttledMsTotal := throttledMsTotal s + dur |}
       (set_throttleActive false st)).

(** [_maybeThrottle()]: two [if]s in a row. *)
Definition maybeThrottle (now : Z) (st : state) : state :=
  if redis st then st
  else
    let n := Z.of_nat (length (queue st)) in
    let st1 := if negb (throttleActive st) && (throttlecount (opts st) <=? n)
               then throttleBegin now st else st in
    if throttleActive st1 && (n <? throttlecount (opts st1))
    then throttleEnd now st1 else st1.

(** [registerJob(name, def)] for a [def] whose [execute] is a function;
    a falsy name throws. *)
Definition registerJob (nm : string) (def : definition) (st : state)
  : state * completion :=
  if String.eqb nm "" then (st, Throw)
  else (set_jobs (<[nm := def]> (jobs st)) st, Normal).

(** How [this.redis.rpush(...)] ends.  The call is not awaited: the
    [catch] of [enqueue] sees a synchronous exception only, and a
    promise that rejects later is nobody's. *)
Inductive rpush_outcome : Type :=
| Pushed          (* the record is appended to the remote list *)
| ThrowsSync      (* the call itself throws *)
| Rejected.       (* the returned promise rejects; the list is unchanged *)

(** [enqueue(name, payload)].  [now] is [Date.now()], read once for the
    whole call, [rand] the six digits taken from [Math.random()].  The
    result is the job id, or the message of the error thrown. *)
Definition enqueue (nm : string) (pl : value) (now : Z) (rand : string)
           (push : rpush_outcome) (st : state) : state * (string + string) :=
  match jobs st !! nm with
  | None => (st, inl ("Job " +:+ quote +:+ nm +:+ quote +:+ " is not registered"))
  | Some _ =>
      let j := {| id := pretty now +:+ "-" +:+ rand; name := nm;
                  payload := pl; ts := now |} in
      if redis st then
        match push with
        | Pushed => (set_remote (remote st ++ [j]) st, inr (id j))
        | ThrowsSync =>
            (maybeThrottle now (set_queue (queue st ++ [j]) st), inr (id j))
        | Rejected => (st, inr (id j))
        end
      else (maybeThrottle now (set_queue (queue st ++ [j]) st), inr (id j))
  end.

Record stats_view : Type := {
  v_totalJobs : Z;
  v_perRoute : gmap string Z;
  v_throttleEvents : Z;
  v_throttledMsTotal : Z;
  v_queueLength : option nat;
  v_concurrency : Z;
  v_throttleActive : bool
}.

(** [getStats()].  Job names are strings, so [Object.fromEntries] keeps
    every entry of the map. *)
Definition getStats (st : state) : stats_view :=
  {| v_totalJobs := totalJobs (stats st);
     v_perRoute := perRoute (stats st);
     v_throttleEvents := throttleEvents (stats st);
     v_throttledMsTotal := throttledMsTotal (stats st);
     v_queueLength := if redis st then None else Some (length (queue st));
     v_concurrency := concurrency st;
     v_throttleActive := throttleActive st |}.

(** [start()], on the worker with index [idx]. *)
Definition start (idx : Z) (st : state) : state :=
  if leaderOnly (opts st) && negb (idx =? 0) then st
  else set_running true st.

(** [stop()]. *)
Definition stop (now : Z) (st : state) : state :=
  let st1 := set_running false st in
  if throttleActive st1 then throttleEnd now st1 else st1.

(** What [blpop] gave: the head of the list, or nothing (time-out or
    error). *)
Inductive blpop_outcome : Type := Popped | Nothing.

(** The head of the loop on a remote-backed server (lines 323-328): the
    test of [running], then [blpop] is awaited. *)
Definition pump_poll (st : state) : state :=
  if running st && redis st then set_polling (S (polling st)) st else st.

(** Lines 339-345 for the job [j] just taken: count it active and look
    its definition up.  A missing definition throws, which is logged and
    undoes the count at once; otherwise the loop waits for the job. *)
Definition pump_begin (j : job) (st : state) : state :=
  match jobs st !! name j with
  | None => st
  | Some def =>
      set_inflight (inflight st ++ [(j, def)]) (set_active (active st + 1) st)
  end.

(** One loop takes the next job (lines 326-337).  Remote-backed: a
    pending [blpop] answers, whatever [running] has become meanwhile.
    In memory: the test of [running] and [queue.shift()] happen in one
    go.  With no job the loop sleeps and nothing changes. *)
Definition pump_take (pop : blpop_outcome) (st : state) : state :=
  if redis st then
    match polling st with
    | O => st
    | S n =>
        let st1 := set_polling n st in
        match pop, remote st1 with
        | Popped, j :: r => pump_begin j (set_remote r st1)
        | _, _ => st1
        end
    end
  else if negb (running st) then st
  else
    match queue st with
    | j :: r => pump_begin j (set_queue r st)
    | [] => st
    end.

(** How the middleware and [execute] of a job in flight ended. *)
Inductive outcome : Type :=
| Returned        (* both returned *)
| Threw.          (* one of them threw or rejected *)

(** The rest of the iteration (lines 348-367) for the [i]-th job in
    flight. *)
Definition pump_settle (i : nat) (r : outcome) (now : Z) (st : state) : state :=
  match inflight st !! i with
  | None => st
  | Some (j, _) =>
      let st1 := set_inflight (delete i (inflight st)) st in
      let st2 :=
        match r with
        | Threw => st1
        | Returned =>
            let s := stats st1 in
            let st' :=
              set_stats
                {| totalJobs := totalJobs s + 1;
                   perRoute := <[name j := default 0 (perRoute s !! name j) + 1]>
                                 (perRoute s);
                   throttleEvents := throttleEvents s;
                   throttledMsTotal := throttledMsTotal s |} st1 in
            if broadcast (opts st') && eventServer st'
            then set_published
                   (published st' ++
                      [{| n_id := id j; n_name := name j; n_completedAt := now |}])
                   st'
            else st'
        end in
      set_active (active st2 - 1) st2
  end.

(** Everything that can happen to a server. *)
Inductive action : Type :=
| RegisterJob (nm : string) (def : definition)
| Enqueue (nm : string) (pl : value) (now : Z) (rand : string) (push : rpush_outcome)
| Start (idx : Z)
| Stop (now : Z)
| Poll
| Take (pop : blpop_outcome)
| Settle (i : nat) (r : outcome) (now : Z).

Definition step (st : state) (a : action) : state :=
  match a with
  | RegisterJob nm def => fst (registerJob nm def st)
  | Enqueue nm pl now rand push => fst (enqueue nm pl now rand push st)
  | Start idx => start idx st
  | Stop now => stop now st
  | Poll => pump_poll st
  | Take pop => pump_take pop st
  | Settle i r now => pump_settle i r now st
  end.

Definition run (acts : list action) (st : state) : state := foldl step st acts.

(** The sum of the per-name counts. *)
Definition sum_counts (m : gmap string Z) : Z :=
  map_fold (fun _ n acc => n + acc) 0 m.


(** The throttle has never been on. *)
Definition quiet_throttle (s : state) : Prop :=
  redis s = true /\ throttleActive s = false
  /\ throttleEvents (stats s) = 0 /\ throttledMsTotal (stats s) = 0.

(** Every job in the memory queue has a definition. *)
Definition queue_known (s : state) : Prop :=
  Forall (fun j => is_Some (jobs s !! name j)) (queue s).

(** The number of completion events asked for under the name [nm]. *)
Definition notices_for (nm : string) (l : list completion_notice) : Z :=
  Z.of_nat (length (List.filter (fun n => String.eqb (n_name n) nm) l)).

(** The completion events asked for agree with the statistics. *)
Definition notices_match (s : state) : Prop :=
  (forall nm, notices_for nm (published s)
              = if broadcast (opts s) && eventServer s
                then default 0 (perRoute (stats s) !! nm) else 0)
  /\ Z.of_nat (length (published s))
     = if broadcast (opts s) && eventServer s then totalJobs (stats s) else 0.

(** An action of a worker whose index is not 0. *)
Definition off_leader (a : action) : Prop :=
  match a with Start idx => idx <> 0 | _ => True end.

(** A server that has not run and is not running anything. *)
Definition idle (s : state) : Prop :=
  leaderOnly (opts s) = true /\ running s = false /\ inflight s = []
  /\ polling s = 0%nat /\ totalJobs (stats s) = 0 /\ published s = [].

End JobQueueServer.

(* ===================================================================== *)
(** ** InfraStatus (src/Core/infra/InfraStatus.js) *)
(* ===================================================================== *)

Module InfraStatus.
Import Js.

(** [this.flags]; a flag that was never written is absent. *)
Definition create : gmap string bool :=
  <["redisUp" := false]> (<["mongoUp" := false]> ∅).

(** [!!this.flags[name]]. *)
Definition flag (name : string) (flags : gmap string bool) : bool :=
  default false (flags !! name).

Definition isRedisUp (flags : gmap string bool) : bool := flag "redisUp" flags.
Definition isMongoUp (flags : gmap string bool) : bool := flag "mongoUp" flags.

(** The payload [{ ts: Date.now(), ...meta }]. *)
Definition payload (now : Z) (meta : value) : value :=
  VObj (foldl (fun acc kv => obj_set (fst kv) (snd kv) acc)
              [("ts", VNum now)] (EventServer.spread meta)).

(** [set(name, val, meta = {})]: the flags it leaves and the event it
    emits, if any. *)
Definition set (name : string) (val meta : value) (now : Z)
           (flags : gmap string bool)
  : gmap string bool * option (string * value) :=
  let prev := flag name flags in
  let next := truthy val in
  let m := match meta with VUndef => VObj [] | _ => meta end in
  (<[name := next]> flags,
   if Bool.eqb prev next then None
   else Some (name +:+ ":" +:+ (if next then "up" else "down"), payload now m)).

(** A run of [set(name, val)] calls on one flag: the names of the events
    emitted, oldest first. *)
Fixpoint set_all (name : string) (vals : list (value * Z))
         (flags : gmap string bool) : gmap string bool * list string :=
  match vals with
  | [] => (flags, [])
  | (v, now) :: r =>
      let '(f1, e) := set name v VUndef now flags in
      let '(f2, es) := set_all name r f1 in
      (f2, match e with Some (ev, _) => ev :: es | None => es end)
  end.

End InfraStatus.

(* ===================================================================== *)
(** ** MetricsIngestor (core/system/MetricsIngestor.js) *)
(* ===================================================================== *)

Module MetricsIngestor.
Import Js.

(** An event of "sys:metrics" in one of the shapes the handler expects:
    [{ key, n }], [{ batch: { key: count, ... } }], or both. *)
Record event : Type := {
  e_key : option string;
  e_n : option Z;
  e_batch : option (list (string * Z))
}.

(** [inc(key, n)]. *)
Definition inc (key : string) (n : Z) (counters : gmap string Z) : gmap string Z :=
  <[key := default 0 (counters !! key) + n]> counters.

(** The subscriber of "sys:metrics" (lines 16-23); [None] is a falsy
    event.  [evt.n || 1] turns an absent or zero [n] into 1. *)
Definition handle (evt : option event) (counters : gmap string Z) : gmap string Z :=
  match evt with
  | None => counters
  | Some e =>
      let c1 :=
        match e_key e with
        | Some k =>
            if String.eqb k "" then counters
            else inc k (match e_n e with
                        | Some n => if n =? 0 then 1 else n
                        | None => 1
                        end) counters
        | None => counters
        end in
      match e_batch e with
      | Some entries => foldl (fun c kv => inc (fst kv) (snd kv) c) c1 entries
      | None => c1
      end
  end.

(** The timer callback (lines 26-42): nothing for an empty map, else the
    payload of "sys:metrics:flush" and an emptied map. *)
Definition flush (now : Z) (counters : gmap string Z)
  : gmap string Z * option (Z * gmap string Z) :=
  if decide (size counters = 0%nat) then (counters, None)
  else (∅, Some (now, counters)).

Inductive input : Type :=
| Metric (evt : option event)
| Timer (now : Z).

(** The payloads published over a run, oldest first. *)
Fixpoint run (ins : list input) (counters : gmap string Z)
  : gmap string Z * list (Z * gmap string Z) :=
  match ins with
  | [] => (counters, [])
  | Metric evt :: r => run r (handle evt counters)
  | Timer now :: r =>
      let '(c1, out) := flush now counters in
      let '(c2, outs) := run r c1 in
      (c2, match out with Some x => x :: outs | None => outs end)
  end.

(** What one event adds to the counter of [k]. *)
Definition added (k : string) (evt : option event) : Z :=
  match evt with
  | None => 0
  | Some e =>
      (match e_key e with
       | Some k' =>
           if String.eqb k' "" then 0
           else if String.eqb k' k
                then match e_n e with
                     | Some n => if n =? 0 then 1 else n
                     | None => 1
                     end
                else 0
       | None => 0
       end)
      + match e_batch e with
        | Some entries =>
            foldr (fun kv acc => (if String.eqb (fst kv) k then snd kv else 0) + acc)
                  0 entries
        | None => 0
        end
  end.


(** The count of [k] in a map of counters ([counters.get(k) || 0]). *)
Definition count (k : string) (m : gmap string Z) : Z := default 0 (m !! k).

(** What the events of a run add to the counter of [k]. *)
Definition added_all (k : string) (ins : list input) : Z :=
  foldr (fun i acc => match i with
                      | Metric evt => added k evt + acc
                      | Timer _ => acc
                      end) 0 ins.

(** The count of [k] summed over published snapshots. *)
Definition published (k : string) (outs : list (Z * gmap string Z)) : Z :=
  foldr (fun o acc => count k (snd o) + acc) 0 outs.

End MetricsIngestor.

(* ===================================================================== *)
(** ** Metrics aggregation (src/server/WorkerServer.js, lines 284-299) *)
(* ===================================================================== *)

Module MetricsAggregator.
Import Js.

(** A payload of "sys:metrics:flush": [evt.ts] and the entries of
    [evt.snapshot]. *)
Record flush_event : Type := {
  f_ts : Z;
  f_snapshot : list (string * Z)
}.

Record state : Type := {
  agg_ts : Z;                      (* aggPayload.ts *)
  agg_snapshot : gmap string Z;    (* aggPayload.snapshot *)
  agg_timer : bool                 (* aggTimer is set *)
}.

Definition create : state :=
  {| agg_ts := 0; agg_snapshot := ∅; agg_timer := false |}.

(** [onMetricsFlush(evt)]; [None] is an event without a snapshot. *)
Definition onMetricsFlush (evt : option flush_event) (st : state) : state :=
  match evt with
  | None => st
  | Some e =>
      {| agg_ts := Z.max (agg_ts st) (f_ts e);
         agg_snapshot :=
           foldl (fun m kv => <[fst kv := default 0 (m !! fst kv) + snd kv]> m)
                 (agg_snapshot st) (f_snapshot e);
         agg_timer := true |}
  end.

(** [flushAggregated()], run by the timer: the state is reset, and the
    payload goes to [eventServer.publish] on the leader only. *)
Definition flushAggregated (leader : bool) (now : Z) (st : state)
  : state * option (Z * gmap string Z) :=
  (create,
   if leader
   then Some (if agg_ts st =? 0 then now else agg_ts st, agg_snapshot st)
   else None).

Inductive input : Type :=
| Flush (evt : option flush_event)
| Fire (now : Z).                  (* the timer set by [onMetricsFlush] expires *)

Fixpoint run (leader : bool) (ins : list input) (st : state)
  : state * list (Z * gmap string Z) :=
  match ins with
  | [] => (st, [])
  | Flush evt :: r => run leader r (onMetricsFlush evt st)
  | Fire now :: r =>
      if agg_timer st then
        let '(s1, out) := flushAggregated leader now st in
        let '(s2, outs) := run leader r s1 in
        (s2, match out with Some x => x :: outs | None => outs end)
      else run leader r st
  end.

(** What one event adds to the count of [k]. *)
Definition added (k : string) (evt : option flush_event) : Z :=
  match evt with
  | None => 0
  | Some e =>
      foldr (fun kv acc => (if String.eqb (fst kv) k then snd kv else 0) + acc)
            0 (f_snapshot e)
  end.


(** What the events of a run add to the count of [k]. *)
Definition added_all (k : string) (ins : list input) : Z :=
  foldr (fun i acc => match i with
                      | Flush evt => added k evt + acc
                      | Fire _ => acc
                      end) 0 ins.

(** A payload published by the metrics ingestor as [onMetricsFlush] reads
    it: [evt.ts] and [Object.entries(evt.snapshot)]. *)
Definition of_ingestor (o : Z * gmap string Z) : option flush_event :=
  Some {| f_ts := fst o; f_snapshot := map_to_list (snd o) |}.

(** The payloads of the ingestor arriving one after the other. *)
Definition relay (outs : list (Z * gmap string Z)) : list input :=
  map (fun o => Flush (of_ingestor o)) outs.

End MetricsAggregator.

(* ===================================================================== *)
(** ** ClusterHeartbeat (src/Core/system/ClusterHeartbeat.js) *)
(* ===================================================================== *)

Module ClusterHeartbeat.
Import Js.

(** [zapi.monitoring.worker] as read by [start()]. *)
Record config : Type := {
  busEnabled : bool;       (* !!wCfg.broadcast *)
  busMs : Z;               (* Number(wCfg.intervalMs ?? 60000) *)
  ipcMs : Z;               (* Number(wCfg.ipcIntervalMs ?? intervalMs ?? 5000) *)
  full : bool              (* wCfg.detail === 'full' *)
}.

(** The period given to [setInterval]. *)
Definition period (cfg : config) : Z := Z.max 250 (ipcMs cfg).

(** What [buildPayload] reads at one tick. *)
Record reading : Type := {
  r_now : Z; r_uptimeSec : Z; r_rss : Z; r_heapUsed : Z; r_heapTotal : Z
}.

(** [buildPayload()]: the sample, and [heapTotal] under "full". *)
Definition buildPayload (cfg : config) (nodeId : string) (pid : N) (wi : Z)
           (r : reading) : Heartbeat.sample * option Z :=
  ({| Heartbeat.nodeId := nodeId; Heartbeat.pid := pid;
      Heartbeat.workerIndex := Some wi; Heartbeat.ts := r_now r;
      Heartbeat.uptimeSec := r_uptimeSec r; Heartbeat.rss := r_rss r;
      Heartbeat.heapUsed := r_heapUsed r |},
   if full cfg then Some (r_heapTotal r) else None).

(** [maybeBus(payload)]: [lastBusAt] after the call, and whether the
    payload went to [bus.publish('sys:heartbeat', _)]. *)
Definition maybeBus (cfg : config) (now : Z) (lastBusAt : Z) : Z * bool :=
  if negb (busEnabled cfg) then (lastBusAt, false)
  else if busMs cfg <=? now - lastBusAt then (now, true)
  else (lastBusAt, false).

(** The ticks of a worker (the kick of [start()] and the timer): for each
    clock reading, whether the bus got the heartbeat. *)
Fixpoint ticks (cfg : config) (nows : list Z) (lastBusAt : Z) : list (Z * bool) :=
  match nows with
  | [] => []
  | now :: r =>
      let '(last', sent) := maybeBus cfg now lastBusAt in
      (now, sent) :: ticks cfg r last'
  end.

(** The times at which the bus got a heartbeat. *)
Definition broadcasts (l : list (Z * bool)) : list Z :=
  map fst (List.filter snd l).

End ClusterHeartbeat.

(* ===================================================================== *)
(** ** BaseLifecycle.emitZapi (core/BaseLifecycle.js, lines 118-127) *)
(* ===================================================================== *)

Module BaseLifecycle.
Import Js.

(** [s.replace(/^zapi:/, '')]. *)
Definition stripZapi (s : string) : string :=
  if startsWith "zapi:" s then MessageBus.sliceFrom 5 s else s.

(** The event name of [emitZapi(suffix, _)]:
    [`zapi:${String(suffix || '').replace(/^zapi:/, '')}`]. *)
Definition zapiName (suffix : value) : string :=
  "zapi:" +:+ stripZapi (to_String (or_else suffix (VStr ""))).

(** [emitZapi(suffix, payload)]: the [publish(name, payload)] it asks of
    the EventServer.  [es] tells whether [resolveService('EventServer')]
    gives a server; without one the [catch] swallows the failure. *)
Definition emitZapi (es : bool) (suffix payload : value) : option (string * value) :=
  if es then Some (zapiName suffix, payload) else None.

End BaseLifecycle.

(* ===================================================================== *)
(** ** HealthService (core/system/HealthService.js) *)
(* ===================================================================== *)

Module HealthService.
Import Js.

Record state : Type := {
  status : string;           (* this._state.status *)
  meta : value;              (* this._state.meta *)
  deps_mongo : value;        (* this._deps.mongo: null or a boolean *)
  deps_redis : value;        (* this._deps.redis *)
  required_mongo : bool;     (* this._required.mongo *)
  required_redis : bool      (* this._required.redis *)
}.

(** The constructor. *)
Definition create : state :=
  {| status := "Ok"; meta := VObj []; deps_mongo := VNull; deps_redis := VNull;
     required_mongo := false; required_redis := false |}.

(** [this._state] as a value. *)
Definition state_value (st : state) : value :=
  VObj [("status", VStr (status st)); ("meta", meta st)].

(** [getState()]. *)
Definition getState (st : state) : value :=
  VObj [("status", VStr (status st));
        ("meta", VObj (EventServer.spread (or_else (meta st) (VObj []))))].

(** [setStatus(status, meta = {})]. *)
Definition setStatus (s m : value) (st : state) : state :=
  {| status := to_String (or_else s (VStr "Ok"));
     meta := match m with VUndef => VObj [] | _ => m end;
     deps_mongo := deps_mongo st; deps_redis := deps_redis st;
     required_mongo := required_mongo st; required_redis := required_redis st |}.

(** The list [missing] of [_recalc]. *)
Definition missing (st : state) : list string :=
  (if required_mongo st && negb (truthy (deps_mongo st)) then ["mongo"] else [])
  ++ (if required_redis st && negb (truthy (deps_redis st)) then ["redis"] else []).

(** [nextStatus] of [_recalc]. *)
Definition verdict (st : state) : string :=
  match missing st with [] => "Ok" | _ => "NotOk" end.

(** [_recalc(extra)]: the new state, and the event it asks [emitZapi] to
    publish when the status changed. *)
Definition recalc (es : bool) (extra : value) (st : state)
  : state * option (string * value) :=
  let st' :=
    {| status := verdict st;
       meta :=
         VObj (foldl (fun acc kv => obj_set (fst kv) (snd kv) acc)
                 (EventServer.spread extra)
                 [("deps", VObj [("mongo", deps_mongo st); ("redis", deps_redis st)]);
                  ("required", VObj [("mongo", VBool (required_mongo st));
                                     ("redis", VBool (required_redis st))]);
                  ("missing", VArr (map VStr (missing st)))]);
       deps_mongo := deps_mongo st; deps_redis := deps_redis st;
       required_mongo := required_mongo st; required_redis := required_redis st |} in
  (st',
   if String.eqb (verdict st) (status st) then None
   else BaseLifecycle.emitZapi es (VStr "sys:health:changed") (state_value st')).

Definition set_deps_mongo (v : value) (st : state) : state :=
  {| status := status st; meta := meta st; deps_mongo := v;
     deps_redis := deps_redis st;
     required_mongo := required_mongo st; required_redis := required_redis st |}.

Definition set_deps_redis (v : value) (st : state) : state :=
  {| status := status st; meta := meta st; deps_mongo := deps_mongo st;
     deps_redis := v;
     required_mongo := required_mongo st; required_redis := required_redis st |}.

(** [start()] up to the registration of the listeners.  [cfgReq_redis]
    and [cfgReq_mongo] are [cfg.zapi.health.require.redis] and [.mongo]
    when they are booleans; [flags] are the flags of InfraStatus. *)
Definition start (es : bool) (cfgReq_redis cfgReq_mongo : option bool)
           (redisConfigured mongoConfigured : bool)
           (flags : gmap string bool) (st : state)
  : state * option (string * value) :=
  recalc es (VObj [("boot", VBool true)])
    {| status := status st; meta := meta st;
       deps_mongo := VBool (InfraStatus.isMongoUp flags);
       deps_redis := VBool (InfraStatus.isRedisUp flags);
       required_mongo := default mongoConfigured cfgReq_mongo;
       required_redis := default redisConfigured cfgReq_redis |}.

(** The four listeners [start()] puts on InfraStatus, for an event
    [event] emitted with the payload [e]. *)
Definition onInfra (es : bool) (event : string) (e : value) (st : state)
  : state * option (string * value) :=
  if String.eqb event "mongoUp:up" then
    recalc es (VObj []) (set_deps_mongo (VBool true) st)
  else if String.eqb event "mongoUp:down" then
    recalc es (VObj [("reason", or_else (get "reason" e) (VStr "down"))])
      (set_deps_mongo (VBool false) st)
  else if String.eqb event "redisUp:up" then
    recalc es (VObj []) (set_deps_redis (VBool true) st)
  else if String.eqb event "redisUp:down" then
    recalc es (VObj [("reason", or_else (get "reason" e) (VStr "down"))])
      (set_deps_redis (VBool false) st)
  else (st, None).

(** A call [Infra.set(name, val, meta)] at the time [now]. *)
Record write : Type := {
  w_name : string; w_val : value; w_meta : value; w_now : Z
}.

(** One [Infra.set] call with a started HealthService listening: the
    flags, the service, and the event the service asked to have
    published, if any. *)
Definition step (es : bool) (w : write) (flags : gmap string bool) (st : state)
  : gmap string bool * state * option (string * value) :=
  let '(flags1, emitted) :=
    InfraStatus.set (w_name w) (w_val w) (w_meta w) (w_now w) flags in
  let '(st1, out) :=
    match emitted with
    | Some (ev, e) => onInfra es ev e st
    | None => (st, None)
    end in
  (flags1, st1, out).

(** A run of such calls; the events are listed oldest first. *)
Fixpoint run (es : bool) (ws : list write) (flags : gmap string bool) (st : state)
  : gmap string bool * state * list (string * value) :=
  match ws with
  | [] => (flags, st, [])
  | w :: r =>
      let '(flags1, st1, out) := step es w flags st in
      let '(flags2, st2, outs) := run es r flags1 st1 in
      (flags2, st2, match out with Some x => x :: outs | None => outs end)
  end.

(** The name of a status told by whether nothing is missing. *)
Definition status_name (ok : bool) : string := if ok then "Ok" else "NotOk".

(** The status of the service after each call of a run. *)
Fixpoint statuses (es : bool) (ws : list write) (flags : gmap string bool)
         (st : state) : list string :=
  match ws with
  | [] => []
  | w :: r =>
      let '(flags1, st1, _) := step es w flags st in
      status st1 :: statuses es r flags1 st1
  end.

(** The changes in a list of statuses that follows the status [prev]:
    every member that differs from the one before it. *)
Fixpoint changes (prev : string) (l : list string) : list string :=
  match l with
  | [] => []
  | x :: r => if String.eqb x prev then changes prev r else x :: changes x r
  end.

(** The service agrees with the flags. *)
Definition tracks (flags : gmap string bool) (st : state) : Prop :=
  deps_mongo st = VBool (InfraStatus.isMongoUp flags)
  /\ deps_redis st = VBool (InfraStatus.isRedisUp flags)
  /\ status st = verdict st.

End HealthService.

(* ===================================================================== *)
(** ** SystemEventService (core/events/SystemEventService.js) *)
(* ===================================================================== *)

Module SystemEventService.
Import Js EventServer.

(** [start()]: with [zapi.monitoring.localEcho] set and an EventServer at
    hand, a new adapter, here [a], is registered. *)
Definition start (localEcho es : bool) (a : adapter) (st : state) : state :=
  if localEcho && es then registerAdapter a st else st.

(** [publish(env)] of that adapter: the envelope is emitted once more on
    the local emitter of the server, under its event name; what a
    listener throws stays in the [try]. *)
Definition echo (throws : handler -> value -> bool) (st : state) (env : value)
  : list obs :=
  fst (Emitter.emit (invoke throws) (local st) (event_of env) env).

End SystemEventService.

(* ===================================================================== *)
(** ** Concrete scenarios used by the examples below *)
(* ===================================================================== *)

Module Scenario.
Import Js.

(** *** EventServer *)

Definition proc : EventServer.process :=
  {| EventServer.server_name := None; EventServer.pid := 4242;
     EventServer.worker_index := 0; EventServer.is_primary := false |}.

(** No handler throws. *)
Definition quiet : nat -> value -> bool := fun _ _ => false.

(** Handler 0 throws, whatever it is given. *)
Definition faulty : nat -> value -> bool := fun h _ => Nat.eqb h 0.

Definition call (now : Z) (ev : string) : EventServer.call_args :=
  {| EventServer.c_now := now; EventServer.c_health := None;
     EventServer.c_event := ev; EventServer.c_payload := VObj [] |}.

Definition env_of (now : Z) (ev : string) : value :=
  EventServer.envelope proc now
    (VObj [("status", VStr "Ok"); ("meta", VObj [])]) ev (VObj []).

(** [subscribe("a", h0); any(h1); registerAdapter(ad7)] on a new server. *)
Definition server : EventServer.state :=
  EventServer.registerAdapter 7%nat
    (EventServer.any 1%nat
       (EventServer.subscribe "a" 0%nat EventServer.create)).

(** [publish("a"); publish("b")]. *)
Definition two_calls : list EventServer.call_args := [call 1 "a"; call 2 "b"].

(** A new server with one adapter and no subscriber. *)
Definition bare_server : EventServer.state :=
  EventServer.registerAdapter 7%nat EventServer.create.

(** A started server with adapter 7 and [subscribe("*", h3)]. *)
Definition star_server : EventServer.state :=
  EventServer.subscribe "*" 3%nat
    {| EventServer.local := []; EventServer.adapters := [7%nat];
       EventServer.started := true; EventServer.buffer := [] |}.

(** *** RedisEventService *)

Definition me : RedisEventService.identity :=
  {| RedisEventService.selfPid := 4242; RedisEventService.selfWI := 0;
     RedisEventService.selfOrigin := "zapiAppServer" |}.

(** An envelope published by worker 1 of another process. *)
Definition foreign : value :=
  EventServer.envelope
    {| EventServer.server_name := None; EventServer.pid := 5151;
       EventServer.worker_index := 1; EventServer.is_primary := false |}
    9 (VObj [("status", VStr "Ok"); ("meta", VObj [])]) "zapi:x" (VObj []).

(** [subscribe("zapi:x", h0); any(h1)]. *)
Definition listeners : list (string * EventServer.listener) :=
  EventServer.local
    (EventServer.any 1%nat
       (EventServer.subscribe "zapi:x" 0%nat EventServer.create)).

(** *** MessageBus *)

Definition live : MessageBus.client :=
  {| MessageBus.has_publish := true; MessageBus.status := "ready" |}.

(** A bus with prefix "ws", one subscriber of "room" and a live remote
    attachment. *)
Definition bus : MessageBus.state :=
  MessageBus.attachRedisIfPossible (Some (live, live))
    (MessageBus.subscribe (VStr "room") 5%nat (MessageBus.create (VStr "ws"))).

(** *** Heartbeat *)

Definition beat (n : string) (p : N) (r : Z) : Heartbeat.sample :=
  {| Heartbeat.nodeId := n; Heartbeat.pid := p; Heartbeat.workerIndex := Some 0;
     Heartbeat.ts := 100; Heartbeat.uptimeSec := 5; Heartbeat.rss := r;
     Heartbeat.heapUsed := 1 |}.

Definition four_workers : Heartbeat.config :=
  {| Heartbeat.express_workers := Some 4; Heartbeat.full_detail := false |}.

(** *** JobQueueServer *)

(** [throttlecount = 3], everything else left to its default. *)
Definition throttle3 : JobQueueServer.raw_config :=
  {| JobQueueServer.cfg_throttlecount := Some 3;
     JobQueueServer.cfg_throttletime := None;
     JobQueueServer.cfg_useredis := false;
     JobQueueServer.cfg_jobworkerinstances := None;
     JobQueueServer.cfg_broadcast := false;
     JobQueueServer.cfg_leaderOnly := false |}.

(** The same with [useredis = true]. *)
Definition throttle3_redis : JobQueueServer.raw_config :=
  {| JobQueueServer.cfg_throttlecount := Some 3;
     JobQueueServer.cfg_throttletime := None;
     JobQueueServer.cfg_useredis := true;
     JobQueueServer.cfg_jobworkerinstances := None;
     JobQueueServer.cfg_broadcast := false;
     JobQueueServer.cfg_leaderOnly := false |}.

Definition plain_job : JobQueueServer.definition :=
  {| JobQueueServer.middleware := None; JobQueueServer.execute := 0%nat |}.

Definition enq (now : Z) (rand : string) : JobQueueServer.action :=
  JobQueueServer.Enqueue "j" VNull now rand JobQueueServer.Pushed.

(** An in-memory server with job "j" registered, started, four jobs
    enqueued and none consumed. *)
Definition four_enqueued : JobQueueServer.state :=
  JobQueueServer.run
    [ JobQueueServer.RegisterJob "j" plain_job; JobQueueServer.Start 0;
      enq 10 "aaaaaa"; enq 11 "bbbbbb"; enq 12 "cccccc"; enq 13 "dddddd" ]
    (JobQueueServer.create throttle3 false false).

(** One pump loop takes a job and runs it to completion, three times. *)
Definition consume_three : list JobQueueServer.action :=
  [ JobQueueServer.Take JobQueueServer.Nothing;
    JobQueueServer.Settle 0 JobQueueServer.Returned 20;
    JobQueueServer.Take JobQueueServer.Nothing;
    JobQueueServer.Settle 0 JobQueueServer.Returned 21;
    JobQueueServer.Take JobQueueServer.Nothing;
    JobQueueServer.Settle 0 JobQueueServer.Returned 22 ].

(** A remote-backed server with job "j" registered. *)
Definition remote_backed : JobQueueServer.state :=
  JobQueueServer.run [ JobQueueServer.RegisterJob "j" plain_job ]
    (JobQueueServer.create throttle3_redis true false).


(** *** Further scenarios *)

(** A started server with adapter 7 and no subscriber. *)
Definition started_bare : EventServer.state :=
  {| EventServer.local := []; EventServer.adapters := [7%nat];
     EventServer.started := true; EventServer.buffer := [] |}.

(** An error as a client raises it when the connection is refused. *)
Definition refused : value := VObj [("code", VStr "ECONNREFUSED")].

(** A client that fails twice, recovers (telling so twice) and fails
    again. *)
Definition flapping : list RedisEventService.client_event :=
  [ RedisEventService.Error refused 1; RedisEventService.Error refused 2;
    RedisEventService.Ready 3; RedisEventService.Ready 4;
    RedisEventService.Error refused 5 ].

(** Writes of the "redisUp" flag: up, up again, down. *)
Definition redis_writes : list (value * Z) :=
  [ (VBool true, 1); (VBool true, 2); (VBool false, 3) ].

(** Two workers beating, one of them twice. *)
Definition three_beats : list Heartbeat.input :=
  [ Heartbeat.Beat 100 (Some (beat "n1" 11 300));
    Heartbeat.Beat 101 (Some (beat "n1" 12 500));
    Heartbeat.Beat 102 (Some (beat "n1" 11 400)) ].

(** [{ key: "api", n: 2 }], a flush, a batch, a flush, [{ key: "api" }]. *)
Definition metric_events : list MetricsIngestor.input :=
  [ MetricsIngestor.Metric
      (Some {| MetricsIngestor.e_key := Some "api"; MetricsIngestor.e_n := Some 2;
               MetricsIngestor.e_batch := None |});
    MetricsIngestor.Timer 10;
    MetricsIngestor.Metric
      (Some {| MetricsIngestor.e_key := None; MetricsIngestor.e_n := None;
               MetricsIngestor.e_batch := Some [("api", 3); ("db", 1)] |});
    MetricsIngestor.Timer 20;
    MetricsIngestor.Metric
      (Some {| MetricsIngestor.e_key := Some "api"; MetricsIngestor.e_n := None;
               MetricsIngestor.e_batch := None |}) ].

(** Bus heartbeats every 60 s, ticks every 5 s. *)
Definition minute_bus : ClusterHeartbeat.config :=
  {| ClusterHeartbeat.busEnabled := true; ClusterHeartbeat.busMs := 60000;
     ClusterHeartbeat.ipcMs := 5000; ClusterHeartbeat.full := false |}.

(** [leaderOnly = true], everything else left to its default. *)
Definition leader_only : JobQueueServer.raw_config :=
  {| JobQueueServer.cfg_throttlecount := None;
     JobQueueServer.cfg_throttletime := None;
     JobQueueServer.cfg_useredis := false;
     JobQueueServer.cfg_jobworkerinstances := None;
     JobQueueServer.cfg_broadcast := false;
     JobQueueServer.cfg_leaderOnly := true |}.

(** What makes [four_enqueued]. *)
Definition enqueue_four : list JobQueueServer.action :=
  [ JobQueueServer.RegisterJob "j" plain_job; JobQueueServer.Start 0;
    enq 10 "aaaaaa"; enq 11 "bbbbbb"; enq 12 "cccccc"; enq 13 "dddddd" ].

(** The same on a server whose [rpush] throws every time. *)
Definition enqueue_four_thrown : list JobQueueServer.action :=
  [ JobQueueServer.RegisterJob "j" plain_job; JobQueueServer.Start 0;
    JobQueueServer.Enqueue "j" VNull 10 "aaaaaa" JobQueueServer.ThrowsSync;
    JobQueueServer.Enqueue "j" VNull 11 "bbbbbb" JobQueueServer.ThrowsSync;
    JobQueueServer.Enqueue "j" VNull 12 "cccccc" JobQueueServer.ThrowsSync;
    JobQueueServer.Enqueue "j" VNull 13 "dddddd" JobQueueServer.ThrowsSync ].

(** Three loops of the pump on a remote-backed server. *)
Definition poll_three : list JobQueueServer.action :=
  [ JobQueueServer.Poll; JobQueueServer.Take JobQueueServer.Popped;
    JobQueueServer.Poll; JobQueueServer.Take JobQueueServer.Nothing;
    JobQueueServer.Poll; JobQueueServer.Take JobQueueServer.Popped ].

(** Worker 2 registers a job, starts, gets a job enqueued and polls. *)
Definition worker_two : list JobQueueServer.action :=
  [ JobQueueServer.RegisterJob "j" plain_job; JobQueueServer.Start 2;
    enq 10 "aaaaaa"; JobQueueServer.Take JobQueueServer.Nothing ].


(** [subscribe("a", h0); any(h1)] on a started server with adapter 7,
    then SystemEventService started with [localEcho], its adapter
    being 9. *)
Definition echo_server : EventServer.state :=
  SystemEventService.start true true 9%nat
    (EventServer.any 1%nat (EventServer.subscribe "a" 0%nat started_bare)).

(** Redis comes up, is told up once more, and goes down. *)
Definition redis_flaps : list HealthService.write :=
  [ {| HealthService.w_name := "redisUp"; HealthService.w_val := VBool true;
       HealthService.w_meta := VUndef; HealthService.w_now := 1 |};
    {| HealthService.w_name := "redisUp"; HealthService.w_val := VBool true;
       HealthService.w_meta := VUndef; HealthService.w_now := 2 |};
    {| HealthService.w_name := "redisUp"; HealthService.w_val := VBool false;
       HealthService.w_meta := VObj [("reason", VStr "ECONNRESET")];
       HealthService.w_now := 3 |} ].

End Scenario.

(* ===================================================================== *)
(** * Properties *)
(* ===================================================================== *)

(** ** OutageDeduper *)

Section OutageDeduperFacts.
Import Js OutageDeduper.

Implicit Types (states : gmap string entry) (k key : string) (hist : list op).

Lemma isDown_current key states : isDown key states = down_flag (current key states).
Proof. unfold isDown, current. by destruct (states !! key). Qed.

(** A call reports [emitted] from the flag it finds. *)
Lemma step_emitted o states :
  snd (step o states) =
  match o with
  | Down k _ => negb (isDown k states)
  | Up k _ => isDown k states
  end.
Proof.
  destruct o as [k now|k now]; cbn [step].
  - unfold down. rewrite isDown_current.
    by destruct (down_flag (current k states)).
  - unfold up. by rewrite isDown_current.
Qed.

(** A call sets the flag of its key and leaves the others alone. *)
Lemma step_isDown o states key :
  isDown key (fst (step o states)) =
  match o with
  | Down k _ => if String.eqb k key then true else isDown key states
  | Up k _ => if String.eqb k key then false else isDown key states
  end.
Proof.
  destruct o as [k now|k now]; cbn [step].
  - unfold down. destruct (down_flag (current k states)) eqn:Hd; cbn.
    + destruct (String.eqb_spec k key) as [->|Hne]; [|done].
      by rewrite isDown_current.
    + unfold isDown at 1.
      destruct (String.eqb_spec k key) as [->|Hne].
      * by rewrite lookup_insert_eq.
      * by rewrite lookup_insert_ne.
  - unfold up; cbn. unfold isDown at 1.
    destruct (String.eqb_spec k key) as [->|Hne].
    + by rewrite lookup_insert_eq.
    + by rewrite lookup_insert_ne.
Qed.

Lemma run_cons o ops states :
  run (o :: ops) states =
  (fst (run ops (fst (step o states))),
   snd (step o states) :: snd (run ops (fst (step o states)))).
Proof.
  cbn [run]. destruct (step o states) as [st1 e]; cbn.
  by destruct (run ops st1).
Qed.

Lemma run_app ops1 ops2 states :
  run (ops1 ++ ops2) states =
  (fst (run ops2 (fst (run ops1 states))),
   snd (run ops1 states) ++ snd (run ops2 (fst (run ops1 states)))).
Proof.
  revert states. induction ops1 as [|o ops1 IH]; intros states.
  - cbn. by destruct (run ops2 states).
  - rewrite <- app_comm_cons, !run_cons, IH. done.
Qed.

(** The flag a run leaves is the one the history of calls dictates. *)
Lemma run_isDown hist states key :
  isDown key (fst (run hist states)) = marked_down key hist (isDown key states).
Proof.
  revert states. induction hist as [|o hist IH]; intros states; [done|].
  rewrite run_cons; cbn [fst]. rewrite IH, step_isDown.
  by destruct o.
Qed.

Lemma isDown_empty key : isDown key ∅ = false.
Proof. unfold isDown. by rewrite lookup_empty. Qed.

(** Repeated [down(key)]: the first call reports what it found, the
    others report nothing. *)
Lemma downs_emitted k now0 nows states :
  snd (run (map (Down k) (now0 :: nows)) states) =
  negb (isDown k states) :: repeat false (length nows).
Proof.
  cbn [map]. rewrite run_cons; cbn [snd]. rewrite step_emitted. f_equal.
  assert (Hd : isDown k (fst (step (Down k now0) states)) = true).
  { rewrite step_isDown. by rewrite String.eqb_refl. }
  revert Hd. generalize (fst (step (Down k now0) states)) as st.
  induction nows as [|t nows IH]; intros st Hd; [done|].
  cbn [map length repeat]. rewrite run_cons; cbn [snd].
  rewrite step_emitted, Hd. cbn [negb]. f_equal. apply IH.
  rewrite step_isDown. by rewrite String.eqb_refl.
Qed.

Lemma downs_isDown k now0 nows states :
  isDown k (fst (run (map (Down k) (now0 :: nows)) states)) = true.
Proof.
  rewrite run_isDown. cbn [map marked_down]. rewrite String.eqb_refl.
  induction nows as [|t nows IH]; [done|].
  cbn [map marked_down]. by rewrite String.eqb_refl.
Qed.

(** C3.  Starting from the empty map of a freshly loaded module and
    after any history of calls on any keys: [down(key)] returns
    [emitted: true] exactly when [key] is not marked down and [up(key)]
    exactly when it is; so one or more consecutive [down(key)] report
    [true] at most on the first call (exactly there when the key was not
    down), the [up(key)] that follows them reports [true], and a second
    [up(key)] right after it reports [false]. *)
Theorem outage_emitted_exactly_on_transition :
  (forall hist o,
      snd (step o (fst (run hist ∅))) =
      match o with
      | Down k _ => negb (marked_down k hist false)
      | Up k _ => marked_down k hist false
      end)
  /\ (forall hist k now0 nows,
         snd (run (map (Down k) (now0 :: nows)) (fst (run hist ∅))) =
         negb (marked_down k hist false) :: repeat false (length nows))
  /\ (forall hist k now0 nows t1 t2,
         snd (run (map (Down k) (now0 :: nows) ++ [Up k t1; Up k t2])
                  (fst (run hist ∅))) =
         (negb (marked_down k hist false) :: repeat false (length nows))
           ++ [true; false]).
Proof.
  split; [|split].
  - intros hist o. rewrite step_emitted.
    destruct o as [k ?|k ?]; by rewrite run_isDown, isDown_empty.
  - intros hist k now0 nows.
    by rewrite downs_emitted, run_isDown, isDown_empty.
  - intros hist k now0 nows t1 t2.
    rewrite run_app; cbn [snd].
    rewrite downs_emitted, run_isDown, isDown_empty. f_equal.
    rewrite !run_cons; cbn [snd run].
    rewrite !step_emitted, step_isDown, String.eqb_refl.
    by rewrite downs_isDown.
Qed.

End OutageDeduperFacts.

(** ** EventServer *)

Section EventServerFacts.
Import Js EventServer.

Variable throws : handler -> value -> bool.
Variable p : process.

Implicit Types (st : state) (c : call_args) (cs : list call_args)
               (env : value) (o : list obs) (a : adapter).

Lemma event_of_envelope now hs ev pl : event_of (envelope p now hs ev pl) = ev.
Proof. reflexivity. Qed.

Lemma built_event c env : built p c = Some env -> event_of env = c_event c.
Proof.
  unfold built. intros H.
  destruct (c_health c) as [[]|]; simplify_eq; apply event_of_envelope.
Qed.

(** On a stopped server a call observes nothing and leaves its envelope
    at the end of the buffer. *)
Lemma publish_stopped c st :
  started st = false ->
  publish throws p (c_now c) (c_health c) (c_event c) (c_payload c) st =
  ({| local := local st; adapters := adapters st; started := false;
      buffer := buffer st ++ option_list (built p c) |},
   [],
   match built p c with Some _ => Normal | None => Throw end).
Proof.
  intros Hs. unfold publish, built. rewrite Hs. destruct st as [l ads s b].
  cbn in Hs; subst s.
  destruct (c_health c) as [[]|]; cbn; by rewrite ?app_nil_r.
Qed.

Lemma publish_all_stopped cs st :
  started st = false ->
  publish_all throws p cs st =
  ({| local := local st; adapters := adapters st; started := false;
      buffer := buffer st ++ envelopes p cs |}, []).
Proof.
  revert st. induction cs as [|c cs IH]; intros st Hs.
  - cbn. rewrite app_nil_r. destruct st; cbn in *; by subst.
  - cbn [publish_all]. rewrite publish_stopped by done.
    rewrite IH by done. cbn [local adapters buffer].
    assert (E : envelopes p (c :: cs)
                = option_list (built p c) ++ envelopes p cs).
    { unfold envelopes. cbn. by destruct (built p c). }
    by rewrite E, app_assoc.
Qed.

(** On a started server a call delivers at once and keeps the state. *)
Lemma publish_started c st :
  started st = true ->
  publish throws p (c_now c) (c_health c) (c_event c) (c_payload c) st =
  match built p c with
  | None => (st, [], Throw)
  | Some env => (st, fst (deliver throws st (c_event c) env),
                 snd (deliver throws st (c_event c) env))
  end.
Proof.
  intros Hs. unfold publish, built. rewrite Hs.
  destruct (c_health c) as [[]|]; cbn [negb]; try done;
    by match goal with |- context [deliver ?t ?s ?e ?v] =>
         destruct (deliver t s e v) end.
Qed.

(** [this.adapters] never holds an adapter twice. *)
Lemma registerAdapter_NoDup a st :
  NoDup (adapters st) -> NoDup (adapters (registerAdapter a st)).
Proof.
  intros Hnd. unfold registerAdapter. cbn [adapters]. case_bool_decide; [done|].
  apply NoDup_app. repeat split; [done| |apply NoDup_singleton].
  intros x Hx Hx'. apply list_elem_of_singleton in Hx'. by subst.
Qed.

Lemma deliver_ext st st' ev env :
  local st = local st' -> adapters st = adapters st' ->
  deliver throws st ev env = deliver throws st' ev env.
Proof. unfold deliver. by intros -> ->. Qed.

(** When no emission throws, the loop of [start] goes through the whole
    buffer. *)
Lemma drain_no_throw st buf :
  Forall (fun env => snd (deliver throws st (event_of env) env) = Normal) buf ->
  drain throws st buf =
  concat (map (fun env => fst (deliver throws st (event_of env) env)) buf).
Proof.
  induction 1 as [|env buf Hn _ IH]; [done|].
  cbn [drain map concat].
  destruct (deliver throws st (event_of env) env) as [o []]; [|done].
  by rewrite IH.
Qed.

Lemma received_app a o1 o2 : received a (o1 ++ o2) = received a o1 ++ received a o2.
Proof. apply omap_app. Qed.

Lemma received_invoke a l env : received a (fst (invoke throws l env)) = [].
Proof.
  destruct l as [topic h|h]; cbn; [|done].
  repeat (case_match; try done).
Qed.

Lemma received_call_all a fs env :
  received a (fst (Emitter.call_all (invoke throws) fs env)) = [].
Proof.
  induction fs as [|f fs IH]; [done|]. cbn [Emitter.call_all].
  pose proof (received_invoke a f env) as Hf.
  destruct (invoke throws f env) as [o []]; cbn [fst] in *.
  - destruct (Emitter.call_all (invoke throws) fs env) as [o' c']; cbn [fst] in *.
    by rewrite received_app, Hf, IH.
  - done.
Qed.

(** Listeners never show up as adapter calls. *)
Lemma received_emit a ls ch env :
  received a (fst (Emitter.emit (invoke throws) ls ch env)) = [].
Proof.
  unfold Emitter.emit. destruct (Emitter.listeners ls ch) eqn:E; [done|].
  apply received_call_all.
Qed.

Lemma received_to_adapters_notin a ads env :
  a ∉ ads -> received a (to_adapters ads env) = [].
Proof.
  induction ads as [|a' ads IH]; [done|]. intros Hn.
  apply not_elem_of_cons in Hn as [Hne Hn]. cbn.
  destruct (Nat.eqb_spec a' a); [congruence|]. by apply IH.
Qed.

Lemma received_to_adapters a ads env :
  NoDup ads -> a ∈ ads -> received a (to_adapters ads env) = [env].
Proof.
  induction 1 as [|a' ads Hn Hnd IH]; intros Hin; [by apply elem_of_nil in Hin|].
  cbn. destruct (Nat.eqb_spec a' a) as [->|Hne].
  - f_equal. by apply received_to_adapters_notin.
  - apply elem_of_cons in Hin as [->|Hin]; [done|]. by apply IH.
Qed.

(** A delivery that completes hands the envelope to each adapter once. *)
Lemma received_deliver a st ev env :
  NoDup (adapters st) -> a ∈ adapters st ->
  snd (deliver throws st ev env) = Normal ->
  received a (fst (deliver throws st ev env)) = [env].
Proof.
  intros Hnd Hin. unfold deliver.
  pose proof (received_emit a (local st) ev env) as H1.
  pose proof (received_emit a (local st) "*" env) as H2.
  destruct (Emitter.emit (invoke throws) (local st) ev env) as [o1 []]; [|done].
  destruct (Emitter.emit (invoke throws) (local st) "*" env) as [o2 []]; [|done].
  cbn [fst snd] in *. intros _.
  by rewrite !received_app, H1, H2, received_to_adapters.
Qed.

Lemma received_concat_deliver a st buf :
  NoDup (adapters st) -> a ∈ adapters st ->
  Forall (fun env => snd (deliver throws st (event_of env) env) = Normal) buf ->
  received a (concat (map (fun env => fst (deliver throws st (event_of env) env)) buf))
  = buf.
Proof.
  intros Hnd Hin. induction 1 as [|env buf Hn _ IH]; [done|].
  cbn [map concat]. rewrite received_app, IH.
  by rewrite received_deliver.
Qed.

(** C1, as the code has it.  Calls made on a stopped server observe
    nothing and queue their envelopes in call order.  If none of the
    local emissions of the queued envelopes throws (no subscriber
    throws, and no envelope is named "error" without a listener for
    it), [start()] empties the buffer and delivers the envelopes oldest
    first, each one as a [publish] on the started server delivers it:
    to the listeners of its topic, to those of "*", then to every
    adapter, which thus receives each envelope once and in call order.
    After [start()] a call delivers at once and buffers nothing. *)
Theorem buffered_publishes_drain_in_order cs st :
  started st = false ->
  NoDup (adapters st) ->
  Forall (fun env => snd (deliver throws st (event_of env) env) = Normal)
         (buffer st ++ envelopes p cs) ->
  let st1 := fst (publish_all throws p cs st) in
  let st2 := fst (start throws st1) in
  snd (publish_all throws p cs st) = []
  /\ buffer st1 = buffer st ++ envelopes p cs
  /\ started st2 = true /\ buffer st2 = []
  /\ snd (start throws st1) =
     concat (map (fun env => fst (deliver throws st2 (event_of env) env))
                 (buffer st ++ envelopes p cs))
  /\ (forall a, a ∈ adapters st ->
                received a (snd (start throws st1)) = buffer st ++ envelopes p cs)
  /\ (forall c env, built p c = Some env ->
        publish throws p (c_now c) (c_health c) (c_event c) (c_payload c) st2 =
        (st2, fst (deliver throws st2 (event_of env) env),
              snd (deliver throws st2 (event_of env) env))).
Proof.
  intros Hs Hnd Hok st1 st2. subst st1 st2.
  rewrite publish_all_stopped by done.
  cbn [fst snd start buffer started local adapters].
  set (st2 := {| local := local st; adapters := adapters st;
                 started := true; buffer := [] |}).
  assert (Hext : forall ev env,
             deliver throws st2 ev env = deliver throws st ev env)
    by (intros; by apply deliver_ext).
  assert (Hok2 : Forall (fun env =>
             snd (deliver throws st2 (event_of env) env) = Normal)
             (buffer st ++ envelopes p cs)).
  { eapply Forall_impl; [exact Hok|]. intros env H. by rewrite Hext. }
  repeat split.
  - by apply drain_no_throw.
  - intros a Hin. rewrite drain_no_throw by done.
    by apply received_concat_deliver.
  - intros c env Hb. rewrite publish_started by done. rewrite Hb.
    by rewrite (built_event _ _ Hb).
Qed.

End EventServerFacts.

Section EventServerExamples.
Import Js EventServer Scenario.

(** The drain of two buffered envelopes when nobody throws. *)
Lemma buffered_publishes_drain_in_order_witness :
  started server = false
  /\ NoDup (adapters server)
  /\ Forall (fun env => snd (deliver quiet server (event_of env) env) = Normal)
            (buffer server ++ envelopes proc two_calls)
  /\ snd (start quiet (fst (publish_all quiet proc two_calls server))) =
     [ Handled 0%nat (env_of 1 "a"); Handled 1%nat (env_of 1 "a");
       Adapted 7%nat (env_of 1 "a");
       Handled 1%nat (env_of 2 "b"); Adapted 7%nat (env_of 2 "b") ].
Proof.
  assert (H1 : started server = false) by reflexivity.
  assert (H2 : NoDup (adapters server)).
  { apply (NoDup_cons_2 7%nat []); [apply not_elem_of_nil | apply NoDup_nil_2]. }
  assert (H3 : Forall (fun env =>
                 snd (deliver quiet server (event_of env) env) = Normal)
                 (buffer server ++ envelopes proc two_calls)).
  { repeat constructor. }
  split; [exact H1|]. split; [exact H2|]. split; [exact H3|].
  destruct (buffered_publishes_drain_in_order quiet proc two_calls server H1 H2 H3)
    as (_ & _ & _ & _ & Hd & _).
  rewrite Hd. reflexivity.
Defined.

(** The drain of [start()] with a subscriber that throws: the first
    envelope reaches that subscriber only, the second one nobody. *)
Example drain_with_throwing_subscriber :
  snd (start faulty (fst (publish_all faulty proc two_calls server))) =
  [ Handled 0%nat (env_of 1 "a") ].
Proof. reflexivity. Qed.

(** The same calls on the started server reach the adapter with "b". *)
Example publish_with_throwing_subscriber :
  snd (publish_all faulty proc two_calls (fst (start faulty server))) =
  [ Handled 0%nat (env_of 1 "a");
    Handled 1%nat (env_of 2 "b"); Adapted 7%nat (env_of 2 "b") ].
Proof. reflexivity. Qed.

(** An envelope named "error" with no listener for it ends the drain
    although nobody misbehaves. *)
Example drain_with_unheard_error_event :
  snd (start quiet (fst (publish_all quiet proc [call 1 "error"; call 2 "b"]
                           bare_server))) = [].
Proof. reflexivity. Qed.

(** C1 as stated fails: it is not so that, whatever the subscribers do,
    [start()] hands every buffered envelope to every adapter. *)
Lemma drain_can_lose_envelopes :
  ~ (forall throws p cs st,
        started st = false -> NoDup (adapters st) ->
        forall a, a ∈ adapters st ->
          received a (snd (start throws (fst (publish_all throws p cs st))))
          = buffer st ++ envelopes p cs).
Proof.
  intros H.
  specialize (H faulty proc two_calls server eq_refl).
  assert (Hnd : NoDup (adapters server)).
  { apply (NoDup_cons_2 7%nat []); [apply not_elem_of_nil | apply NoDup_nil_2]. }
  specialize (H Hnd 7%nat (list_elem_of_here _ _)).
  vm_compute in H. discriminate H.
Qed.

End EventServerExamples.

Section SubscribeFacts.
Import Js EventServer.

Variable throws : handler -> value -> bool.
Variable p : process.

(** The listeners [subscribe("*", h)] leaves on a server that had none:
    the closure sits on "*" twice, once for [isWild] and once for the
    topic itself. *)
Lemma subscribe_star_registers_twice h ads b s :
  local (subscribe "*" h {| local := []; adapters := ads; started := s; buffer := b |})
  = [("*", Wrapped "*" h); ("*", Wrapped "*" h)].
Proof. reflexivity. Qed.

(** [any(h)] registers the handler once. *)
Lemma any_registers_once h ads b s :
  local (any h {| local := []; adapters := ads; started := s; buffer := b |})
  = [("*", Plain h)].
Proof. reflexivity. Qed.

Lemma listeners_nil (ch : string) :
  Emitter.listeners (@nil (string * listener)) ch = [].
Proof. reflexivity. Qed.

Lemma listeners_cons (ch' : string) (l : listener) ls ch :
  Emitter.listeners ((ch', l) :: ls) ch =
  if String.eqb ch' ch then l :: Emitter.listeners ls ch
  else Emitter.listeners ls ch.
Proof. unfold Emitter.listeners. cbn. by destruct (String.eqb ch' ch). Qed.

(** C4, what the code does.  On a started server whose only subscription
    is [subscribe("*", h)], with [h] not throwing, one [publish] of an
    event other than "error" calls [h] twice with the envelope (four times
    when the event is itself named "*") before the adapters get it. *)
Theorem star_subscriber_called_twice now ev pl h ads :
  ev <> "error" ->
  (forall env, throws h env = false) ->
  let st := subscribe "*" h
              {| local := []; adapters := ads; started := true; buffer := [] |} in
  let env := envelope p now (VObj [("status", VStr "Ok"); ("meta", VObj [])]) ev
               (match pl with VUndef => VObj [] | _ => pl end) in
  publish throws p now None ev pl st =
  (st,
   repeat (Handled h env) (if String.eqb ev "*" then 4 else 2)
     ++ to_adapters ads env,
   Normal).
Proof.
  intros Herr Hq st env. subst st.
  unfold publish. cbn [started subscribe negb].
  fold env. unfold deliver.
  replace (local (subscribe "*" h
             {| local := []; adapters := ads; started := true; buffer := [] |}))
    with [("*", Wrapped "*" h); ("*", Wrapped "*" h)] by reflexivity.
  unfold Emitter.emit. rewrite !listeners_cons, !listeners_nil.
  rewrite (String.eqb_refl "*").
  apply String.eqb_neq in Herr.
  destruct (String.eqb_spec ev "*") as [->|Hne].
  - rewrite (String.eqb_refl "*"). cbn. rewrite !Hq. reflexivity.
  - assert (Hf : String.eqb "*" ev = false).
    { apply String.eqb_neq. congruence. }
    rewrite !Hf, Herr. cbn. rewrite !Hq. reflexivity.
Qed.

End SubscribeFacts.

Section SubscribeExamples.
Import Js EventServer Scenario.

(** [subscribe("*", h3)], then [publish("a", {})]: two calls of [h3]. *)
Lemma star_subscriber_called_twice_witness :
  "a" <> "error"
  /\ (forall env, quiet 3%nat env = false)
  /\ publish quiet proc 1 None "a" (VObj []) star_server =
     (star_server,
      [ Handled 3%nat (env_of 1 "a"); Handled 3%nat (env_of 1 "a");
        Adapted 7%nat (env_of 1 "a") ],
      Normal).
Proof.
  assert (H1 : "a" <> "error") by discriminate.
  assert (H2 : forall env, quiet 3%nat env = false) by reflexivity.
  split; [exact H1|]. split; [exact H2|].
  exact (star_subscriber_called_twice quiet proc 1 "a" (VObj []) 3%nat [7%nat] H1 H2).
Defined.

(** [any(h)] on the same server: one call per envelope. *)
Example any_subscriber_called_once :
  publish quiet proc 1 None "a" (VObj [])
    (any 3%nat {| local := []; adapters := [7%nat]; started := true; buffer := [] |})
  = (any 3%nat {| local := []; adapters := [7%nat]; started := true; buffer := [] |},
     [ Handled 3%nat (env_of 1 "a"); Adapted 7%nat (env_of 1 "a") ],
     Normal).
Proof. reflexivity. Qed.

(** [subscribe("ns:*", h)]: called for "ns:a", not for "other", and twice
    for the event named like the pattern. *)
Example prefix_subscriber_calls :
  let st := subscribe "ns:*" 3%nat
              {| local := []; adapters := []; started := true; buffer := [] |} in
  handled 3%nat (snd (fst (publish quiet proc 1 None "ns:a" (VObj []) st)))
    = [env_of 1 "ns:a"]
  /\ handled 3%nat (snd (fst (publish quiet proc 1 None "other" (VObj []) st))) = []
  /\ handled 3%nat (snd (fst (publish quiet proc 1 None "ns:*" (VObj []) st)))
    = [env_of 1 "ns:*"; env_of 1 "ns:*"].
Proof. repeat split. Qed.

(** [subscribe("zapi:*", h)] is treated like "*": [h] is called for an
    event outside the "zapi:" namespace too. *)
Example zapi_prefix_receives_everything :
  let st := subscribe "zapi:*" 3%nat
              {| local := []; adapters := []; started := true; buffer := [] |} in
  handled 3%nat (snd (fst (publish quiet proc 1 None "other" (VObj []) st)))
  = [env_of 1 "other"].
Proof. reflexivity. Qed.

(** A "*" subscriber does not see an event named "error" that has no
    listener of its own: the first [emit] throws. *)
Example star_subscriber_misses_error_event :
  publish quiet proc 1 None "error" (VObj []) star_server
  = (star_server, [], Throw).
Proof. reflexivity. Qed.

End SubscribeExamples.

(** ** RedisEventService *)

Section RedisEventServiceFacts.
Import Js EventServer RedisEventService.

Variable throws : handler -> value -> bool.
Variable self : identity.

Lemma is_num_eq v z : is_num v z = true <-> v = VNum z.
Proof.
  destruct v; cbn; try (split; [discriminate|congruence]).
  rewrite Z.eqb_eq. split; congruence.
Qed.

Lemma is_str_eq v s : is_str v s = true <-> v = VStr s.
Proof.
  destruct v; cbn; try (split; [discriminate|congruence]).
  rewrite String.eqb_eq. split; congruence.
Qed.

(** The test of line 60 holds exactly when the three header fields are
    this process's pid, worker index and server name. *)
Lemma is_own_triple env :
  is_own self env = true <->
  get "pid" (or_else (get "meta" (get "state" (get "eventHeader" env))) (VObj []))
    = VNum (selfPid self)
  /\ get "workerIndex"
       (or_else (get "meta" (get "state" (get "eventHeader" env))) (VObj []))
    = VNum (selfWI self)
  /\ get "origin" (get "eventHeader" env) = VStr (selfOrigin self).
Proof.
  unfold is_own. rewrite !andb_true_iff, !is_num_eq, is_str_eq. tauto.
Qed.

(** What the listener of lines 55-64 does with a message that parses:
    nothing when the triple is this process's own, else an emission on
    the channel and, when that one did not throw, on "*". *)
Lemma on_pmessage_cases ls channel env :
  on_pmessage throws self ls channel (Some env) =
  if is_own self env then []
  else fst (Emitter.emit (invoke throws) ls channel env)
         ++ match snd (Emitter.emit (invoke throws) ls channel env) with
            | Normal => fst (Emitter.emit (invoke throws) ls "*" env)
            | Throw => []
            end.
Proof.
  unfold on_pmessage. destruct (is_own self env); [done|].
  destruct (Emitter.emit (invoke throws) ls channel env) as [o1 []]; cbn [fst snd];
    [done | by rewrite app_nil_r].
Qed.

(** C6, where the code departs from it.  core/Config exports no
    [getServerName], so the call of line 53 throws: whenever [start()]
    gets as far as registering its adapter and subscribing to "zapi:*",
    it ends in that exception with no listener of "pmessage" on [sub].
    No message that arrives is then emitted on the local emitter, be its
    triple the process's own or not; only the first half of the claim
    holds, and for want of a listener. *)
Theorem remote_messages_are_never_reemitted es clients psub p serverName
        ls channel parsed :
  Config.exported "getServerName" = false
  /\ installed (fst (start es clients psub p serverName)) = None
  /\ receive throws (fst (start es clients psub p serverName)) ls channel parsed = []
  /\ (es = true -> clients = true -> psub = Normal ->
      start es clients psub p serverName
      = ({| attached := true; registered := true; subscribed := true;
            installed := None |}, Throw)).
Proof.
  assert (He : Config.exported "getServerName" = false) by reflexivity.
  assert (Hi : installed (fst (start es clients psub p serverName)) = None).
  { unfold start. rewrite He. by destruct es, clients, psub. }
  split; [exact He|]. split; [exact Hi|]. split.
  - unfold receive. by rewrite Hi.
  - intros -> -> ->. unfold start. by rewrite He.
Qed.

End RedisEventServiceFacts.

Section RedisEventServiceExamples.
Import Js EventServer RedisEventService Scenario.

(** A message of another process on "zapi:x", with a subscriber of
    "zapi:x" and one of "*" on the server: the function of lines 55-64
    would call both, the service as [start()] leaves it calls
    neither. *)
Lemma remote_messages_are_never_reemitted_witness :
  is_own me foreign = false
  /\ on_pmessage quiet me listeners "zapi:x" (Some foreign)
     = [ Handled 0%nat foreign; Handled 1%nat foreign ]
  /\ start true true Normal proc "zapiAppServer"
     = ({| attached := true; registered := true; subscribed := true;
           installed := None |}, Throw)
  /\ receive quiet (fst (start true true Normal proc "zapiAppServer"))
       listeners "zapi:x" (Some foreign) = [].
Proof.
  destruct (remote_messages_are_never_reemitted quiet true true Normal proc
              "zapiAppServer" listeners "zapi:x" (Some foreign))
    as (_ & _ & Hr & Hs).
  split; [reflexivity|]. split; [reflexivity|].
  split; [exact (Hs eq_refl eq_refl eq_refl)|exact Hr].
Defined.

End RedisEventServiceExamples.

(** ** MessageBus *)

Section MessageBusFacts.
Import Js MessageBus.

Lemma trimStart_white s :
  (forall c, In c (String.list_ascii_of_string s) -> isWhite c = true) ->
  trimStart s = "".
Proof.
  induction s as [|c s IH]; intros H; [done|]. cbn [trimStart].
  assert (Hc : isWhite c = true) by (apply H; cbn; auto).
  rewrite Hc.
  apply IH. intros c' Hc'. apply H. cbn. auto.
Qed.

(** A string of white space trims to the empty string. *)
Lemma trim_white s :
  (forall c, In c (String.list_ascii_of_string s) -> isWhite c = true) ->
  trim s = "".
Proof. intros H. unfold trim. by rewrite (trimStart_white s H). Qed.

(** The topics the guard of [publish] rejects include [undefined],
    [null], [false], [0], the empty string and white space. *)
Lemma normalize_blank topic :
  topic = VUndef \/ topic = VNull \/ topic = VBool false \/ topic = VNum 0
  \/ (exists s, topic = VStr s /\
        forall c, In c (String.list_ascii_of_string s) -> isWhite c = true) ->
  normalize topic = "".
Proof.
  intros [->|[->|[->|[->|(s & -> & Hs)]]]]; try reflexivity.
  unfold normalize, or_else. cbn [truthy].
  destruct (String.eqb_spec s "") as [->|Hne]; cbn [negb to_String]; [done|].
  by apply trim_white.
Qed.

(** The guard of [publish] at work on the topics just listed. *)
Lemma publish_blank_examples throws topic payload st :
  topic = VUndef \/ topic = VNull \/ topic = VBool false \/ topic = VNum 0
  \/ (exists s, topic = VStr s /\
        forall c, In c (String.list_ascii_of_string s) -> isWhite c = true) ->
  publish throws topic payload st = [].
Proof. intros H. unfold publish. by rewrite (normalize_blank topic H). Qed.

(** C10.  Whatever the payload, the subscribers and the remote
    attachment, [publish] of a topic that coerces and trims to the empty
    string calls no local handler and publishes on no remote channel. *)
Theorem publish_blank_topic_is_noop throws topic payload st :
  normalize topic = "" ->
  publish throws topic payload st = [].
Proof. intros H. unfold publish. by rewrite H. Qed.

End MessageBusFacts.

(** ** Heartbeat aggregation *)

Section HeartbeatFacts.
Import Js Heartbeat.

Implicit Types (hb : list (string * worker)) (ps : list (string * N)).

(** Decimal numerals contain no bar. *)
Lemma pretty_N_go_no_bar (x : N) (s : string) :
  (forall a b, s <> a +:+ String "|" b) ->
  forall a b, pretty_N_go x s <> a +:+ String "|" b.
Proof.
  revert s. induction (N.lt_wf_0 x) as [x _ IH]; intros s Hs.
  destruct (decide (x = 0)%N) as [->|Hx]; [by rewrite pretty_N_go_0|].
  rewrite pretty_N_go_step by lia.
  apply IH; [apply N.div_lt; lia|].
  intros [|c a] b E; cbn in E.
  - injection E as E _. revert E. unfold pretty_N_char.
    repeat case_match; discriminate.
  - injection E as _ E. by apply Hs in E.
Qed.

Lemma pretty_N_no_bar (x : N) a b : pretty x <> a +:+ String "|" b.
Proof.
  unfold pretty, pretty_N. case_decide.
  - destruct a as [|c [|c' a]]; cbn; discriminate.
  - apply pretty_N_go_no_bar. intros [|c a'] b'; cbn; discriminate.
Qed.

(** The part before the last bar and the part after it are recovered
    from the joined string. *)
Lemma bar_join_inj (n1 n2 d1 d2 : string) :
  (forall a b, d1 <> a +:+ String "|" b) ->
  (forall a b, d2 <> a +:+ String "|" b) ->
  n1 +:+ String "|" d1 = n2 +:+ String "|" d2 ->
  n1 = n2 /\ d1 = d2.
Proof.
  intros H1 H2. revert n2.
  induction n1 as [|c n1 IH]; intros [|c' n2] E; cbn in E.
  - injection E as E. done.
  - injection E as _ E. by apply H1 in E.
  - injection E as _ E. symmetry in E. by apply H2 in E.
  - injection E as -> E. destruct (IH _ E) as [-> ->]. done.
Qed.

(** Distinct [(nodeId, pid)] pairs get distinct keys. *)
Lemma key_of_inj n1 p1 n2 p2 :
  key_of n1 p1 = key_of n2 p2 -> n1 = n2 /\ p1 = p2.
Proof.
  unfold key_of. cbn. intros E.
  apply bar_join_inj in E as [-> E]; try apply pretty_N_no_bar.
  split; [done|]. by apply (inj pretty).
Qed.

(** [Map.set] keeps the keys when the key is known and appends it
    otherwise. *)
Lemma map_set_keys {V : Type} (k : string) (v : V) (m : list (string * V)) :
  map fst (map_set k v m) =
  if bool_decide (k ∈ map fst m) then map fst m else map fst m ++ [k].
Proof.
  induction m as [|[k' v'] m IH]; [done|]. cbn [map_set].
  destruct (String.eqb_spec k' k) as [->|Hne]; cbn [map fst].
  - rewrite bool_decide_eq_true_2; [done|]. apply list_elem_of_here.
  - rewrite IH. destruct (bool_decide (k ∈ map fst m)) eqn:Hk.
    + apply bool_decide_eq_true_1 in Hk.
      rewrite bool_decide_eq_true_2; [done|]. by apply list_elem_of_further.
    + apply bool_decide_eq_false_1 in Hk.
      rewrite bool_decide_eq_false_2; [done|].
      intros Hin. apply elem_of_cons in Hin as [?|?]; congruence.
Qed.

(** The keys of [hbState] are the keys of the pairs seen so far, each
    once, whatever timers expired in between. *)
Lemma run_keys cfg ins hb ps :
  NoDup ps ->
  map fst hb = map (fun q => key_of (fst q) (snd q)) ps ->
  exists ps',
    NoDup ps'
    /\ map fst (fst (run cfg ins hb)) = map (fun q => key_of (fst q) (snd q)) ps'
    /\ (list_to_set ps' : gset (string * N))
       = list_to_set ps ∪ list_to_set (beats ins).
Proof.
  revert hb ps. induction ins as [|i ins IH]; intros hb ps Hnd Hk.
  - exists ps. repeat split; [done..|]. cbn. set_solver.
  - destruct i as [now [e|]|now]; cbn [run beats].
    + set (q := (nodeId e, pid e)).
      destruct (decide (q ∈ ps)) as [Hin|Hnin].
      * destruct (IH (onWorkerHeartbeat now (Some e) hb) ps Hnd) as (ps' & ? & ? & Hs).
        { unfold onWorkerHeartbeat. rewrite map_set_keys, Hk.
          rewrite bool_decide_eq_true_2; [done|].
          apply list_elem_of_fmap. by exists q. }
        exists ps'. repeat split; [done..|]. rewrite Hs. set_solver.
      * destruct (IH (onWorkerHeartbeat now (Some e) hb) (ps ++ [q]))
          as (ps' & ? & ? & Hs).
        { apply NoDup_app. repeat split; [done| |apply NoDup_singleton].
          intros x Hx Hx'. apply list_elem_of_singleton in Hx'. by subst. }
        { unfold onWorkerHeartbeat. rewrite map_set_keys, Hk.
          rewrite bool_decide_eq_false_2; [by rewrite map_app|].
          intros Hin. apply list_elem_of_fmap in Hin as ([n' p'] & E & Hin).
          cbn in E. apply key_of_inj in E as [E1 E2]. subst q. cbn in *.
          by subst. }
        exists ps'. repeat split; [done..|]. rewrite Hs.
        rewrite list_to_set_app_L. set_solver.
    + destruct (IH hb ps Hnd Hk) as (ps' & ? & ? & Hs). by exists ps'.
    + destruct (run cfg ins hb) as [st out] eqn:E. cbn [fst].
      destruct (IH hb ps Hnd Hk) as (ps' & ? & Hm & Hs). rewrite E in Hm.
      by exists ps'.
Qed.

Lemma run_snoc_tick cfg pre now hb :
  snd (run cfg (pre ++ [Tick now]) hb) =
  snd (run cfg pre hb) ++ [build cfg now (fst (run cfg pre hb))].
Proof.
  revert hb. induction pre as [|i pre IH]; intros hb; [done|].
  rewrite <- app_comm_cons. destruct i as [t e|t]; cbn [run].
  - apply IH.
  - specialize (IH hb).
    destruct (run cfg (pre ++ [Tick now]) hb) as [st1 o1].
    destruct (run cfg pre hb) as [st2 o2]. cbn [fst snd] in *.
    by rewrite IH.
Qed.

(** C7, as the code has it.  The snapshot built when the timer expires
    after the inputs [pre] is appended to those already published,
    unconditionally; its observed count is the number of distinct
    [(nodeId, pid)] pairs among all heartbeats received since the
    aggregator began ([hbState] is never cleared), and its expected count
    is the configured number of workers, at least 1. *)
Theorem snapshot_counts_all_keys_seen cfg pre now :
  let snap := build cfg now (fst (run cfg pre [])) in
  snd (run cfg (pre ++ [Tick now]) []) = snd (run cfg pre []) ++ [snap]
  /\ observed_total snap = distinct (beats pre)
  /\ expected_total snap =
     Z.max 1 (match express_workers cfg with
              | Some w => if w =? 0 then 1 else w
              | None => 1
              end).
Proof.
  intros snap. split; [apply run_snoc_tick|]. split; [|done].
  subst snap. cbn [build observed_total].
  destruct (run_keys cfg pre [] [] (NoDup_nil_2) eq_refl) as (ps' & Hnd & Hk & Hs).
  rewrite length_map.
  rewrite <- (length_map fst), Hk, length_map.
  rewrite <- (size_list_to_set (C := gset (string * N))) by done.
  unfold distinct. rewrite Hs. f_equal. set_solver.
Qed.

End HeartbeatFacts.

Section MessageBusExamples.
Import Js MessageBus Scenario.

(** A topic of three spaces on a bus with a subscriber and a live remote
    attachment. *)
Lemma publish_blank_topic_is_noop_witness :
  normalize (VStr "   ") = ""
  /\ publish quiet (VStr "   ") (VNum 1) bus = [].
Proof.
  assert (H : normalize (VStr "   ") = "") by reflexivity.
  split; [exact H|].
  exact (publish_blank_topic_is_noop quiet (VStr "   ") (VNum 1) bus H).
Defined.

(** The same bus delivers a proper topic locally and remotely. *)
Example publish_proper_topic :
  publish quiet (VStr " room ") (VNum 1) bus =
  [ Local 5%nat (VNum 1); Remote "ws:room" (VNum 1) ].
Proof. reflexivity. Qed.

End MessageBusExamples.

Section HeartbeatExamples.
Import Js Heartbeat Scenario.

(** One heartbeat, then two timer expiries: the second snapshot still
    counts the worker, although nothing arrived in its window. *)
Example second_snapshot_keeps_old_worker :
  map observed_total
      (snd (run four_workers [Beat 1 (Some (beat "host" 10 10)); Tick 2; Tick 3] []))
  = [1%nat; 1%nat].
Proof. reflexivity. Qed.

(** C7 as stated fails: the observed count is not the number of distinct
    keys among the heartbeats of the current window. *)
Lemma observed_is_not_per_window :
  ~ (forall cfg pre now,
        observed_total (build cfg now (fst (run cfg pre [])))
        = distinct (beats (window pre []))).
Proof.
  intros H.
  specialize (H four_workers [Beat 1 (Some (beat "host" 10 10)); Tick 2] 3).
  vm_compute in H. discriminate H.
Qed.

(** Three workers with [rss] 10, 20 and 30. *)
Example snapshot_rss_statistics :
  stat_rss (build four_workers 9
              (fst (run four_workers
                      [ Beat 1 (Some (beat "host" 10 10));
                        Beat 2 (Some (beat "host" 11 20));
                        Beat 3 (Some (beat "host" 12 30)) ] [])))
  = {| s_min := 10; s_avg := 20; s_max := 30 |}.
Proof. reflexivity. Qed.

End HeartbeatExamples.

(** ** JobQueueServer *)

Section JobQueueServerFacts.
Import Js JobQueueServer.

Implicit Types (st : state) (a : action) (m : gmap string Z).

(** *** Throttling *)

(** After [_maybeThrottle()] on an in-memory server the flag says whether
    the queue has reached the threshold; the queue is not touched. *)
Lemma maybeThrottle_level now st :
  redis st = false ->
  throttleActive (maybeThrottle now st)
  = (throttlecount (opts st) <=? Z.of_nat (length (queue st)))
  /\ queue (maybeThrottle now st) = queue st.
Proof.
  intros Hr. unfold maybeThrottle. rewrite Hr.
  destruct (throttleActive st) eqn:Ha;
    destruct (Z.leb_spec (throttlecount (opts st)) (Z.of_nat (length (queue st))))
      as [Hle|Hlt]; cbn; rewrite ?Ha; cbn.
  - destruct (Z.ltb_spec (Z.of_nat (length (queue st))) (throttlecount (opts st)));
      [lia|done].
  - destruct (Z.ltb_spec (Z.of_nat (length (queue st))) (throttlecount (opts st)));
      [done|lia].
  - destruct (Z.ltb_spec (Z.of_nat (length (queue st))) (throttlecount (opts st)));
      [lia|done].
  - done.
Qed.

(** With a remote client [_maybeThrottle()] returns at once. *)
Lemma maybeThrottle_remote now st : redis st = true -> maybeThrottle now st = st.
Proof. intros Hr. unfold maybeThrottle. by rewrite Hr. Qed.

Lemma pump_take_throttle pop st :
  throttleActive (pump_take pop st) = throttleActive st.
Proof.
  unfold pump_take, pump_begin. repeat case_match; simplify_eq; reflexivity.
Qed.

Lemma pump_settle_throttle i r now st :
  throttleActive (pump_settle i r now st) = throttleActive st.
Proof.
  unfold pump_settle. repeat case_match; simplify_eq; reflexivity.
Qed.

(** C2, as the code has it.  On an in-memory server the flag is
    re-evaluated by [enqueue] and by nothing the pump does: right after an
    [enqueue] it tells whether the queue length has reached
    [throttlecount], and taking or finishing a job leaves it as it was. *)
Theorem throttle_reevaluated_on_enqueue_only st nm def pl now rand push :
  redis st = false ->
  jobs st !! nm = Some def ->
  let st' := fst (enqueue nm pl now rand push st) in
  length (queue st') = S (length (queue st))
  /\ v_throttleActive (getStats st')
     = (throttlecount (opts st) <=? Z.of_nat (length (queue st')))
  /\ (forall pop s, v_throttleActive (getStats (pump_take pop s))
                    = v_throttleActive (getStats s))
  /\ (forall i r t s, v_throttleActive (getStats (pump_settle i r t s))
                      = v_throttleActive (getStats s)).
Proof.
  intros Hr Hj st'. subst st'. unfold enqueue. rewrite Hj, Hr. cbn [fst getStats v_throttleActive].
  match goal with |- context [maybeThrottle now ?s] =>
    destruct (maybeThrottle_level now s Hr) as [Ht Hq] end.
  rewrite Ht, Hq. cbn [queue set_queue opts].
  split; [|split; [|split]].
  - rewrite length_app. cbn. lia.
  - done.
  - intros. apply pump_take_throttle.
  - intros. apply pump_settle_throttle.
Qed.

(** *** Enqueue *)

(** C8.  [enqueue] of a name without a definition throws, and the server
    it leaves is the server it found: queue, remote list, throttle state
    and statistics are the same. *)
Theorem enqueue_unregistered_changes_nothing st nm pl now rand push :
  jobs st !! nm = None ->
  enqueue nm pl now rand push st
  = (st, inl ("Job " +:+ quote +:+ nm +:+ quote +:+ " is not registered")).
Proof. intros H. unfold enqueue. by rewrite H. Qed.

(** A push that succeeds puts the record at the tail of the remote list
    and nowhere else. *)
Lemma enqueue_pushed st nm def pl now rand :
  redis st = true ->
  jobs st !! nm = Some def ->
  let j := {| id := pretty now +:+ "-" +:+ rand; name := nm; payload := pl; ts := now |} in
  enqueue nm pl now rand Pushed st = (set_remote (remote st ++ [j]) st, inr (id j)).
Proof. intros Hr Hj. unfold enqueue. by rewrite Hj, Hr. Qed.

(** A push that throws puts the record at the tail of the in-memory queue
    and nowhere else; the throttle check that follows does nothing,
    because there is a remote client. *)
Lemma enqueue_push_throws st nm def pl now rand :
  redis st = true ->
  jobs st !! nm = Some def ->
  let j := {| id := pretty now +:+ "-" +:+ rand; name := nm; payload := pl; ts := now |} in
  enqueue nm pl now rand ThrowsSync st = (set_queue (queue st ++ [j]) st, inr (id j)).
Proof.
  intros Hr Hj. unfold enqueue. rewrite Hj, Hr.
  by rewrite maybeThrottle_remote.
Qed.

(** C5, where the code departs from it.  When the promise returned by
    [rpush] rejects, [enqueue] returns the job id and leaves both the
    remote list and the in-memory queue as they were: the record is in
    neither. *)
Theorem enqueue_rejected_push_loses_job st nm def pl now rand :
  redis st = true ->
  jobs st !! nm = Some def ->
  enqueue nm pl now rand Rejected st = (st, inr (pretty now +:+ "-" +:+ rand)).
Proof. intros Hr Hj. unfold enqueue. by rewrite Hj, Hr. Qed.

(** *** Statistics *)

Lemma sum_counts_bump m k :
  sum_counts (<[k := default 0 (m !! k) + 1]> m) = sum_counts m + 1.
Proof.
  unfold sum_counts.
  assert (Hc : forall z1 z2 y : Z, z1 + (z2 + y) = z2 + (z1 + y))
    by (intros; lia).
  destruct (m !! k) as [x|] eqn:Hk; cbn [default].
  - rewrite <- (insert_delete_eq m k (x + 1)).
    rewrite map_fold_insert_L; [|intros; apply Hc|apply lookup_delete_eq].
    rewrite (map_fold_delete_L _ _ k x m); [cbn beta; lia|intros; apply Hc|done].
  - rewrite map_fold_insert_L; [cbn beta; lia|intros; apply Hc|done].
Qed.

Lemma maybeThrottle_counts now st :
  totalJobs (stats (maybeThrottle now st)) = totalJobs (stats st)
  /\ perRoute (stats (maybeThrottle now st)) = perRoute (stats st).
Proof. unfold maybeThrottle. repeat case_match; by cbn. Qed.

Lemma pump_take_stats pop st : stats (pump_take pop st) = stats st.
Proof.
  unfold pump_take, pump_begin. repeat case_match; simplify_eq; reflexivity.
Qed.

Lemma pump_settle_threw i now st : stats (pump_settle i Threw now st) = stats st.
Proof. unfold pump_settle. repeat case_match; simplify_eq; reflexivity. Qed.

Lemma pump_settle_returned i j def now st :
  inflight st !! i = Some (j, def) ->
  totalJobs (stats (pump_settle i Returned now st)) = totalJobs (stats st) + 1
  /\ perRoute (stats (pump_settle i Returned now st))
     = <[name j := default 0 (perRoute (stats st) !! name j) + 1]> (perRoute (stats st)).
Proof.
  intros Hi. unfold pump_settle. rewrite Hi. by case_match.
Qed.

(** Every action keeps the total equal to the sum of the counts. *)
Lemma step_keeps_sum st a :
  totalJobs (stats st) = sum_counts (perRoute (stats st)) ->
  totalJobs (stats (step st a)) = sum_counts (perRoute (stats (step st a))).
Proof.
  intros Hinv.
  destruct a as [nm def|nm pl now rand push|idx|now| |pop|i r now]; cbn [step].
  - unfold registerJob. by case_match.
  - unfold enqueue. repeat case_match; cbn [fst]; try done;
      by destruct (maybeThrottle_counts now (set_queue (queue st ++
           [{| id := pretty now +:+ "-" +:+ rand; name := nm;
               payload := pl; ts := now |}]) st)) as [-> ->].
  - unfold start. by case_match.
  - unfold stop. by case_match.
  - unfold pump_poll. by case_match.
  - by rewrite pump_take_stats.
  - destruct r; [|by rewrite pump_settle_threw].
    destruct (inflight st !! i) as [[j def]|] eqn:Hi.
    + destruct (pump_settle_returned i j def now st Hi) as [-> ->].
      rewrite sum_counts_bump. lia.
    + unfold pump_settle. by rewrite Hi.
Qed.

Lemma run_keeps_sum acts st :
  totalJobs (stats st) = sum_counts (perRoute (stats st)) ->
  totalJobs (stats (run acts st)) = sum_counts (perRoute (stats (run acts st))).
Proof.
  revert st. induction acts as [|a acts IH]; intros st Hinv; [done|].
  cbn [run foldl]. apply IH. by apply step_keeps_sum.
Qed.

(** C9.  In every state a server reaches from its creation,
    [getStats().totalJobs] is the sum of the counts in
    [getStats().perRoute].  A job that finishes adds one to both, under
    its own name; a job whose middleware or [execute] throws changes
    neither, and neither does a job taken without a definition. *)
Theorem total_jobs_is_sum_of_per_route :
  (forall jq client es acts,
      v_totalJobs (getStats (run acts (create jq client es)))
      = sum_counts (v_perRoute (getStats (run acts (create jq client es)))))
  /\ (forall st i j def now,
         inflight st !! i = Some (j, def) ->
         v_totalJobs (getStats (pump_settle i Returned now st))
         = v_totalJobs (getStats st) + 1
         /\ v_perRoute (getStats (pump_settle i Returned now st))
            = <[name j := default 0 (v_perRoute (getStats st) !! name j) + 1]>
                (v_perRoute (getStats st)))
  /\ (forall st i now,
         v_totalJobs (getStats (pump_settle i Threw now st)) = v_totalJobs (getStats st)
         /\ v_perRoute (getStats (pump_settle i Threw now st))
            = v_perRoute (getStats st))
  /\ (forall st pop,
         v_totalJobs (getStats (pump_take pop st)) = v_totalJobs (getStats st)
         /\ v_perRoute (getStats (pump_take pop st)) = v_perRoute (getStats st)).
Proof.
  cbn [getStats v_totalJobs v_perRoute]. repeat split.
  - intros. by apply run_keeps_sum.
  - by apply (pump_settle_returned i j def).
  - by apply (pump_settle_returned i j def).
  - by rewrite pump_settle_threw.
  - by rewrite pump_settle_threw.
  - by rewrite pump_take_stats.
  - by rewrite pump_take_stats.
Qed.

End JobQueueServerFacts.

Section JobQueueServerExamples.
Import Js JobQueueServer Scenario.

(** The scenario of the claim: [throttlecount = 3], four jobs enqueued. *)
Example four_enqueued_is_throttled :
  v_queueLength (getStats four_enqueued) = Some 4%nat
  /\ v_throttleActive (getStats four_enqueued) = true
  /\ v_throttleEvents (getStats four_enqueued) = 1.
Proof. repeat split. Qed.

(** C2 as stated fails: after the pump has consumed three of the four
    jobs, one job is left, below the threshold of 3, and
    [getStats().throttleActive] is still [true]. *)
Lemma throttle_still_active_after_three_consumed :
  v_totalJobs (getStats (run consume_three four_enqueued)) = 3
  /\ v_queueLength (getStats (run consume_three four_enqueued)) = Some 1%nat
  /\ v_throttleActive (getStats (run consume_three four_enqueued)) <> false.
Proof.
  split; [vm_compute; reflexivity|]. split; [vm_compute; reflexivity|].
  intros H. vm_compute in H. discriminate H.
Qed.

(** The next [enqueue] finds two jobs queued and switches the flag off. *)
Example throttle_off_at_next_enqueue :
  v_queueLength (getStats (run (consume_three ++ [enq 30 "eeeeee"]) four_enqueued))
    = Some 2%nat
  /\ v_throttleActive
       (getStats (run (consume_three ++ [enq 30 "eeeeee"]) four_enqueued)) = false.
Proof. repeat split. Qed.

(** The fifth [enqueue], made after three jobs were consumed. *)
Lemma throttle_reevaluated_on_enqueue_only_witness :
  redis (run consume_three four_enqueued) = false
  /\ jobs (run consume_three four_enqueued) !! "j" = Some plain_job
  /\ v_throttleActive
       (getStats (fst (enqueue "j" VNull 30 "eeeeee" Pushed
                         (run consume_three four_enqueued))))
     = (3 <=? 2).
Proof.
  assert (H1 : redis (run consume_three four_enqueued) = false) by reflexivity.
  assert (H2 : jobs (run consume_three four_enqueued) !! "j" = Some plain_job)
    by reflexivity.
  split; [exact H1|]. split; [exact H2|].
  destruct (throttle_reevaluated_on_enqueue_only
              (run consume_three four_enqueued) "j" plain_job VNull 30 "eeeeee"
              Pushed H1 H2) as (_ & Ht & _).
  rewrite Ht. reflexivity.
Defined.

(** [enqueue("nope")] on the server with four jobs queued. *)
Lemma enqueue_unregistered_changes_nothing_witness :
  jobs four_enqueued !! "nope" = None
  /\ enqueue "nope" VNull 30 "eeeeee" Pushed four_enqueued
     = (four_enqueued,
        inl ("Job " +:+ quote +:+ "nope" +:+ quote +:+ " is not registered")).
Proof.
  assert (H : jobs four_enqueued !! "nope" = None) by reflexivity.
  split; [exact H|].
  exact (enqueue_unregistered_changes_nothing four_enqueued "nope" VNull 30
           "eeeeee" Pushed H).
Defined.

(** [enqueue("j")] on a remote-backed server whose push is rejected. *)
Lemma enqueue_rejected_push_loses_job_witness :
  redis remote_backed = true
  /\ jobs remote_backed !! "j" = Some plain_job
  /\ enqueue "j" VNull 30 "eeeeee" Rejected remote_backed
     = (remote_backed, inr "30-eeeeee")
  /\ remote remote_backed = [] /\ queue remote_backed = [].
Proof.
  assert (H1 : redis remote_backed = true) by reflexivity.
  assert (H2 : jobs remote_backed !! "j" = Some plain_job) by reflexivity.
  split; [exact H1|]. split; [exact H2|]. split; [|split; reflexivity].
  exact (enqueue_rejected_push_loses_job remote_backed "j" plain_job VNull 30
           "eeeeee" H1 H2).
Defined.

(** On the same server a push that succeeds lands in the remote list, and
    a push that throws lands in the in-memory queue, which the pump of a
    remote-backed server never reads. *)
Example enqueue_remote_backed_stores :
  map id (remote (fst (enqueue "j" VNull 30 "eeeeee" Pushed remote_backed)))
    = ["30-eeeeee"]
  /\ map id (queue (fst (enqueue "j" VNull 30 "eeeeee" ThrowsSync remote_backed)))
    = ["30-eeeeee"]
  /\ queue (pump_take Popped
              (pump_poll
                 (start 0 (fst (enqueue "j" VNull 30 "eeeeee" ThrowsSync
                                  remote_backed)))))
     = queue (fst (enqueue "j" VNull 30 "eeeeee" ThrowsSync remote_backed)).
Proof. repeat split. Qed.

(** The first of the four queued jobs is taken and finishes. *)
Lemma total_jobs_is_sum_of_per_route_witness :
  inflight (pump_take Nothing four_enqueued) !! 0%nat
    = Some ({| id := "10-aaaaaa"; name := "j"; payload := VNull; ts := 10 |},
            plain_job)
  /\ v_totalJobs (getStats (pump_settle 0 Returned 20 (pump_take Nothing four_enqueued)))
     = 0 + 1
  /\ v_perRoute (getStats (pump_settle 0 Returned 20 (pump_take Nothing four_enqueued)))
       !! "j" = Some 1.
Proof.
  assert (H : inflight (pump_take Nothing four_enqueued) !! 0%nat
              = Some ({| id := "10-aaaaaa"; name := "j"; payload := VNull; ts := 10 |},
                      plain_job)) by reflexivity.
  split; [exact H|].
  destruct total_jobs_is_sum_of_per_route as (_ & Hs & _).
  destruct (Hs (pump_take Nothing four_enqueued) 0%nat _ _ 20 H) as [Ht Hp].
  split; [exact Ht|]. rewrite Hp. reflexivity.
Defined.

(** A job whose [execute] throws is not counted, and the next job of the
    same loop is processed all the same. *)
Example failed_job_is_not_counted :
  let st := run [ Take Nothing; Settle 0 Threw 20;
                  Take Nothing; Settle 0 Returned 21 ] four_enqueued in
  v_totalJobs (getStats st) = 1
  /\ v_perRoute (getStats st) !! "j" = Some 1
  /\ v_queueLength (getStats st) = Some 2%nat.
Proof. repeat split. Qed.

End JobQueueServerExamples.

(* ===================================================================== *)
(** * Further properties *)
(* ===================================================================== *)

(** ** EventServer: adapters, subscriptions, [stop()] *)

Section EventServerMore.
Import Js EventServer.

Variable throws : handler -> value -> bool.
Variable p : process.

Implicit Types (st : state) (env : value) (a : adapter) (h : handler).

Lemma registerAdapter_elem a st : a ∈ adapters (registerAdapter a st).
Proof.
  unfold registerAdapter. cbn [adapters]. case_bool_decide; [done|].
  apply elem_of_app. right. apply list_elem_of_here.
Qed.

Lemma registerAdapter_again a st :
  registerAdapter a (registerAdapter a st) = registerAdapter a st.
Proof.
  unfold registerAdapter at 1. cbn [local started buffer].
  rewrite bool_decide_eq_true_2 by apply registerAdapter_elem.
  by destruct (registerAdapter a st).
Qed.

(** Whether a delivery completes depends on the listeners only. *)
Lemma deliver_completion_ext st st' ev env :
  local st = local st' ->
  snd (deliver throws st ev env) = snd (deliver throws st' ev env).
Proof.
  unfold deliver. intros ->.
  destruct (Emitter.emit (invoke throws) (local st') ev env) as [o1 []]; [|done].
  by destruct (Emitter.emit (invoke throws) (local st') "*" env) as [o2 []].
Qed.

(** X1.  [registerAdapter] keeps a set: registering an adapter a second
    time changes nothing, and a [publish] on the started server whose
    local emissions complete hands the envelope to that adapter once. *)
Theorem adapter_registered_twice_receives_once c st a env :
  started st = true ->
  NoDup (adapters st) ->
  built p c = Some env ->
  snd (deliver throws st (c_event c) env) = Normal ->
  registerAdapter a (registerAdapter a st) = registerAdapter a st
  /\ received a
       (snd (fst (publish throws p (c_now c) (c_health c) (c_event c) (c_payload c)
                    (registerAdapter a (registerAdapter a st)))))
     = [env].
Proof.
  intros Hs Hnd Hb Hok. split; [apply registerAdapter_again|].
  rewrite registerAdapter_again.
  rewrite publish_started by done. rewrite Hb. cbn [fst snd].
  apply received_deliver.
  - by apply registerAdapter_NoDup.
  - apply registerAdapter_elem.
  - by rewrite (deliver_completion_ext (registerAdapter a st) st).
Qed.

Lemma handled_app h o1 o2 : handled h (o1 ++ o2) = handled h o1 ++ handled h o2.
Proof. apply omap_app. Qed.

Lemma handled_to_adapters h ads env : handled h (to_adapters ads env) = [].
Proof. induction ads as [|a ads IH]; [done|]. by cbn. Qed.

Lemma handled_cons_same h env o :
  handled h (Handled h env :: o) = env :: handled h o.
Proof. unfold handled. cbn. by rewrite Nat.eqb_refl. Qed.

Lemma endsWithStar_not_star topic : endsWithStar topic = false -> topic <> "*".
Proof. by intros H ->. Qed.

Lemma endsWithStar_not_zapi topic : endsWithStar topic = false -> topic <> "zapi:*".
Proof. by intros H ->. Qed.

(** What the closure of an exact subscription does with an envelope. *)
Lemma invoke_exact topic h env :
  endsWithStar topic = false ->
  invoke throws (Wrapped topic h) env =
  if is_str (get "event" env) topic then call throws h env else ([], Normal).
Proof.
  intros He. cbn [invoke].
  rewrite (proj2 (String.eqb_neq _ _) (endsWithStar_not_star _ He)).
  rewrite (proj2 (String.eqb_neq _ _) (endsWithStar_not_zapi _ He)).
  rewrite He. cbn [orb andb]. by destruct (is_str (get "event" env) topic).
Qed.

(** X2.  A subscription to a topic that does not end in a star, alone on
    a started server: [publish(ev)] calls the handler once when [ev] is
    the topic and not at all otherwise, whether or not the handler
    throws. *)
Theorem exact_subscriber_called_for_its_topic_only now ev pl topic h ads :
  endsWithStar topic = false ->
  let st := subscribe topic h
              {| local := []; adapters := ads; started := true; buffer := [] |} in
  let env := envelope p now (VObj [("status", VStr "Ok"); ("meta", VObj [])]) ev
               (match pl with VUndef => VObj [] | _ => pl end) in
  handled h (snd (fst (publish throws p now None ev pl st)))
  = if String.eqb ev topic then [env] else [].
Proof.
  intros He st env. subst st. unfold publish. cbn [started subscribe negb].
  fold env. unfold deliver.
  assert (Hl : local (subscribe topic h
                 {| local := []; adapters := ads; started := true; buffer := [] |})
               = [(topic, Wrapped topic h)]).
  { unfold subscribe. cbn [local Emitter.on app].
    rewrite (proj2 (String.eqb_neq _ _) (endsWithStar_not_star _ He)), He.
    reflexivity. }
  rewrite Hl. unfold Emitter.emit. rewrite !listeners_cons, !listeners_nil.
  rewrite (proj2 (String.eqb_neq _ _) (endsWithStar_not_star _ He)).
  cbn [String.eqb Ascii.eqb Bool.eqb].
  rewrite (String.eqb_sym topic ev).
  destruct (String.eqb_spec ev topic) as [->|Hne].
  - cbn [Emitter.call_all]. rewrite invoke_exact by done.
    assert (Hi : is_str (get "event" env) topic = true)
      by (cbn; apply String.eqb_refl).
    rewrite Hi. unfold call. destruct (throws h env); cbn [fst snd app].
    + cbn. by rewrite Nat.eqb_refl.
    + by rewrite handled_cons_same, handled_to_adapters.
  - destruct (String.eqb ev "error"); cbn [fst snd app]; [done|].
    by rewrite handled_to_adapters.
Qed.

End EventServerMore.

Section EventServerPatterns.
Import Js EventServer.

Variable throws : handler -> value -> bool.
Variable p : process.

Implicit Types (st : state) (env : value) (a : adapter) (h : handler)
               (pfx ev : string).

Lemma append_star_nonempty pfx : pfx +:+ "*" <> "".
Proof. by destruct pfx. Qed.

Lemma endsWithStar_append_star pfx : endsWithStar (pfx +:+ "*") = true.
Proof.
  induction pfx as [|c r IH]; [done|].
  change (String c r +:+ "*") with (String c (r +:+ "*")).
  cbn [endsWithStar]. destruct (r +:+ "*") eqn:E; [|done].
  by destruct (append_star_nonempty r).
Qed.

Lemma dropLast_append_star pfx : dropLast (pfx +:+ "*") = pfx.
Proof.
  induction pfx as [|c r IH]; [done|].
  change (String c r +:+ "*") with (String c (r +:+ "*")).
  cbn [dropLast]. destruct (r +:+ "*") eqn:E.
  - by destruct (append_star_nonempty r).
  - by rewrite IH.
Qed.

Lemma append_star_inj pfx1 pfx2 : pfx1 +:+ "*" = pfx2 +:+ "*" -> pfx1 = pfx2.
Proof.
  revert pfx2. induction pfx1 as [|c r IH]; intros [|c' r'] E; cbn in E.
  - done.
  - injection E as _ E. symmetry in E. by destruct (append_star_nonempty r').
  - injection E as _ E. by destruct (append_star_nonempty r).
  - injection E as -> E. by rewrite (IH _ E).
Qed.

Lemma startsWith_append pfx s : startsWith pfx (pfx +:+ s) = true.
Proof.
  unfold startsWith. induction pfx as [|c r IH].
  - by destruct s.
  - change (String c r +:+ s) with (String c (r +:+ s)). cbn [String.prefix].
    destruct (ascii_dec c c); [exact IH|congruence].
Qed.

(** What the closure of a prefix subscription does with an envelope whose
    [event] is the string [ev]. *)
Lemma invoke_prefix pfx h env ev :
  pfx <> "" -> pfx <> "zapi:" ->
  get "event" env = VStr ev ->
  invoke throws (Wrapped (pfx +:+ "*") h) env =
  if startsWith pfx ev then call throws h env else ([], Normal).
Proof.
  intros Hne Hz Hev. cbn [invoke]. rewrite Hev.
  assert (H1 : String.eqb (pfx +:+ "*") "*" = false).
  { apply String.eqb_neq. intros E. by apply (append_star_inj pfx "") in E. }
  assert (H2 : String.eqb (pfx +:+ "*") "zapi:*" = false).
  { apply String.eqb_neq. intros E. by apply (append_star_inj pfx "zapi:") in E. }
  rewrite H1, H2, endsWithStar_append_star, dropLast_append_star.
  cbn [orb andb is_str].
  assert (Hs : to_String (or_else (VStr ev) (VStr "")) = ev).
  { unfold or_else. cbn [truthy]. by destruct (String.eqb_spec ev "") as [->|]. }
  rewrite Hs.
  destruct (String.eqb_spec ev (pfx +:+ "*")) as [->|_]; [|done].
  by rewrite startsWith_append.
Qed.

(** X3.  A subscription to [pfx*] (with [pfx] neither empty nor "zapi:"),
    alone on a started server, with a handler that does not throw:
    [publish(ev)] for an event other than "error" calls the handler when
    and only when [ev] starts with [pfx]; it calls it once, except for an
    event named like the pattern itself or named "*", which reach the
    closure on two channels. *)
Theorem prefix_subscriber_called_for_matching_events now ev pl pfx h ads :
  pfx <> "" -> pfx <> "zapi:" -> ev <> "error" ->
  (forall env, throws h env = false) ->
  let st := subscribe (pfx +:+ "*") h
              {| local := []; adapters := ads; started := true; buffer := [] |} in
  let env := envelope p now (VObj [("status", VStr "Ok"); ("meta", VObj [])]) ev
               (match pl with VUndef => VObj [] | _ => pl end) in
  handled h (snd (fst (publish throws p now None ev pl st)))
  = if startsWith pfx ev
    then (if String.eqb ev "*" || String.eqb ev (pfx +:+ "*")
          then [env; env] else [env])
    else [].
Proof.
  intros Hne Hz Herr Hq st env. subst st. unfold publish.
  cbn [started subscribe negb]. fold env. unfold deliver.
  assert (H1 : String.eqb (pfx +:+ "*") "*" = false).
  { apply String.eqb_neq. intros E. by apply (append_star_inj pfx "") in E. }
  assert (Hl : local (subscribe (pfx +:+ "*") h
                 {| local := []; adapters := ads; started := true; buffer := [] |})
               = [("*", Wrapped (pfx +:+ "*") h);
                  (pfx +:+ "*", Wrapped (pfx +:+ "*") h)]).
  { unfold subscribe. cbn [local Emitter.on app].
    by rewrite H1, endsWithStar_append_star. }
  rewrite Hl. unfold Emitter.emit. rewrite !listeners_cons, !listeners_nil.
  rewrite H1, (String.eqb_refl "*").
  rewrite (String.eqb_sym "*" ev), (String.eqb_sym (pfx +:+ "*") ev).
  apply String.eqb_neq in Herr. rewrite Herr.
  assert (Hi : invoke throws (Wrapped (pfx +:+ "*") h) env =
               if startsWith pfx ev then call throws h env else ([], Normal))
    by (by apply invoke_prefix).
  unfold call in Hi. rewrite Hq in Hi.
  destruct (String.eqb ev "*") eqn:E1; destruct (String.eqb ev (pfx +:+ "*")) eqn:E2.
  - apply String.eqb_eq in E1, E2. subst ev.
    symmetry in E2. by apply String.eqb_neq in H1.
  - cbn [Emitter.call_all orb]. rewrite !Hi.
    destruct (startsWith pfx ev); cbn [fst snd app];
      by rewrite ?handled_cons_same, ?handled_to_adapters.
  - cbn [Emitter.call_all orb]. rewrite !Hi.
    destruct (startsWith pfx ev); cbn [fst snd app];
      by rewrite ?handled_cons_same, ?handled_to_adapters.
  - cbn [Emitter.call_all orb]. rewrite !Hi.
    destruct (startsWith pfx ev); cbn [fst snd app];
      by rewrite ?handled_cons_same, ?handled_to_adapters.
Qed.

Lemma deliver_no_listeners st ev env :
  local st = [] ->
  deliver throws st ev env =
  if String.eqb ev "error" then ([], Throw)
  else (to_adapters (adapters st) env, Normal).
Proof.
  intros Hl. unfold deliver, Emitter.emit. rewrite Hl, !listeners_nil.
  by destruct (String.eqb ev "error").
Qed.

Lemma drain_no_listeners st buf h :
  local st = [] -> handled h (drain throws st buf) = [].
Proof.
  intros Hl. induction buf as [|env buf IH]; [done|]. cbn [drain].
  rewrite deliver_no_listeners by done.
  destruct (String.eqb (event_of env) "error"); [done|].
  by rewrite handled_app, handled_to_adapters, IH.
Qed.

(** X4.  [stop()] removes every listener and keeps the adapters and the
    buffer: calls made after it are buffered, and the [start()] that
    follows calls no handler at all, whatever was subscribed before
    [stop()]; when no buffered envelope is named "error", every adapter
    still receives all of them in order. *)
Theorem stop_forgets_subscribers cs st :
  snd (publish_all throws p cs (stop st)) = []
  /\ (forall h,
        handled h (snd (start throws (fst (publish_all throws p cs (stop st))))) = [])
  /\ (NoDup (adapters st) ->
      Forall (fun env => event_of env <> "error") (buffer st ++ envelopes p cs) ->
      forall a, a ∈ adapters st ->
        received a (snd (start throws (fst (publish_all throws p cs (stop st)))))
        = buffer st ++ envelopes p cs).
Proof.
  rewrite publish_all_stopped by done. cbn [fst snd stop local adapters buffer start].
  split; [done|]. split.
  - intros h. by apply drain_no_listeners.
  - intros Hnd Hev a Hin.
    set (st2 := {| local := []; adapters := adapters st;
                   started := true; buffer := [] |}).
    assert (Hok : Forall (fun env =>
              snd (deliver throws st2 (event_of env) env) = Normal)
              (buffer st ++ envelopes p cs)).
    { eapply Forall_impl; [exact Hev|]. intros env H. cbn beta.
      rewrite deliver_no_listeners by done.
      apply String.eqb_neq in H. by rewrite H. }
    rewrite drain_no_throw by done.
    by apply received_concat_deliver.
Qed.

End EventServerPatterns.

(** ** EventServer: the identity in an envelope *)

Section EnvelopeIdentity.
Import Js EventServer.

Lemma assoc_obj_set_eq k v fs : assoc k (obj_set k v fs) = v.
Proof.
  induction fs as [|[k' v'] fs IH]; cbn.
  - by rewrite String.eqb_refl.
  - destruct (String.eqb_spec k' k) as [->|Hne]; cbn.
    + by rewrite String.eqb_refl.
    + by rewrite (proj2 (String.eqb_neq _ _) Hne).
Qed.

Lemma assoc_obj_set_ne k k' v fs : k <> k' -> assoc k (obj_set k' v fs) = assoc k fs.
Proof.
  intros Hne. induction fs as [|[k'' v''] fs IH]; cbn.
  - by rewrite (proj2 (String.eqb_neq k' k)).
  - destruct (String.eqb_spec k'' k') as [->|Hne']; cbn.
    + by rewrite (proj2 (String.eqb_neq k' k)).
    + by rewrite IH.
Qed.

Lemma or_else_obj fs v : or_else (VObj fs) v = VObj fs.
Proof. reflexivity. Qed.

(** X5.  The pid, worker index, role and origin stamped on an envelope
    by [publish] are those of the publishing process, whatever the
    health state carries: a "pid", "workerIndex" or "role" in the [meta]
    of the health state is overwritten, and every other key of that
    [meta] is passed on as it is. *)
Theorem envelope_identity_is_the_publishers (p : process) now hstate ev pl :
  let env := envelope p now hstate ev pl in
  let meta := get "meta" (get "state" (get "eventHeader" env)) in
  get "pid" meta = VNum (pid p)
  /\ get "workerIndex" meta = VNum (worker_index p)
  /\ get "role" meta = VStr (if is_primary p then "primary" else "worker")
  /\ get "origin" (get "eventHeader" env)
     = VStr (match server_name p with
             | Some s => if String.eqb s "" then "zapiAppServer" else s
             | None => "zapiAppServer"
             end)
  /\ (forall k, k <> "pid" -> k <> "workerIndex" -> k <> "role" ->
        get k meta = assoc k (spread (or_else (get "meta" hstate) (VObj [])))).
Proof.
  intros env meta. subst meta env. unfold envelope.
  cbn [get assoc String.eqb Ascii.eqb Bool.eqb].
  split; [|split; [|split; [|split]]].
  - rewrite (assoc_obj_set_ne "pid" "role") by discriminate.
    rewrite (assoc_obj_set_ne "pid" "workerIndex") by discriminate.
    apply assoc_obj_set_eq.
  - rewrite (assoc_obj_set_ne "workerIndex" "role") by discriminate.
    apply assoc_obj_set_eq.
  - apply assoc_obj_set_eq.
  - reflexivity.
  - intros k H1 H2 H3. by rewrite !assoc_obj_set_ne by done.
Qed.

End EnvelopeIdentity.

(** ** OutageDeduper: records and keys *)

Section OutageDeduperMore.
Import Js OutageDeduper.

Implicit Types (states : gmap string entry) (k key : string).

Lemma down_while_down k m now states :
  isDown k states = true ->
  down k m now states = (states, Some {| emitted := false; meta := None |}).
Proof.
  intros Hd. unfold down. rewrite isDown_current in Hd. by rewrite Hd.
Qed.

(** X6.  The first [down(key, meta)] of an outage records its time and
    [meta.reason]; every further [down(key, _)] before an [up(key)]
    reports nothing and leaves the whole map as it is, so the record keeps
    the time and the reason of the first call. *)
Theorem outage_keeps_first_reason k m1 t1 (rest : list (value * Z)) states :
  isDown k states = false ->
  m1 <> VNull ->
  let st1 := fst (down k m1 t1 states) in
  let reason := or_else (get "reason" (match m1 with VUndef => VObj [] | _ => m1 end))
                        VNull in
  (exists s, st1 !! k = Some s /\ down_flag s = true
             /\ lastAt s = Some t1 /\ lastReason s = Some reason)
  /\ foldl (fun s mt => fst (down k (fst mt) (snd mt) s)) st1 rest = st1
  /\ Forall (fun mt => snd (down k (fst mt) (snd mt) st1)
                       = Some {| emitted := false; meta := None |}) rest.
Proof.
  intros Hd Hm st1 reason.
  assert (H1 : exists s, st1 !! k = Some s /\ down_flag s = true
                         /\ lastAt s = Some t1 /\ lastReason s = Some reason).
  { subst st1 reason. unfold down. rewrite isDown_current in Hd. rewrite Hd.
    destruct m1; try done; cbn [fst]; rewrite lookup_insert_eq; eauto. }
  assert (Hd1 : isDown k st1 = true).
  { destruct H1 as (s & Hs & Hf & _). unfold isDown. by rewrite Hs. }
  split; [exact H1|]. split.
  - induction rest as [|[m t] rest IH]; [done|]. cbn [foldl fst snd].
    by rewrite down_while_down.
  - apply Forall_forall. intros [m t] _. cbn [fst snd].
    by rewrite down_while_down.
Qed.

Lemma step_other_key o states key :
  op_key o <> key -> fst (step o states) !! key = states !! key.
Proof.
  destruct o as [k now|k now]; cbn [op_key step]; intros Hne.
  - unfold down. destruct (down_flag (current k states)); [done|]. cbn.
    by rewrite lookup_insert_ne.
  - unfold up. cbn. by rewrite lookup_insert_ne.
Qed.

(** X7.  Calls on other keys never touch the record of a key. *)
Theorem outage_keys_are_independent ops states key :
  Forall (fun o => op_key o <> key) ops ->
  fst (run ops states) !! key = states !! key.
Proof.
  intros H. revert states. induction H as [|o ops Ho _ IH]; intros states; [done|].
  rewrite run_cons. cbn [fst]. by rewrite IH, step_other_key.
Qed.

End OutageDeduperMore.

(** ** RedisEventService: reconnection delay and outage announcements *)

Section RedisEventServiceMore.
Import Js RedisEventService.

(** X8.  The reconnection delay grows by ten seconds per attempt and
    never exceeds one minute, which it reaches at the sixth attempt. *)
Theorem retry_delay_is_capped times :
  0 <= times ->
  0 <= retryMs times <= 60000
  /\ (times <= 6 -> retryMs times = times * 10000)
  /\ (6 <= times -> retryMs times = 60000)
  /\ (forall times', times <= times' -> retryMs times <= retryMs times').
Proof. unfold retryMs. intros H. repeat split; intros; lia. Qed.

Lemma on_error_flag wi es key err now states :
  OutageDeduper.isDown key (fst (on_error wi es key err now states)) = true.
Proof.
  unfold on_error, OutageDeduper.down.
  destruct (OutageDeduper.down_flag (OutageDeduper.current key states)) eqn:Hd; cbn.
  - by rewrite isDown_current.
  - unfold OutageDeduper.isDown. by rewrite lookup_insert_eq.
Qed.

Lemma on_ready_flag wi es key now states :
  OutageDeduper.isDown key (fst (on_ready wi es key now states)) = false.
Proof.
  unfold on_ready, OutageDeduper.up. cbn.
  unfold OutageDeduper.isDown. by rewrite lookup_insert_eq.
Qed.

Lemma on_error_names wi es key err now states :
  map fst (snd (on_error wi es key err now states)) =
  if negb (OutageDeduper.isDown key states) && is_leader wi && es
  then ["zapi:infra:redis:down"] else [].
Proof.
  unfold on_error, OutageDeduper.down. rewrite isDown_current.
  destruct (OutageDeduper.down_flag (OutageDeduper.current key states)); cbn;
    by destruct (is_leader wi), es.
Qed.

Lemma on_ready_names wi es key now states :
  map fst (snd (on_ready wi es key now states)) =
  if OutageDeduper.isDown key states && is_leader wi && es
  then ["zapi:infra:redis:up"] else [].
Proof.
  unfold on_ready, OutageDeduper.up. rewrite isDown_current. cbn.
  by destruct (OutageDeduper.down_flag (OutageDeduper.current key states)),
              (is_leader wi), es.
Qed.

Lemma client_run_cons wi es key e evs states :
  client_run wi es key (e :: evs) states =
  let r1 := match e with
            | Error err now => on_error wi es key err now states
            | Ready now => on_ready wi es key now states
            end in
  (fst (client_run wi es key evs (fst r1)),
   snd r1 ++ snd (client_run wi es key evs (fst r1))).
Proof.
  cbn [client_run]. destruct e; cbn zeta;
    match goal with |- context [client_run _ _ _ evs (fst ?r)] =>
      destruct r as [s1 o1]; cbn [fst snd];
      by destruct (client_run wi es key evs s1) end.
Qed.

(** Off the leader, or without an EventServer, nothing is announced. *)
Lemma client_run_silent wi es key evs states :
  is_leader wi && es = false ->
  snd (client_run wi es key evs states) = [].
Proof.
  intros Hc. revert states. induction evs as [|e evs IH]; intros states; [done|].
  rewrite client_run_cons. cbn zeta. cbn [snd]. rewrite IH, app_nil_r.
  assert (Hn : forall l : list (string * value), map fst l = [] -> l = [])
    by (by intros [|? ?]).
  apply Hn. destruct e as [err now|now].
  - rewrite on_error_names, <- andb_assoc, Hc. by rewrite andb_false_r.
  - rewrite on_ready_names, <- andb_assoc, Hc. by rewrite andb_false_r.
Qed.

(** The announcements of a run alternate, beginning with the one the
    state of the key calls for. *)
Lemma client_run_alternates wi es key evs states i name :
  map fst (snd (client_run wi es key evs states)) !! i = Some name ->
  name = if xorb (OutageDeduper.isDown key states) (Nat.even i)
         then "zapi:infra:redis:down" else "zapi:infra:redis:up".
Proof.
  revert states i. induction evs as [|e evs IH]; intros states i; [done|].
  rewrite client_run_cons. cbn zeta. cbn [snd fst]. rewrite map_app.
  destruct e as [err now|now].
  - rewrite on_error_names.
    destruct (negb (OutageDeduper.isDown key states) && is_leader wi && es) eqn:Hc.
    + apply andb_true_iff in Hc as [Hc _]. apply andb_true_iff in Hc as [Hc _].
      apply negb_true_iff in Hc. rewrite Hc.
      destruct i as [|i]; cbn [app lookup list_lookup].
      * intros [= <-]. done.
      * intros H. apply IH in H. rewrite on_error_flag in H.
        rewrite Nat.even_succ, <- Nat.negb_even. rewrite H.
        by destruct (Nat.even i).
    + cbn [app]. destruct (OutageDeduper.isDown key states) eqn:Hd.
      * intros H. apply IH in H. by rewrite on_error_flag in H.
      * cbn [negb andb] in Hc. by rewrite client_run_silent.
  - rewrite on_ready_names.
    destruct (OutageDeduper.isDown key states && is_leader wi && es) eqn:Hc.
    + apply andb_true_iff in Hc as [Hc _]. apply andb_true_iff in Hc as [Hc _].
      rewrite Hc.
      destruct i as [|i]; cbn [app lookup list_lookup].
      * intros [= <-]. done.
      * intros H. apply IH in H. rewrite on_ready_flag in H.
        rewrite Nat.even_succ, <- Nat.negb_even. rewrite H.
        by destruct (Nat.even i).
    + cbn [app]. destruct (OutageDeduper.isDown key states) eqn:Hd.
      * cbn [andb] in Hc. by rewrite client_run_silent.
      * intros H. apply IH in H. by rewrite on_ready_flag in H.
Qed.

Lemma on_error_out wi es key err now states :
  snd (on_error wi es key err now states) =
  if negb (OutageDeduper.isDown key states) && is_leader wi && es
  then [("zapi:infra:redis:down",
         VObj [("reason", reason_of err); ("ts", VNum now)])]
  else [].
Proof.
  unfold on_error, OutageDeduper.down. rewrite isDown_current.
  destruct (OutageDeduper.down_flag (OutageDeduper.current key states)); cbn;
    by destruct (is_leader wi), es.
Qed.

Lemma on_ready_out wi es key now states :
  snd (on_ready wi es key now states) =
  if OutageDeduper.isDown key states && is_leader wi && es
  then [("zapi:infra:redis:up", VObj [("ts", VNum now)])]
  else [].
Proof.
  unfold on_ready, OutageDeduper.up. rewrite isDown_current. cbn.
  by destruct (OutageDeduper.down_flag (OutageDeduper.current key states)),
              (is_leader wi), es.
Qed.

(** On the leader, with an EventServer, what is published is the list of
    the changes of state. *)
Lemma client_run_changes wi es key evs states :
  is_leader wi && es = true ->
  snd (client_run wi es key evs states)
  = state_changes (OutageDeduper.isDown key states) evs.
Proof.
  intros Hc. apply andb_true_iff in Hc as [Hl He].
  revert states. induction evs as [|e evs IH]; intros states; [done|].
  rewrite client_run_cons. cbn zeta. cbn [snd fst].
  destruct e as [err now|now]; cbn [state_changes].
  - rewrite on_error_out, IH, on_error_flag, Hl, He.
    by destruct (OutageDeduper.isDown key states).
  - rewrite on_ready_out, IH, on_ready_flag, Hl, He.
    by destruct (OutageDeduper.isDown key states).
Qed.

(** A client that is already down changes state at its first "ready"
    only; one that is up, at its first error only. *)
Lemma state_changes_errors_down errs r :
  state_changes true (map (fun e => Error (fst e) (snd e)) errs ++ r)
  = state_changes true r.
Proof. induction errs as [|[err now] errs IH]; [done|]. exact IH. Qed.

Lemma state_changes_readys_up nows r :
  state_changes false (map Ready nows ++ r) = state_changes false r.
Proof. induction nows as [|now nows IH]; [done|]. exact IH. Qed.

(** X9.  The listeners of [attachQuiet] on one client, fed any sequence
    of "error" and "ready" events while the key starts not marked down.
    On the leader with an EventServer the events published are exactly
    the changes of state of the client, one event per change with the
    reason and time of the event that made it: a burst of errors, as a
    retry loop raises them, publishes one "zapi:infra:redis:down" with
    the first error, a burst of "ready" one "zapi:infra:redis:up".  So
    the events are "down", "up", "down", ... in turn.  A process that is
    not the leader, or has no EventServer, publishes none. *)
Theorem outage_announced_once_per_change wi es key evs states :
  OutageDeduper.isDown key states = false ->
  (is_leader wi && es = true ->
   snd (client_run wi es key evs states) = state_changes false evs)
  /\ (forall err t1 errs t2 nows r,
        state_changes false
          (Error err t1 :: map (fun e => Error (fst e) (snd e)) errs
           ++ Ready t2 :: map Ready nows ++ r)
        = ("zapi:infra:redis:down",
           VObj [("reason", reason_of err); ("ts", VNum t1)])
          :: ("zapi:infra:redis:up", VObj [("ts", VNum t2)])
          :: state_changes false r)
  /\ (forall i name,
        map fst (snd (client_run wi es key evs states)) !! i = Some name ->
        name = if Nat.even i then "zapi:infra:redis:down" else "zapi:infra:redis:up")
  /\ (is_leader wi && es = false -> snd (client_run wi es key evs states) = []).
Proof.
  intros Hd. split; [|split; [|split]].
  - intros Hc. by rewrite client_run_changes, Hd.
  - intros err t1 errs t2 nows r. cbn [state_changes].
    rewrite state_changes_errors_down. cbn [state_changes].
    by rewrite state_changes_readys_up.
  - intros i name H. apply client_run_alternates in H. by rewrite Hd in H.
  - apply client_run_silent.
Qed.

End RedisEventServiceMore.

(** ** MessageBus: channels, subscriptions, attachment *)

Section MessageBusMore.
Import Js MessageBus.

Variable throws : handler -> value -> bool.

Implicit Types (st : state) (t pfx : string) (h : handler).

Lemma sliceFrom_length_append p t : sliceFrom (String.length p) (p +:+ t) = t.
Proof. induction p as [|c p IH]; [by destruct t|]. exact IH. Qed.

Lemma append_colon_nonempty pfx t : pfx +:+ ":" +:+ t <> "".
Proof. by destruct pfx. Qed.

Lemma append_colon_empty pfx : pfx +:+ ":" +:+ "" = pfx +:+ ":".
Proof.
  induction pfx as [|c pfx IH]; [done|].
  change (String c (pfx +:+ ":" +:+ "") = String c (pfx +:+ ":")).
  by rewrite IH.
Qed.

(** The channel [publish] names for a topic decodes to that topic. *)
Lemma topicFromChannel_roundtrip pfx t :
  topicFromChannel pfx (pfx +:+ ":" +:+ t) = Some t.
Proof.
  assert (E : pfx +:+ ":" +:+ t = (pfx +:+ ":") +:+ t).
  { induction pfx as [|c pfx IH]; [done|].
    change (String c (pfx +:+ ":" +:+ t) = String c ((pfx +:+ ":") +:+ t)).
    by rewrite IH. }
  unfold topicFromChannel.
  rewrite (proj2 (String.eqb_neq _ _) (append_colon_nonempty pfx t)).
  cbn zeta. rewrite E, startsWith_append. by rewrite sliceFrom_length_append.
Qed.

Lemma remotes_call_all fs v :
  remotes (fst (Emitter.call_all (invoke throws) fs v)) = [].
Proof.
  induction fs as [|f fs IH]; [done|]. cbn [Emitter.call_all]. unfold invoke at 1.
  destruct (throws f v); [done|].
  destruct (Emitter.call_all (invoke throws) fs v) as [o c]. cbn [fst] in *.
  unfold remotes in *. cbn. exact IH.
Qed.

Lemma remotes_emit ls t v :
  remotes (fst (Emitter.emit (invoke throws) ls t v)) = [].
Proof.
  unfold Emitter.emit. destruct (Emitter.listeners ls t); [done|].
  apply remotes_call_all.
Qed.

Lemma locals_app o1 o2 : locals (o1 ++ o2) = locals o1 ++ locals o2.
Proof. apply omap_app. Qed.

Lemma remotes_app o1 o2 : remotes (o1 ++ o2) = remotes o1 ++ remotes o2.
Proof. apply omap_app. Qed.

(** The two halves of what [publish] does for a topic that is not blank. *)
Lemma publish_parts topic payload st :
  normalize topic <> "" ->
  locals (publish throws topic payload st)
  = locals (fst (Emitter.emit (invoke throws) (emitter st) (normalize topic) payload))
  /\ remotes (publish throws topic payload st)
     = match pub st with
       | Some c =>
           if redisAttached st && has_publish c && negb (String.eqb (status c) "end")
           then [(prefix st +:+ ":" +:+ normalize topic, payload)] else []
       | None => []
       end.
Proof.
  intros Hn. unfold publish. rewrite (proj2 (String.eqb_neq _ _) Hn).
  rewrite locals_app, remotes_app, remotes_emit. split.
  - destruct (pub st) as [c|]; [|by rewrite app_nil_r].
    destruct (redisAttached st && has_publish c && negb (String.eqb (status c) "end"));
      cbn; by rewrite app_nil_r.
  - destruct (pub st) as [c|]; [|done].
    by destruct (redisAttached st && has_publish c
                 && negb (String.eqb (status c) "end")).
Qed.

(** X10.  A message that arrives on the channel [publish] names for a
    topic reaches the local subscribers of that topic exactly as a local
    [publish] does, and causes no remote publication; in particular the
    bus has no filter for its own publications.  A message on a channel
    outside the prefix, or for the empty topic, reaches nobody. *)
Theorem remote_message_is_delivered_like_a_local_publish
        topic payload message channel st :
  normalize topic <> "" ->
  topicFromChannel (prefix st) (prefix st +:+ ":" +:+ normalize topic)
    = Some (normalize topic)
  /\ locals (onRedisPMessage throws (prefix st +:+ ":" +:+ normalize topic)
               message (Some payload) st)
     = locals (publish throws topic payload st)
  /\ remotes (onRedisPMessage throws (prefix st +:+ ":" +:+ normalize topic)
                message (Some payload) st) = []
  /\ (startsWith (prefix st +:+ ":") channel = false ->
      onRedisPMessage throws channel message (Some payload) st = [])
  /\ onRedisPMessage throws (prefix st +:+ ":") message (Some payload) st = [].
Proof.
  intros Hn. split; [apply topicFromChannel_roundtrip|].
  unfold onRedisPMessage. rewrite topicFromChannel_roundtrip.
  rewrite (proj2 (String.eqb_neq _ _) Hn). cbn [safeParse].
  split; [by rewrite (proj1 (publish_parts topic payload st Hn))|].
  split; [apply remotes_emit|]. split.
  - intros Hc. unfold topicFromChannel. rewrite Hc. by destruct (String.eqb channel "").
  - pose proof (topicFromChannel_roundtrip (prefix st) "") as E.
    rewrite append_colon_empty in E. by rewrite E.
Qed.

Lemma off_on (ch : string) (h : handler) (ls : list (string * handler)) :
  Emitter.off ch h (Emitter.on ch h ls) = ls.
Proof.
  unfold Emitter.off, Emitter.on. rewrite rev_app_distr. cbn [rev app Emitter.off_first].
  rewrite String.eqb_refl, bool_decide_eq_true_2 by done. cbn [andb].
  apply rev_involutive.
Qed.

Lemma apply_counts_positive ops (parg : value) t :
  topicCounts (foldl apply (create parg) ops) !! t <> Some 0%nat.
Proof.
  assert (H : forall st, (forall t', topicCounts st !! t' <> Some 0%nat) ->
                         forall t', topicCounts (foldl apply st ops) !! t' <> Some 0%nat).
  { induction ops as [|o ops IH]; intros st Hst; [done|]. cbn [foldl].
    apply IH. intros t'. destruct o as [topic h|topic h]; cbn [apply].
    - unfold subscribe. destruct (String.eqb (normalize topic) ""); [apply Hst|].
      cbn [topicCounts]. destruct (decide (normalize topic = t')) as [->|Hne].
      + by rewrite lookup_insert_eq.
      + rewrite lookup_insert_ne by done. apply Hst.
    - unfold unsubscribe. destruct (String.eqb (normalize topic) ""); [apply Hst|].
      cbn [topicCounts].
      destruct (topicCounts st !! normalize topic) as [[|[|c]]|]; cbn [Nat.pred];
        destruct (decide (normalize topic = t')) as [->|Hne];
        rewrite ?lookup_delete_eq, ?lookup_insert_eq,
                ?lookup_delete_ne, ?lookup_insert_ne by done;
        try done; apply Hst. }
  apply H. intros t'. cbn. by rewrite lookup_empty.
Qed.

Lemma unsubscribe_subscribe topic h st :
  topicCounts st !! normalize topic <> Some 0%nat ->
  unsubscribe topic h (subscribe topic h st) = st.
Proof.
  intros Hpos. unfold unsubscribe, subscribe.
  destruct (String.eqb (normalize topic) "") eqn:E; rewrite ?E; [done|].
  cbn [topicCounts emitter prefix pub sub redisAttached].
  rewrite lookup_insert_eq, off_on. cbn [Nat.pred].
  destruct (topicCounts st !! normalize topic) as [[|c]|] eqn:Hc; [done| |];
    cbn [default from_option id].
  - rewrite insert_insert_eq, insert_id by done. by destruct st.
  - rewrite delete_insert_eq, delete_id by done. by destruct st.
Qed.

(** X11.  On a bus reached from its creation by any calls of [subscribe]
    and of the functions it returned, subscribing a handler and calling
    the function returned gives back the bus as it was: same listeners in
    the same order, same counts. *)
Theorem subscribe_then_unsubscribe_restores ops (parg : value) topic h :
  unsubscribe topic h (subscribe topic h (foldl apply (create parg) ops))
  = foldl apply (create parg) ops.
Proof. apply unsubscribe_subscribe, apply_counts_positive. Qed.

Lemma remotes_after_detach topic payload st :
  remotes (publish throws topic payload (detachRedis st)) = [].
Proof.
  destruct (String.eqb_spec (normalize topic) "") as [Hb|Hn].
  { unfold publish. by rewrite Hb. }
  rewrite (proj2 (publish_parts topic payload (detachRedis st) Hn)).
  unfold detachRedis. destruct (redisAttached st) eqn:E; cbn; [done|].
  rewrite E. by destruct (pub st).
Qed.

(** X12.  Attaching and detaching the remote clients never changes what
    local subscribers get; after [_detachRedis()] nothing is published
    remotely, and after [close()] nothing is delivered at all. *)
Theorem local_delivery_ignores_attachment made topic payload st :
  locals (publish throws topic payload (attachRedisIfPossible made st))
    = locals (publish throws topic payload st)
  /\ locals (publish throws topic payload (detachRedis st))
    = locals (publish throws topic payload st)
  /\ remotes (publish throws topic payload (detachRedis st)) = []
  /\ publish throws topic payload (close st) = [].
Proof.
  destruct (String.eqb_spec (normalize topic) "") as [Hb|Hn].
  { unfold publish. rewrite Hb. cbn. repeat split; done. }
  rewrite !(proj1 (publish_parts topic payload _ Hn)).
  rewrite (proj2 (publish_parts topic payload (detachRedis st) Hn)).
  assert (Ha : emitter (attachRedisIfPossible made st) = emitter st).
  { unfold attachRedisIfPossible.
    destruct (redisAttached st); [done|]. by destruct made as [[? ?]|]. }
  assert (Hd : emitter (detachRedis st) = emitter st).
  { unfold detachRedis. by destruct (redisAttached st). }
  assert (Hp : pub (detachRedis st) = None \/ redisAttached (detachRedis st) = false).
  { unfold detachRedis. destruct (redisAttached st) eqn:E; cbn; auto. }
  rewrite Ha, Hd. repeat split.
  - destruct Hp as [->| ->]; [done|]. by destruct (pub (detachRedis st)).
  - unfold publish. rewrite (proj2 (String.eqb_neq _ _) Hn).
    cbn [emitter close]. unfold Emitter.emit. cbn [Emitter.listeners List.filter map fst].
    unfold close, detachRedis. cbn [app].
    destruct (redisAttached st) eqn:E; cbn [negb pub redisAttached]; [done|].
    rewrite E. by destruct (pub st).
Qed.

End MessageBusMore.

(** ** InfraStatus, and the MessageBus listening to it *)

Section InfraStatusFacts.
Import Js InfraStatus.

Implicit Types (flags : gmap string bool) (name : string).

Lemma set_flag name val meta now flags :
  flag name (fst (set name val meta now flags)) = truthy val.
Proof. unfold set, flag. cbn. by rewrite lookup_insert_eq. Qed.

Lemma set_all_cons name v now r flags :
  set_all name ((v, now) :: r) flags =
  (fst (set_all name r (fst (set name v VUndef now flags))),
   (if Bool.eqb (flag name flags) (truthy v) then []
    else [name +:+ ":" +:+ (if truthy v then "up" else "down")])
     ++ snd (set_all name r (fst (set name v VUndef now flags)))).
Proof.
  cbn [set_all]. unfold set at 1. cbn [fst].
  destruct (set_all name r (fst (set name v VUndef now flags))) as [f2 es] eqn:E.
  unfold set in E. cbn [fst] in E. rewrite E. cbn [fst snd].
  by destruct (Bool.eqb (flag name flags) (truthy v)).
Qed.

Lemma set_all_alternates name vals flags i ev :
  snd (set_all name vals flags) !! i = Some ev ->
  ev = name +:+ ":" +:+ (if xorb (flag name flags) (Nat.even i) then "up" else "down").
Proof.
  revert flags i. induction vals as [|[v now] r IH]; intros flags i; [done|].
  rewrite set_all_cons. cbn [snd].
  destruct (Bool.eqb (flag name flags) (truthy v)) eqn:E; cbn [app].
  - apply Bool.eqb_prop in E. intros H. apply IH in H.
    by rewrite set_flag, <- E in H.
  - apply Bool.eqb_false_iff in E. destruct i as [|i]; cbn [lookup list_lookup].
    + intros [= <-]. by destruct (flag name flags), (truthy v).
    + intros H. apply IH in H. rewrite set_flag in H. rewrite H.
      rewrite Nat.even_succ, <- Nat.negb_even.
      by destruct (flag name flags), (truthy v), (Nat.even i).
Qed.

Lemma set_all_final name vals flags :
  flag name (fst (set_all name vals flags)) =
  match last vals with
  | Some (v, _) => truthy v
  | None => flag name flags
  end.
Proof.
  revert flags. induction vals as [|[v now] r IH]; intros flags; [done|].
  rewrite set_all_cons. cbn [fst]. rewrite IH, set_flag, last_cons.
  by destruct (last r) as [[v' now']|].
Qed.

(** X13.  Writes to an existing flag emit an event only when the value
    changes: over any run of [set(name, v)] the events are, in turn,
    "name:up", "name:down", "name:up", ... beginning with the one that
    leaves the present value, and the flag ends as the last value
    written. *)
Theorem flag_events_alternate name vals flags :
  is_Some (flags !! name) ->
  (forall i ev,
      snd (set_all name vals flags) !! i = Some ev ->
      ev = name +:+ ":" +:+
           (if xorb (flag name flags) (Nat.even i) then "up" else "down"))
  /\ flag name (fst (set_all name vals flags)) =
     match last vals with
     | Some (v, _) => truthy v
     | None => flag name flags
     end
  /\ is_Some (fst (set_all name vals flags) !! name).
Proof.
  intros Hs. split; [apply set_all_alternates|]. split; [apply set_all_final|].
  revert flags Hs. induction vals as [|[v now] r IH]; intros flags Hs; [done|].
  rewrite set_all_cons. cbn [fst]. apply IH. unfold set. cbn [fst].
  rewrite lookup_insert_eq. eauto.
Qed.

(** X14.  The bus follows the "redisUp" flag: when a write changes the
    flag, the listeners of the bus leave it attached exactly when the
    flag went up and clients could be had (or were there already); after
    the flag went down nothing is published remotely. *)
Theorem bus_follows_redis_flag throws val meta now flags flags' ev pl made bus :
  set "redisUp" val meta now flags = (flags', Some (ev, pl)) ->
  isRedisUp flags' = truthy val
  /\ MessageBus.redisAttached (MessageBus.onInfra made ev bus)
     = truthy val && (MessageBus.redisAttached bus || bool_decide (is_Some made))
  /\ (truthy val = false ->
      forall topic payload,
        MessageBus.remotes
          (MessageBus.publish throws topic payload (MessageBus.onInfra made ev bus))
        = []).
Proof.
  intros H. unfold set in H.
  destruct (Bool.eqb (flag "redisUp" flags) (truthy val)); [done|].
  injection H as <- <- _.
  split; [unfold isRedisUp, flag; by rewrite lookup_insert_eq|].
  unfold MessageBus.onInfra. destruct (truthy val) eqn:Hv.
  - change ("redisUp" +:+ ":" +:+ "up") with "redisUp:up".
    rewrite (String.eqb_refl "redisUp:up"). split; [|done].
    unfold MessageBus.attachRedisIfPossible.
    destruct (MessageBus.redisAttached bus) eqn:Ha; [by rewrite Ha|].
    destruct made as [[p s]|]; cbn; [done|]. by rewrite Ha.
  - change ("redisUp" +:+ ":" +:+ "down") with "redisUp:down".
    replace (String.eqb "redisUp:down" "redisUp:up") with false by reflexivity.
    rewrite (String.eqb_refl "redisUp:down"). split.
    + unfold MessageBus.detachRedis. by destruct (MessageBus.redisAttached bus) eqn:Ha.
    + intros _ topic payload. apply remotes_after_detach.
Qed.

End InfraStatusFacts.

(** ** Heartbeat: statistics and the sample kept per worker *)

Section HeartbeatMore.
Import Js Heartbeat.

Implicit Types (a : list Z) (hb : list (string * worker)).

Lemma foldl_min_le x a : foldl Z.min x a <= x /\ Forall (fun y => foldl Z.min x a <= y) a.
Proof.
  revert x. induction a as [|y a IH]; intros x; cbn [foldl]; [split; [lia|done]|].
  destruct (IH (Z.min x y)) as [H1 H2]. split; [lia|].
  constructor; [lia|done].
Qed.

Lemma foldl_min_elem x a : foldl Z.min x a ∈ x :: a.
Proof.
  revert x. induction a as [|y a IH]; intros x; cbn [foldl]; [apply list_elem_of_here|].
  specialize (IH (Z.min x y)). apply elem_of_cons in IH as [E|Hin].
  - rewrite E. destruct (Z.min_spec x y) as [[_ ->]|[_ ->]].
    + apply list_elem_of_here.
    + apply list_elem_of_further, list_elem_of_here.
  - by do 2 apply list_elem_of_further.
Qed.

Lemma foldl_max_ge x a : x <= foldl Z.max x a /\ Forall (fun y => y <= foldl Z.max x a) a.
Proof.
  revert x. induction a as [|y a IH]; intros x; cbn [foldl]; [split; [lia|done]|].
  destruct (IH (Z.max x y)) as [H1 H2]. split; [lia|].
  constructor; [lia|done].
Qed.

Lemma foldl_max_elem x a : foldl Z.max x a ∈ x :: a.
Proof.
  revert x. induction a as [|y a IH]; intros x; cbn [foldl]; [apply list_elem_of_here|].
  specialize (IH (Z.max x y)). apply elem_of_cons in IH as [E|Hin].
  - rewrite E. destruct (Z.max_spec x y) as [[_ ->]|[_ ->]].
    + apply list_elem_of_further, list_elem_of_here.
    + apply list_elem_of_here.
  - by do 2 apply list_elem_of_further.
Qed.

Lemma foldl_add_bounds lo hi a acc :
  Forall (fun y => lo <= y <= hi) a ->
  acc + lo * Z.of_nat (length a) <= foldl Z.add acc a
  <= acc + hi * Z.of_nat (length a).
Proof.
  intros H. revert acc. induction H as [|y a Hy _ IH]; intros acc.
  - cbn. lia.
  - cbn [foldl length]. specialize (IH (acc + y)). lia.
Qed.

(** X15.  The statistics of a snapshot over the values of at least one
    worker: the minimum and the maximum are values of workers and bound
    all of them, and the rounded average lies between the two; with no
    worker all three are 0. *)
Theorem snapshot_statistics_are_bounded a :
  a <> [] ->
  s_min (stat_of a) ∈ a /\ s_max (stat_of a) ∈ a
  /\ Forall (fun x => s_min (stat_of a) <= x <= s_max (stat_of a)) a
  /\ s_min (stat_of a) <= s_avg (stat_of a) <= s_max (stat_of a)
  /\ stat_of [] = {| s_min := 0; s_avg := 0; s_max := 0 |}.
Proof.
  intros Hne. destruct a as [|x r]; [done|]. clear Hne.
  unfold stat_of. cbn [s_min s_max s_avg minl maxl avg].
  pose proof (foldl_min_le x r) as [Hm1 Hm2].
  pose proof (foldl_max_ge x r) as [HM1 HM2].
  assert (Hall : Forall (fun y => foldl Z.min x r <= y <= foldl Z.max x r) (x :: r)).
  { constructor; [lia|]. apply Forall_forall. intros y Hy.
    rewrite Forall_forall in Hm2, HM2. split; [by apply Hm2|by apply HM2]. }
  split; [apply foldl_min_elem|]. split; [apply foldl_max_elem|].
  split; [exact Hall|]. split; [|done].
  pose proof (foldl_add_bounds _ _ (x :: r) 0 Hall) as Hs.
  set (n := Z.of_nat (length (x :: r))) in *.
  assert (Hn : 0 < n) by (subst n; cbn [length]; lia).
  set (s := foldl Z.add 0 (x :: r)) in *.
  split.
  - apply Z.div_le_lower_bound; lia.
  - apply Z.lt_succ_r. apply Z.div_lt_upper_bound; lia.
Qed.

Lemma map_set_elem {V : Type} k (v : V) (m : list (string * V)) :
  (k, v) ∈ map_set k v m.
Proof.
  induction m as [|[k' v'] m IH]; cbn [map_set]; [apply list_elem_of_here|].
  destruct (String.eqb_spec k' k) as [->|Hne].
  - apply list_elem_of_here.
  - by apply list_elem_of_further.
Qed.

Lemma map_set_other {V : Type} k (v : V) (m : list (string * V)) k' w :
  k' <> k -> (k', w) ∈ map_set k v m <-> (k', w) ∈ m.
Proof.
  intros Hne. induction m as [|[k'' v''] m IH]; cbn [map_set].
  - rewrite list_elem_of_singleton. split; [intros [= ? ?]; done|].
    by intros ?%elem_of_nil.
  - destruct (String.eqb_spec k'' k) as [->|Hne'].
    + rewrite !elem_of_cons. split; (intros [[= ? ?]|?]; [done|by right]).
    + rewrite !elem_of_cons, IH. done.
Qed.

Lemma map_set_same {V : Type} k (v : V) (m : list (string * V)) w :
  NoDup (map fst m) -> (k, w) ∈ map_set k v m -> w = v.
Proof.
  induction m as [|[k' v'] m IH]; cbn [map_set map fst]; intros Hnd Hin.
  - apply list_elem_of_singleton in Hin. congruence.
  - apply NoDup_cons in Hnd as [Hk' Hnd].
    destruct (String.eqb_spec k' k) as [->|Hne].
    + apply elem_of_cons in Hin as [[= ?]|Hin]; [done|].
      destruct Hk'. apply list_elem_of_fmap. by exists (k, w).
    + apply elem_of_cons in Hin as [[= ? ?]|Hin]; [done|]. by apply IH.
Qed.

Lemma run_snoc_beat cfg pre now evt hb :
  fst (run cfg (pre ++ [Beat now evt]) hb)
  = onWorkerHeartbeat now evt (fst (run cfg pre hb)).
Proof.
  revert hb. induction pre as [|i pre IH]; intros hb; [done|].
  rewrite <- app_comm_cons. destruct i as [t e|t]; cbn [run].
  - apply IH.
  - specialize (IH hb).
    destruct (run cfg (pre ++ [Beat now evt]) hb) as [s1 o1].
    destruct (run cfg pre hb) as [s2 o2]. exact IH.
Qed.

Lemma run_keys_NoDup cfg pre : NoDup (map fst (fst (run cfg pre []))).
Proof.
  destruct (run_keys cfg pre [] [] NoDup_nil_2 eq_refl) as (ps & Hnd & Hk & _).
  rewrite Hk. apply NoDup_fmap_2_strong; [|done].
  intros [n1 p1] [n2 p2] _ _ E. cbn in E. by apply key_of_inj in E as [-> ->].
Qed.

(** X16.  The last heartbeat of a worker wins: after a run that ends in a
    heartbeat of [(nodeId, pid)], [hbState] holds for that pair the
    values of that heartbeat and no other record, and the records of all
    other workers are what they were. *)
Theorem last_heartbeat_wins cfg pre now e :
  let before := fst (run cfg pre []) in
  let after := fst (run cfg (pre ++ [Beat now (Some e)]) []) in
  let w := {| w_pid := pid e; w_nodeId := nodeId e;
              w_workerIndex := default (-1) (workerIndex e);
              w_ts := if ts e =? 0 then now else ts e;
              w_uptimeSec := uptimeSec e; w_rss := rss e;
              w_heapUsed := heapUsed e |} in
  (key_of (nodeId e) (pid e), w) ∈ after
  /\ (forall w', (key_of (nodeId e) (pid e), w') ∈ after -> w' = w)
  /\ (forall n p' w', (n, p') <> (nodeId e, pid e) ->
        (key_of n p', w') ∈ after <-> (key_of n p', w') ∈ before).
Proof.
  intros before after w. subst after. rewrite run_snoc_beat. fold before.
  unfold onWorkerHeartbeat. fold w. split; [apply map_set_elem|]. split.
  - intros w'. apply map_set_same. apply run_keys_NoDup.
  - intros n p' w' Hne. apply map_set_other.
    intros E. apply key_of_inj in E as [-> ->]. done.
Qed.

End HeartbeatMore.

(** ** ClusterHeartbeat: the bus cadence *)

Section ClusterHeartbeatFacts.
Import Js ClusterHeartbeat.

Lemma ticks_spaced cfg nows last :
  (forall a, broadcasts (ticks cfg nows last) !! 0%nat = Some a ->
             busMs cfg <= a - last)
  /\ (forall i a b,
         broadcasts (ticks cfg nows last) !! i = Some a ->
         broadcasts (ticks cfg nows last) !! S i = Some b ->
         busMs cfg <= b - a).
Proof.
  revert last. induction nows as [|now r IH]; intros last; [done|].
  cbn [ticks]. unfold maybeBus.
  destruct (busEnabled cfg) eqn:He; cbn [negb].
  - destruct (Z.leb_spec (busMs cfg) (now - last)) as [Hle|Hlt].
    + unfold broadcasts. cbn [List.filter snd map fst].
      destruct (IH now) as [H0 Hs]. split.
      * intros a [= <-]. done.
      * intros [|i] a b; cbn [lookup list_lookup].
        -- intros [= <-]. apply H0.
        -- apply Hs.
    + unfold broadcasts. cbn [List.filter snd map fst]. apply IH.
  - unfold broadcasts. cbn [List.filter snd map fst]. apply IH.
Qed.

(** X17.  Whatever the clock readings and however often the worker
    ticks, two heartbeats in a row on the bus are at least [busMs] apart,
    the first one at least [busMs] after the time recorded at start; with
    the broadcast disabled the bus gets none; and the timer period is
    never below 250 ms. *)
Theorem bus_heartbeats_are_spaced cfg nows last :
  (forall a, broadcasts (ticks cfg nows last) !! 0%nat = Some a ->
             busMs cfg <= a - last)
  /\ (forall i a b,
         broadcasts (ticks cfg nows last) !! i = Some a ->
         broadcasts (ticks cfg nows last) !! S i = Some b ->
         busMs cfg <= b - a)
  /\ (busEnabled cfg = false -> broadcasts (ticks cfg nows last) = [])
  /\ length (ticks cfg nows last) = length nows
  /\ 250 <= period cfg.
Proof.
  destruct (ticks_spaced cfg nows last) as [H0 Hs].
  split; [exact H0|]. split; [exact Hs|]. split; [|split].
  - clear H0 Hs. intros He. revert last.
    induction nows as [|now r IH]; intros last; [done|].
    cbn [ticks]. unfold maybeBus. rewrite He. cbn [negb].
    unfold broadcasts in *. cbn [List.filter snd map fst]. apply IH.
  - clear H0 Hs. revert last. induction nows as [|now r IH]; intros last; [done|].
    cbn [ticks]. destruct (maybeBus cfg now last) as [l' s]. cbn [length].
    by rewrite IH.
  - unfold period. lia.
Qed.

End ClusterHeartbeatFacts.

(** ** Metrics: nothing counted is lost or counted twice *)

Section MetricsFacts.
Import Js.

Lemma count_insert_add key n k (m : gmap string Z) :
  MetricsIngestor.count k (<[key := default 0 (m !! key) + n]> m)
  = MetricsIngestor.count k m + (if String.eqb key k then n else 0).
Proof.
  unfold MetricsIngestor.count. destruct (String.eqb_spec key k) as [->|Hne].
  - rewrite lookup_insert_eq. done.
  - rewrite lookup_insert_ne by done. lia.
Qed.

Lemma count_foldl_entries k entries (m : gmap string Z) :
  MetricsIngestor.count k
    (foldl (fun c kv => <[fst kv := default 0 (c !! fst kv) + snd kv]> c) m entries)
  = MetricsIngestor.count k m
    + foldr (fun kv acc => (if String.eqb (fst kv) k then snd kv else 0) + acc)
            0 entries.
Proof.
  revert m. induction entries as [|[k' v] r IH]; intros m; cbn [foldl foldr fst snd].
  - lia.
  - rewrite IH, count_insert_add. lia.
Qed.

Lemma handle_count k evt c :
  MetricsIngestor.count k (MetricsIngestor.handle evt c)
  = MetricsIngestor.count k c + MetricsIngestor.added k evt.
Proof.
  destruct evt as [[key n batch]|]; cbn [MetricsIngestor.handle MetricsIngestor.added
    MetricsIngestor.e_key MetricsIngestor.e_n MetricsIngestor.e_batch]; [|lia].
  set (c1 := match key with Some k0 => _ | None => c end).
  set (a1 := match key with Some k0 => _ | None => 0 end).
  assert (H1 : MetricsIngestor.count k c1 = MetricsIngestor.count k c + a1).
  { subst c1 a1. destruct key as [k0|]; [|lia].
    destruct (String.eqb k0 ""); [lia|].
    unfold MetricsIngestor.inc. rewrite count_insert_add. done. }
  destruct batch as [entries|]; [|lia].
  unfold MetricsIngestor.inc. rewrite count_foldl_entries. lia.
Qed.

Lemma ingestor_run_counts k ins c :
  MetricsIngestor.published k (snd (MetricsIngestor.run ins c))
  + MetricsIngestor.count k (fst (MetricsIngestor.run ins c))
  = MetricsIngestor.count k c + MetricsIngestor.added_all k ins.
Proof.
  revert c. induction ins as [|[evt|now] r IH]; intros c;
    cbn [MetricsIngestor.run MetricsIngestor.added_all foldr].
  - cbn. lia.
  - fold (MetricsIngestor.added_all k r). rewrite IH, handle_count. lia.
  - fold (MetricsIngestor.added_all k r). unfold MetricsIngestor.flush.
    destruct (decide (size c = 0%nat)) as [Hz|Hnz].
    + specialize (IH c). destruct (MetricsIngestor.run r c) as [c2 outs]. exact IH.
    + specialize (IH ∅). destruct (MetricsIngestor.run r ∅) as [c2 outs].
      unfold MetricsIngestor.published in *. cbn [fst snd foldr] in *.
      assert (E : MetricsIngestor.count k ∅ = 0) by done.
      rewrite E in IH. lia.
Qed.

Lemma ingestor_run_nonempty ins c :
  Forall (fun o => snd o <> ∅) (snd (MetricsIngestor.run ins c)).
Proof.
  revert c. induction ins as [|[evt|now] r IH]; intros c; cbn [MetricsIngestor.run].
  - constructor.
  - apply IH.
  - unfold MetricsIngestor.flush.
    destruct (decide (size c = 0%nat)) as [Hz|Hnz].
    + specialize (IH c). destruct (MetricsIngestor.run r c) as [c2 outs]. exact IH.
    + specialize (IH ∅). destruct (MetricsIngestor.run r ∅) as [c2 outs].
      cbn [snd] in *. constructor; [|done]. cbn [snd].
      by apply map_size_non_empty_iff.
Qed.

(** X18.  The metrics ingestor loses and invents nothing: for every key,
    the counts published in "sys:metrics:flush" over a run plus the count
    still waiting for the next timer are the count at the start plus what
    the "sys:metrics" events added, and no published snapshot is
    empty. *)
Theorem ingestor_counts_are_conserved k ins c :
  MetricsIngestor.published k (snd (MetricsIngestor.run ins c))
  + MetricsIngestor.count k (fst (MetricsIngestor.run ins c))
  = MetricsIngestor.count k c + MetricsIngestor.added_all k ins
  /\ Forall (fun o => snd o <> ∅) (snd (MetricsIngestor.run ins c)).
Proof. split; [apply ingestor_run_counts|apply ingestor_run_nonempty]. Qed.

Lemma onMetricsFlush_count k evt st :
  MetricsIngestor.count k (MetricsAggregator.agg_snapshot
                             (MetricsAggregator.onMetricsFlush evt st))
  = MetricsIngestor.count k (MetricsAggregator.agg_snapshot st)
    + MetricsAggregator.added k evt.
Proof.
  destruct evt as [e|]; cbn [MetricsAggregator.onMetricsFlush
    MetricsAggregator.added MetricsAggregator.agg_snapshot]; [|lia].
  apply count_foldl_entries.
Qed.

Lemma aggregator_run_counts k ins st :
  MetricsIngestor.published k (snd (MetricsAggregator.run true ins st))
  + MetricsIngestor.count k
      (MetricsAggregator.agg_snapshot (fst (MetricsAggregator.run true ins st)))
  = MetricsIngestor.count k (MetricsAggregator.agg_snapshot st)
    + MetricsAggregator.added_all k ins.
Proof.
  revert st. induction ins as [|[evt|now] r IH]; intros st;
    cbn [MetricsAggregator.run MetricsAggregator.added_all foldr].
  - cbn. lia.
  - fold (MetricsAggregator.added_all k r). rewrite IH, onMetricsFlush_count. lia.
  - fold (MetricsAggregator.added_all k r).
    destruct (MetricsAggregator.agg_timer st); [|apply IH].
    unfold MetricsAggregator.flushAggregated.
    specialize (IH MetricsAggregator.create).
    destruct (MetricsAggregator.run true r MetricsAggregator.create) as [s2 outs].
    unfold MetricsIngestor.published in *. cbn [fst snd foldr] in *.
    assert (E : MetricsIngestor.count k
                  (MetricsAggregator.agg_snapshot MetricsAggregator.create) = 0)
      by done.
    rewrite E in IH. lia.
Qed.

Lemma aggregator_run_follower ins st :
  snd (MetricsAggregator.run false ins st) = [].
Proof.
  revert st. induction ins as [|[evt|now] r IH]; intros st;
    cbn [MetricsAggregator.run]; [done|apply IH|].
  destruct (MetricsAggregator.agg_timer st); [|apply IH].
  unfold MetricsAggregator.flushAggregated.
  specialize (IH MetricsAggregator.create).
  destruct (MetricsAggregator.run false r MetricsAggregator.create) as [s2 outs].
  exact IH.
Qed.

(** X19.  On the leader the aggregation of "sys:metrics:flush" events
    conserves every count: what "zapi:sys:metrics:flush" carried for a
    key over a run plus what is still aggregated is what was aggregated
    at the start plus what the events brought.  A worker that is not the
    leader publishes nothing. *)
Theorem aggregator_counts_are_conserved k ins st :
  MetricsIngestor.published k (snd (MetricsAggregator.run true ins st))
  + MetricsIngestor.count k
      (MetricsAggregator.agg_snapshot (fst (MetricsAggregator.run true ins st)))
  = MetricsIngestor.count k (MetricsAggregator.agg_snapshot st)
    + MetricsAggregator.added_all k ins
  /\ snd (MetricsAggregator.run false ins st) = [].
Proof. split; [apply aggregator_run_counts|apply aggregator_run_follower]. Qed.

Lemma entries_sum_perm k (l1 l2 : list (string * Z)) :
  l1 ≡ₚ l2 ->
  foldr (fun kv acc => (if String.eqb (fst kv) k then snd kv else 0) + acc) 0 l1
  = foldr (fun kv acc => (if String.eqb (fst kv) k then snd kv else 0) + acc) 0 l2.
Proof. induction 1; cbn [foldr]; lia. Qed.

Lemma of_ingestor_added k o :
  MetricsAggregator.added k (MetricsAggregator.of_ingestor o)
  = MetricsIngestor.count k (snd o).
Proof.
  destruct o as [ts m]. unfold MetricsAggregator.of_ingestor, MetricsAggregator.added.
  cbn [fst snd MetricsAggregator.f_snapshot]. unfold MetricsIngestor.count.
  induction m as [|i x m Hi IH] using map_ind.
  - rewrite map_to_list_empty, lookup_empty. done.
  - rewrite (entries_sum_perm k _ _ (map_to_list_insert m i x Hi)).
    cbn [foldr fst snd]. rewrite IH.
    destruct (String.eqb_spec i k) as [->|Hne].
    + rewrite lookup_insert_eq, Hi. cbn. lia.
    + rewrite lookup_insert_ne by done. lia.
Qed.

Lemma relay_added k outs :
  MetricsAggregator.added_all k (MetricsAggregator.relay outs)
  = MetricsIngestor.published k outs.
Proof.
  induction outs as [|o r IH]; [done|].
  cbn [MetricsAggregator.relay map MetricsAggregator.added_all foldr
       MetricsIngestor.published].
  fold (MetricsAggregator.relay r). fold (MetricsAggregator.added_all k (MetricsAggregator.relay r)).
  fold (MetricsIngestor.published k r). rewrite IH, of_ingestor_added. done.
Qed.

Lemma run_relay outs rest st :
  MetricsAggregator.run true (MetricsAggregator.relay outs ++ rest) st
  = MetricsAggregator.run true rest
      (foldl (fun s o => MetricsAggregator.onMetricsFlush
                           (MetricsAggregator.of_ingestor o) s) st outs).
Proof.
  revert st. induction outs as [|o r IH]; intros st; [done|].
  cbn [MetricsAggregator.relay map app MetricsAggregator.run foldl].
  apply IH.
Qed.

Lemma relay_sets_timer outs st :
  outs <> [] \/ MetricsAggregator.agg_timer st = true ->
  MetricsAggregator.agg_timer
    (foldl (fun s o => MetricsAggregator.onMetricsFlush
                         (MetricsAggregator.of_ingestor o) s) st outs) = true.
Proof.
  revert st. induction outs as [|o r IH]; intros st [H|H]; cbn [foldl];
    try done; apply IH; by right.
Qed.

(** X20.  From the raw events to the event of the leader: when all the
    snapshots the ingestor published over a run have reached the
    aggregator of the leader and its timer fires, it publishes one
    payload, and for every key the count in it plus the count the
    ingestor still holds is the sum of what the "sys:metrics" events
    reported. *)
Theorem metrics_reach_the_leader_event k ins now :
  snd (MetricsIngestor.run ins ∅) <> [] ->
  exists ts snap,
    snd (MetricsAggregator.run true
           (MetricsAggregator.relay (snd (MetricsIngestor.run ins ∅))
            ++ [MetricsAggregator.Fire now])
           MetricsAggregator.create) = [(ts, snap)]
    /\ MetricsIngestor.count k snap
       + MetricsIngestor.count k (fst (MetricsIngestor.run ins ∅))
       = MetricsIngestor.added_all k ins.
Proof.
  intros Hne.
  pose proof (ingestor_run_counts k ins ∅) as Hi.
  set (outs := snd (MetricsIngestor.run ins ∅)) in *.
  pose proof (aggregator_run_counts k
                (MetricsAggregator.relay outs ++ [MetricsAggregator.Fire now])
                MetricsAggregator.create) as Ha.
  rewrite run_relay in *. cbn [MetricsAggregator.run] in *.
  rewrite relay_sets_timer in * by (by left).
  unfold MetricsAggregator.flushAggregated in *.
  cbn [fst snd] in *. eexists _, _. split; [reflexivity|].
  unfold MetricsAggregator.added_all in Ha. rewrite foldr_app in Ha.
  cbn [foldr] in Ha.
  fold (MetricsAggregator.added_all k (MetricsAggregator.relay outs)) in Ha.
  rewrite relay_added in Ha.
  cbn [MetricsIngestor.published foldr snd MetricsAggregator.create
       MetricsAggregator.agg_snapshot] in Ha.
  assert (E : MetricsIngestor.count k ∅ = 0) by done.
  rewrite ?E in Ha. rewrite ?E in Hi. lia.
Qed.

End MetricsFacts.

(** ** JobQueueServer: what holds in every state a server reaches *)

Section JobQueueServerMore.
Import Js JobQueueServer.

(** [_maybeThrottle()] touches the throttle flag, its start time and the
    two throttle statistics, and nothing else. *)
Lemma maybeThrottle_frame now st :
  jobs (maybeThrottle now st) = jobs st
  /\ queue (maybeThrottle now st) = queue st
  /\ running (maybeThrottle now st) = running st
  /\ opts (maybeThrottle now st) = opts st
  /\ redis (maybeThrottle now st) = redis st
  /\ eventServer (maybeThrottle now st) = eventServer st
  /\ polling (maybeThrottle now st) = polling st
  /\ inflight (maybeThrottle now st) = inflight st
  /\ published (maybeThrottle now st) = published st
  /\ totalJobs (stats (maybeThrottle now st)) = totalJobs (stats st)
  /\ perRoute (stats (maybeThrottle now st)) = perRoute (stats st).
Proof. unfold maybeThrottle. repeat case_match; by cbn. Qed.

Ltac frame_mt now st :=
  destruct (maybeThrottle_frame now st)
    as (?Hj & ?Hq & ?Hrun & ?Ho & ?Hred & ?Hes & ?Hpoll & ?Hinf & ?Hpub & ?Htot & ?Hper).

(** No action changes the options, the remote client or the event
    server of a server. *)
Lemma step_fixed st a :
  opts (step st a) = opts st
  /\ redis (step st a) = redis st
  /\ eventServer (step st a) = eventServer st.
Proof.
  destruct a as [nm def|nm pl now rand push|idx|now| |pop|i r now]; cbn [step].
  - unfold registerJob. by case_match.
  - unfold enqueue. repeat case_match; cbn [fst]; try done;
      match goal with |- context [maybeThrottle ?n ?s] => frame_mt n s end;
      by rewrite Ho, Hred, Hes.
  - unfold start. by case_match.
  - unfold stop. by case_match.
  - unfold pump_poll. by case_match.
  - unfold pump_take, pump_begin. repeat case_match; simplify_eq; done.
  - unfold pump_settle. repeat case_match; simplify_eq; done.
Qed.

Lemma run_fixed acts st :
  opts (run acts st) = opts st
  /\ redis (run acts st) = redis st
  /\ eventServer (run acts st) = eventServer st.
Proof.
  revert st. induction acts as [|a acts IH]; intros st; [done|].
  change (run (a :: acts) st) with (run acts (step st a)).
  destruct (IH (step st a)) as (-> & -> & ->). apply step_fixed.
Qed.

Lemma queue_run_app acts more st : run (acts ++ more) st = run more (run acts st).
Proof. unfold run. apply foldl_app. Qed.

(** *** A server backed by the remote list *)

Lemma step_quiet_throttle st a : quiet_throttle st -> quiet_throttle (step st a).
Proof.
  intros (Hr & Ha & He & Hm). unfold quiet_throttle.
  destruct a as [nm def|nm pl now rand push|idx|now| |pop|i r now]; cbn [step].
  - unfold registerJob. by case_match.
  - unfold enqueue. rewrite Hr. repeat case_match; cbn [fst]; try done;
      by rewrite maybeThrottle_remote.
  - unfold start. by case_match.
  - unfold stop. cbn. by rewrite Ha.
  - unfold pump_poll. by case_match.
  - unfold pump_take, pump_begin. repeat case_match; simplify_eq; done.
  - unfold pump_settle. repeat case_match; simplify_eq; done.
Qed.

Lemma run_quiet_throttle acts st : quiet_throttle st -> quiet_throttle (run acts st).
Proof.
  revert st. induction acts as [|a acts IH]; intros st H; [done|].
  cbn [run foldl]. apply IH. by apply step_quiet_throttle.
Qed.

Lemma step_remote_queue_grows st a :
  redis st = true -> exists extra, queue (step st a) = queue st ++ extra.
Proof.
  intros Hr.
  destruct a as [nm def|nm pl now rand push|idx|now| |pop|i r now]; cbn [step].
  - exists []. rewrite app_nil_r. unfold registerJob. by case_match.
  - unfold enqueue. rewrite Hr.
    destruct (jobs st !! nm); [|exists []; by rewrite app_nil_r].
    destruct push; cbn [fst].
    + exists []. by rewrite app_nil_r.
    + rewrite maybeThrottle_remote by done. by eexists.
    + exists []. by rewrite app_nil_r.
  - exists []. rewrite app_nil_r. unfold start. by case_match.
  - exists []. rewrite app_nil_r. unfold stop. by case_match.
  - exists []. rewrite app_nil_r. unfold pump_poll. by case_match.
  - exists []. rewrite app_nil_r. unfold pump_take, pump_begin. rewrite Hr.
    repeat case_match; simplify_eq; done.
  - exists []. rewrite app_nil_r. unfold pump_settle.
    repeat case_match; simplify_eq; done.
Qed.

Lemma run_remote_queue_grows acts st :
  redis st = true -> exists extra, queue (run acts st) = queue st ++ extra.
Proof.
  revert st. induction acts as [|a acts IH]; intros st Hr.
  - exists []. by rewrite app_nil_r.
  - cbn [run foldl]. destruct (step_remote_queue_grows st a Hr) as [e1 He1].
    destruct (IH (step st a)) as [e2 He2].
    { destruct (step_fixed st a) as (_ & -> & _). done. }
    exists (e1 ++ e2). unfold run in He2. rewrite He2, He1. by rewrite app_assoc.
Qed.

(** X21.  A server that got its remote client never throttles: in every
    state it reaches the throttle flag is off, both throttle statistics
    are 0 and [getStats()] gives no queue length.  The jobs that a
    throwing [rpush] left in the memory queue stay there whatever
    happens next: the pump of such a server reads the remote list
    only. *)
Theorem remote_backed_server_never_throttles jq es acts more :
  cfg_useredis jq = true ->
  v_throttleActive (getStats (run acts (create jq true es))) = false
  /\ v_throttleEvents (getStats (run acts (create jq true es))) = 0
  /\ v_throttledMsTotal (getStats (run acts (create jq true es))) = 0
  /\ v_queueLength (getStats (run acts (create jq true es))) = None
  /\ exists extra,
       queue (run (acts ++ more) (create jq true es))
       = queue (run acts (create jq true es)) ++ extra.
Proof.
  intros Hu.
  assert (H0 : quiet_throttle (create jq true es)).
  { unfold quiet_throttle, create. cbn. by rewrite Hu. }
  destruct (run_quiet_throttle acts _ H0) as (Hr & Ha & He & Hm).
  unfold getStats. cbn [v_throttleActive v_throttleEvents v_throttledMsTotal
                        v_queueLength].
  rewrite Hr. repeat (split; [done|]).
  rewrite queue_run_app. by apply run_remote_queue_grows.
Qed.

(** *** A server that keeps its queue in memory *)

Lemma step_queue_known st a : queue_known st -> queue_known (step st a).
Proof.
  unfold queue_known. intros H.
  destruct a as [nm def|nm pl now rand push|idx|now| |pop|i r now]; cbn [step].
  - unfold registerJob. case_match; [done|]. cbn.
    eapply Forall_impl; [exact H|]. intros j Hj. cbn in Hj.
    apply lookup_insert_is_Some'. by right.
  - unfold enqueue. destruct (jobs st !! nm) as [def|] eqn:Hn; [|done].
    assert (Hq : Forall (fun j => is_Some (jobs st !! name j))
                   (queue st ++ [{| id := pretty now +:+ "-" +:+ rand; name := nm;
                                    payload := pl; ts := now |}])).
    { apply Forall_app. split; [done|]. constructor; [|done]. cbn. by rewrite Hn. }
    destruct (redis st); [destruct push|]; cbn [fst]; try done;
      match goal with |- context [maybeThrottle ?n ?s] => frame_mt n s end;
      by rewrite Hj, Hq0.
  - unfold start. by case_match.
  - unfold stop. by case_match.
  - unfold pump_poll. by case_match.
  - unfold pump_take. destruct (redis st).
    + destruct (polling st) as [|n]; [exact H|].
      destruct pop; [|exact H].
      destruct (remote (set_polling n st)) as [|j0 r0]; [exact H|].
      unfold pump_begin. case_match; exact H.
    + destruct (running st); cbn [negb]; [|exact H].
      destruct (queue st) as [|j0 r0] eqn:Hq; [by rewrite Hq|].
      apply Forall_cons in H as [_ H]. unfold pump_begin. case_match; exact H.
  - unfold pump_settle. destruct (inflight st !! i) as [[j def]|]; [|exact H].
    destruct r; [|exact H]. cbn. case_match; exact H.
Qed.

Lemma run_queue_known acts st : queue_known st -> queue_known (run acts st).
Proof.
  revert st. induction acts as [|a acts IH]; intros st H; [done|].
  cbn [run foldl]. apply IH. by apply step_queue_known.
Qed.

(** X22.  Jobs in the memory queue never meet the error of an unknown
    job: in every state a server without remote client reaches, each
    queued job has a registered definition, and a running pump takes the
    job at the head of the queue and starts it with the definition
    registered under its name at that moment. *)
Theorem memory_queue_jobs_are_always_known jq client es acts pop j r :
  redis (create jq client es) = false ->
  running (run acts (create jq client es)) = true ->
  queue (run acts (create jq client es)) = j :: r ->
  Forall (fun j' => is_Some (jobs (run acts (create jq client es)) !! name j'))
         (queue (run acts (create jq client es)))
  /\ exists def,
       jobs (run acts (create jq client es)) !! name j = Some def
       /\ queue (pump_take pop (run acts (create jq client es))) = r
       /\ inflight (pump_take pop (run acts (create jq client es)))
          = inflight (run acts (create jq client es)) ++ [(j, def)]
       /\ active (pump_take pop (run acts (create jq client es)))
          = active (run acts (create jq client es)) + 1.
Proof.
  intros Hr Hrun Hq.
  assert (Hk : queue_known (run acts (create jq client es))).
  { apply run_queue_known. unfold queue_known, create. cbn. constructor. }
  destruct (run_fixed acts (create jq client es)) as (_ & Hred & _).
  rewrite Hr in Hred.
  set (s := run acts (create jq client es)) in *.
  split; [exact Hk|].
  unfold queue_known in Hk. rewrite Hq in Hk.
  apply Forall_cons in Hk as [[def Hdef] _]. exists def.
  split; [done|]. unfold pump_take, pump_begin. rewrite Hred, Hrun, Hq. cbn.
  rewrite Hdef. done.
Qed.

(** *** Completion events and statistics *)

Lemma step_keeps_record st a :
  (forall i now, a <> Settle i Returned now) ->
  published (step st a) = published st
  /\ totalJobs (stats (step st a)) = totalJobs (stats st)
  /\ perRoute (stats (step st a)) = perRoute (stats st).
Proof.
  intros Ha.
  destruct a as [nm def|nm pl now rand push|idx|now| |pop|i r now]; cbn [step].
  - unfold registerJob. by case_match.
  - unfold enqueue. repeat case_match; cbn [fst]; try done;
      match goal with |- context [maybeThrottle ?n ?s] => frame_mt n s end;
      by rewrite Hpub, Htot, Hper.
  - unfold start. by case_match.
  - unfold stop. by case_match.
  - unfold pump_poll. by case_match.
  - unfold pump_take, pump_begin. repeat case_match; simplify_eq; done.
  - destruct r; [by destruct (Ha i now)|].
    unfold pump_settle. repeat case_match; simplify_eq; done.
Qed.

Lemma step_notices_match st a : notices_match st -> notices_match (step st a).
Proof.
  intros [Hn Ht]. unfold notices_match.
  destruct (step_fixed st a) as (Ho & _ & He). rewrite Ho, He.
  assert (Hcase : (exists i now, a = Settle i Returned now)
                  \/ (forall i now, a <> Settle i Returned now)).
  { destruct a as [| | | | | |i [|] now]; try (by right); left; by exists i, now. }
  destruct Hcase as [(i & now & ->)|Hne].
  - cbn [step]. unfold pump_settle.
    destruct (inflight st !! i) as [[j def]|]; [|by split].
    cbn. destruct (broadcast (opts st) && eventServer st) eqn:Hb; cbn.
    + split.
      * intros nm. unfold notices_for in *. rewrite List.filter_app, length_app.
        cbn [List.filter n_name]. specialize (Hn nm).
        destruct (String.eqb_spec (name j) nm) as [->|Hne].
        -- rewrite lookup_insert_eq. rewrite Nat2Z.inj_add. cbn [length].
           set (d := default 0 (perRoute (stats st) !! nm)) in *.
           change (default 0 (Some (d + 1))) with (d + 1). lia.
        -- rewrite lookup_insert_ne by done. rewrite Nat2Z.inj_add. cbn [length].
           lia.
      * rewrite length_app, Nat2Z.inj_add. cbn [length]. lia.
    + split; [exact Hn|exact Ht].
  - destruct (step_keeps_record st a Hne) as (-> & -> & ->). by split.
Qed.

Lemma run_notices_match acts st : notices_match st -> notices_match (run acts st).
Proof.
  revert st. induction acts as [|a acts IH]; intros st H; [done|].
  cbn [run foldl]. apply IH. by apply step_notices_match.
Qed.

(** X23.  The completion events agree with the statistics.  In every
    state a server reaches from its creation with [broadcast] set and an
    EventServer at hand, the number of "zapi:jobqueue:completed" events
    asked of it for a job name is the count of that name in
    [getStats().perRoute], and their number in all is
    [getStats().totalJobs]; without [broadcast] or without EventServer
    none is asked for. *)
Theorem completion_events_match_statistics jq client es acts nm :
  notices_for nm (published (run acts (create jq client es)))
  = (if cfg_broadcast jq && es
     then default 0 (v_perRoute (getStats (run acts (create jq client es))) !! nm)
     else 0)
  /\ Z.of_nat (length (published (run acts (create jq client es))))
     = (if cfg_broadcast jq && es
        then v_totalJobs (getStats (run acts (create jq client es)))
        else 0).
Proof.
  assert (H0 : notices_match (create jq client es)).
  { unfold notices_match, notices_for, create. cbn. split; [intros ?|];
      by case_match. }
  destruct (run_notices_match acts _ H0) as [Hn Ht].
  destruct (run_fixed acts (create jq client es)) as (Ho & _ & He).
  rewrite Ho, He in Hn, Ht. cbn in Hn, Ht. split; [apply Hn|apply Ht].
Qed.

(** *** leaderOnly *)

Lemma step_idle st a : off_leader a -> idle st -> idle (step st a).
Proof.
  intros Ha (Hl & Hr & Hi & Hp & Ht & Hpub). unfold idle.
  destruct (step_fixed st a) as (Ho & _ & _). rewrite Ho.
  destruct a as [nm def|nm pl now rand push|idx|now| |pop|i r now]; cbn [step].
  - unfold registerJob. by case_match.
  - unfold enqueue. repeat case_match; cbn [fst]; try done;
      try (match goal with |- context [maybeThrottle ?n ?s] => frame_mt n s end;
           by rewrite Hrun, Hinf, Hpoll, Htot, Hpub0).
  - unfold start. rewrite Hl. cbn in Ha.
    destruct (Z.eqb_spec idx 0); [done|]. done.
  - unfold stop. by case_match.
  - unfold pump_poll. rewrite Hr. done.
  - unfold pump_take. rewrite Hp, Hr. by case_match.
  - unfold pump_settle. rewrite Hi. done.
Qed.

Lemma run_idle acts st : Forall off_leader acts -> idle st -> idle (run acts st).
Proof.
  revert st. induction acts as [|a acts IH]; intros st Ha H; [done|].
  apply Forall_cons in Ha as [Ha Hacts].
  change (run (a :: acts) st) with (run acts (step st a)).
  apply IH; [done|]. by apply step_idle.
Qed.

(** X24.  With [leaderOnly] set, a worker whose index is not 0 never
    runs a job: [start()] leaves it stopped, so whatever is registered,
    enqueued on it, polled or stopped afterwards, no job is taken, no
    job is counted and no completion is published; the jobs enqueued in
    its memory queue stay there. *)
Theorem leader_only_keeps_other_workers_idle jq client es acts :
  cfg_leaderOnly jq = true ->
  Forall off_leader acts ->
  running (run acts (create jq client es)) = false
  /\ inflight (run acts (create jq client es)) = []
  /\ polling (run acts (create jq client es)) = 0%nat
  /\ v_totalJobs (getStats (run acts (create jq client es))) = 0
  /\ published (run acts (create jq client es)) = []
  /\ (forall more, Forall off_leader more ->
        exists extra,
          queue (run (acts ++ more) (create jq client es))
          = queue (run acts (create jq client es)) ++ extra).
Proof.
  intros Hl Ha.
  assert (H0 : idle (create jq client es)).
  { unfold idle, create. cbn. by rewrite Hl. }
  destruct (run_idle acts _ Ha H0) as (_ & Hr & Hi & Hp & Ht & Hpub).
  repeat (split; [done|]).
  intros more Hmore. rewrite queue_run_app.
  pose proof (run_idle acts _ Ha H0) as Hidle.
  clear Hr Hi Hp Ht Hpub H0 Ha.
  generalize dependent (run acts (create jq client es)).
  induction more as [|a more IH]; intros st Hidle.
  - exists []. by rewrite app_nil_r.
  - apply Forall_cons in Hmore as [Ha Hmore].
    change (run (a :: more) st) with (run more (step st a)).
    destruct (IH Hmore (step st a) (step_idle st a Ha Hidle)) as [e2 He2].
    assert (H1 : exists e1, queue (step st a) = queue st ++ e1).
    { destruct Hidle as (_ & Hr & _).
      destruct a as [nm def|nm pl now rand push|idx|now| |pop|i r now]; cbn [step].
      - exists []. rewrite app_nil_r. unfold registerJob. by case_match.
      - unfold enqueue. destruct (jobs st !! nm); [|exists []; by rewrite app_nil_r].
        destruct (redis st); [destruct push|]; cbn [fst];
          try (exists []; by rewrite app_nil_r);
          match goal with |- context [maybeThrottle ?n ?s] => frame_mt n s end;
          rewrite Hq; by eexists.
      - exists []. rewrite app_nil_r. unfold start. by case_match.
      - exists []. rewrite app_nil_r. unfold stop. by case_match.
      - exists []. rewrite app_nil_r. unfold pump_poll. by case_match.
      - exists []. rewrite app_nil_r. unfold pump_take, pump_begin. rewrite Hr.
        repeat case_match; simplify_eq; done.
      - exists []. rewrite app_nil_r. unfold pump_settle.
        repeat case_match; simplify_eq; done. }
    destruct H1 as [e1 He1]. exists (e1 ++ e2). rewrite He2, He1.
    by rewrite app_assoc.
Qed.

End JobQueueServerMore.

(** ** The further properties at work *)

Section FurtherExamples.
Import Js Scenario.

Lemma adapter_registered_twice_receives_once_witness :
  EventServer.started star_server = true
  /\ NoDup (EventServer.adapters star_server)
  /\ EventServer.built proc (call 1 "a") = Some (env_of 1 "a")
  /\ snd (EventServer.deliver quiet star_server "a" (env_of 1 "a")) = Normal
  /\ EventServer.received 8%nat
       (snd (fst (EventServer.publish quiet proc 1 None "a" (VObj [])
                    (EventServer.registerAdapter 8%nat
                       (EventServer.registerAdapter 8%nat star_server)))))
     = [env_of 1 "a"].
Proof.
  assert (H1 : EventServer.started star_server = true) by reflexivity.
  assert (H2 : NoDup (EventServer.adapters star_server)).
  { apply (NoDup_cons_2 7%nat []); [apply not_elem_of_nil | apply NoDup_nil_2]. }
  assert (H3 : EventServer.built proc (call 1 "a") = Some (env_of 1 "a"))
    by reflexivity.
  assert (H4 : snd (EventServer.deliver quiet star_server "a" (env_of 1 "a"))
               = Normal) by reflexivity.
  split; [exact H1|]. split; [exact H2|]. split; [exact H3|]. split; [exact H4|].
  destruct (adapter_registered_twice_receives_once quiet proc (call 1 "a")
              star_server 8%nat (env_of 1 "a") H1 H2 H3 H4) as [_ H].
  exact H.
Defined.

Lemma exact_subscriber_called_for_its_topic_only_witness :
  endsWithStar "a" = false
  /\ EventServer.handled 0%nat
       (snd (fst (EventServer.publish faulty proc 1 None "a" VUndef
                    (EventServer.subscribe "a" 0%nat started_bare))))
     = [env_of 1 "a"]
  /\ EventServer.handled 0%nat
       (snd (fst (EventServer.publish faulty proc 1 None "b" VUndef
                    (EventServer.subscribe "a" 0%nat started_bare))))
     = [].
Proof.
  assert (H1 : endsWithStar "a" = false) by reflexivity.
  split; [exact H1|]. split.
  - exact (exact_subscriber_called_for_its_topic_only faulty proc 1 "a" VUndef
             "a" 0%nat [7%nat] H1).
  - exact (exact_subscriber_called_for_its_topic_only faulty proc 1 "b" VUndef
             "a" 0%nat [7%nat] H1).
Defined.

Lemma prefix_subscriber_called_for_matching_events_witness :
  "user:" <> "" /\ "user:" <> "zapi:" /\ "user:login" <> "error"
  /\ (forall env, quiet 0%nat env = false)
  /\ EventServer.handled 0%nat
       (snd (fst (EventServer.publish quiet proc 1 None "user:login" VUndef
                    (EventServer.subscribe "user:*" 0%nat started_bare))))
     = [env_of 1 "user:login"].
Proof.
  assert (H1 : "user:" <> "") by discriminate.
  assert (H2 : "user:" <> "zapi:") by discriminate.
  assert (H3 : "user:login" <> "error") by discriminate.
  assert (H4 : forall env, quiet 0%nat env = false) by (intros env; reflexivity).
  split; [exact H1|]. split; [exact H2|]. split; [exact H3|]. split; [exact H4|].
  exact (prefix_subscriber_called_for_matching_events quiet proc 1 "user:login"
           VUndef "user:" 0%nat [7%nat] H1 H2 H3 H4).
Defined.

Lemma outage_keeps_first_reason_witness :
  OutageDeduper.isDown "redis" ∅ = false
  /\ VObj [("reason", VStr "ECONNREFUSED")] <> VNull
  /\ foldl (fun s mt => fst (OutageDeduper.down "redis" (fst mt) (snd mt) s))
       (fst (OutageDeduper.down "redis" (VObj [("reason", VStr "ECONNREFUSED")]) 5 ∅))
       [(VObj [("reason", VStr "ETIMEDOUT")], 6); (VUndef, 7)]
     = fst (OutageDeduper.down "redis" (VObj [("reason", VStr "ECONNREFUSED")]) 5 ∅).
Proof.
  assert (H1 : OutageDeduper.isDown "redis" ∅ = false) by reflexivity.
  assert (H2 : VObj [("reason", VStr "ECONNREFUSED")] <> VNull) by discriminate.
  split; [exact H1|]. split; [exact H2|].
  destruct (outage_keeps_first_reason "redis" (VObj [("reason", VStr "ECONNREFUSED")])
              5 [(VObj [("reason", VStr "ETIMEDOUT")], 6); (VUndef, 7)] ∅ H1 H2)
    as (_ & H & _).
  exact H.
Defined.

Lemma outage_keys_are_independent_witness :
  Forall (fun o => OutageDeduper.op_key o <> "redis")
         [OutageDeduper.Down "mongo" 2; OutageDeduper.Up "mongo" 3]
  /\ fst (OutageDeduper.run
            [OutageDeduper.Down "mongo" 2; OutageDeduper.Up "mongo" 3]
            (fst (OutageDeduper.run [OutageDeduper.Down "redis" 1] ∅))) !! "redis"
     = fst (OutageDeduper.run [OutageDeduper.Down "redis" 1] ∅) !! "redis".
Proof.
  assert (H1 : Forall (fun o => OutageDeduper.op_key o <> "redis")
                 [OutageDeduper.Down "mongo" 2; OutageDeduper.Up "mongo" 3]).
  { repeat constructor; discriminate. }
  split; [exact H1|].
  exact (outage_keys_are_independent _ _ "redis" H1).
Defined.

Lemma retry_delay_is_capped_witness :
  0 <= 3 /\ 0 <= RedisEventService.retryMs 3 <= 60000.
Proof.
  assert (H1 : 0 <= 3) by lia.
  split; [exact H1|].
  destruct (retry_delay_is_capped 3 H1) as [H _]. exact H.
Defined.

Lemma outage_announced_once_per_change_witness :
  OutageDeduper.isDown "redis" ∅ = false
  /\ RedisEventService.is_leader (Some 0) && true = true
  /\ snd (RedisEventService.client_run (Some 0) true "redis" flapping ∅)
     = [ ("zapi:infra:redis:down",
          VObj [("reason", VStr "ECONNREFUSED"); ("ts", VNum 1)]);
         ("zapi:infra:redis:up", VObj [("ts", VNum 3)]);
         ("zapi:infra:redis:down",
          VObj [("reason", VStr "ECONNREFUSED"); ("ts", VNum 5)]) ].
Proof.
  assert (H1 : OutageDeduper.isDown "redis" ∅ = false) by reflexivity.
  assert (H2 : RedisEventService.is_leader (Some 0) && true = true) by reflexivity.
  split; [exact H1|]. split; [exact H2|].
  destruct (outage_announced_once_per_change (Some 0) true "redis" flapping ∅ H1)
    as [H _].
  rewrite (H H2). reflexivity.
Defined.

Lemma remote_message_is_delivered_like_a_local_publish_witness :
  MessageBus.normalize (VStr " room ") <> ""
  /\ MessageBus.topicFromChannel "ws" "ws:room" = Some "room"
  /\ MessageBus.locals
       (MessageBus.onRedisPMessage quiet "ws:room" "hi" (Some (VStr "hi")) bus)
     = MessageBus.locals (MessageBus.publish quiet (VStr " room ") (VStr "hi") bus).
Proof.
  assert (H1 : MessageBus.normalize (VStr " room ") <> "")
    by (vm_compute; discriminate).
  split; [exact H1|].
  destruct (remote_message_is_delivered_like_a_local_publish quiet (VStr " room ")
              (VStr "hi") "hi" "other:room" bus H1) as (Ht & Hl & _).
  split; [exact Ht|exact Hl].
Defined.

Lemma flag_events_alternate_witness :
  is_Some (InfraStatus.create !! "redisUp")
  /\ (forall i ev,
        snd (InfraStatus.set_all "redisUp" redis_writes InfraStatus.create) !! i
          = Some ev ->
        ev = "redisUp" +:+ ":" +:+ (if xorb false (Nat.even i) then "up" else "down"))
  /\ InfraStatus.flag "redisUp"
       (fst (InfraStatus.set_all "redisUp" redis_writes InfraStatus.create))
     = false.
Proof.
  assert (H1 : is_Some (InfraStatus.create !! "redisUp")).
  { exists false. vm_compute. reflexivity. }
  split; [exact H1|].
  destruct (flag_events_alternate "redisUp" redis_writes InfraStatus.create H1)
    as (He & Hf & _).
  split; [exact He|exact Hf].
Defined.

Lemma bus_follows_redis_flag_witness :
  InfraStatus.set "redisUp" (VBool true) VUndef 7 InfraStatus.create
  = (<["redisUp" := true]> InfraStatus.create,
     Some ("redisUp:up", InfraStatus.payload 7 (VObj [])))
  /\ InfraStatus.isRedisUp (<["redisUp" := true]> InfraStatus.create) = true
  /\ MessageBus.redisAttached
       (MessageBus.onInfra (Some (live, live)) "redisUp:up"
          (MessageBus.create (VStr "ws")))
     = true.
Proof.
  assert (H1 : InfraStatus.set "redisUp" (VBool true) VUndef 7 InfraStatus.create
               = (<["redisUp" := true]> InfraStatus.create,
                  Some ("redisUp:up", InfraStatus.payload 7 (VObj []))))
    by (vm_compute; reflexivity).
  split; [exact H1|].
  destruct (bus_follows_redis_flag quiet (VBool true) VUndef 7 InfraStatus.create
              _ _ _ (Some (live, live)) (MessageBus.create (VStr "ws")) H1)
    as (Hu & Ha & _).
  split; [exact Hu|exact Ha].
Defined.

Lemma snapshot_statistics_are_bounded_witness :
  [300; 500; 400] <> []
  /\ Heartbeat.s_min (Heartbeat.stat_of [300; 500; 400])
     <= Heartbeat.s_avg (Heartbeat.stat_of [300; 500; 400])
     <= Heartbeat.s_max (Heartbeat.stat_of [300; 500; 400]).
Proof.
  assert (H1 : [300; 500; 400] <> []) by discriminate.
  split; [exact H1|].
  destruct (snapshot_statistics_are_bounded [300; 500; 400] H1)
    as (_ & _ & _ & H & _).
  exact H.
Defined.

Lemma metrics_reach_the_leader_event_witness :
  snd (MetricsIngestor.run metric_events ∅) <> []
  /\ exists ts snap,
       snd (MetricsAggregator.run true
              (MetricsAggregator.relay (snd (MetricsIngestor.run metric_events ∅))
               ++ [MetricsAggregator.Fire 30])
              MetricsAggregator.create) = [(ts, snap)]
       /\ MetricsIngestor.count "api" snap
          + MetricsIngestor.count "api" (fst (MetricsIngestor.run metric_events ∅))
          = MetricsIngestor.added_all "api" metric_events.
Proof.
  assert (H1 : snd (MetricsIngestor.run metric_events ∅) <> []).
  { intros H. vm_compute in H. discriminate H. }
  split; [exact H1|].
  exact (metrics_reach_the_leader_event "api" metric_events 30 H1).
Defined.

Lemma remote_backed_server_never_throttles_witness :
  JobQueueServer.cfg_useredis throttle3_redis = true
  /\ JobQueueServer.v_throttleActive
       (JobQueueServer.getStats
          (JobQueueServer.run enqueue_four_thrown
             (JobQueueServer.create throttle3_redis true false))) = false
  /\ exists extra,
       JobQueueServer.queue
         (JobQueueServer.run (enqueue_four_thrown ++ poll_three)
            (JobQueueServer.create throttle3_redis true false))
       = JobQueueServer.queue
           (JobQueueServer.run enqueue_four_thrown
              (JobQueueServer.create throttle3_redis true false)) ++ extra.
Proof.
  assert (H1 : JobQueueServer.cfg_useredis throttle3_redis = true) by reflexivity.
  split; [exact H1|].
  destruct (remote_backed_server_never_throttles throttle3_redis false
              enqueue_four_thrown poll_three H1) as (Ha & _ & _ & _ & Hq).
  split; [exact Ha|exact Hq].
Defined.

Lemma memory_queue_jobs_are_always_known_witness :
  JobQueueServer.redis (JobQueueServer.create throttle3 false false) = false
  /\ JobQueueServer.running
       (JobQueueServer.run enqueue_four (JobQueueServer.create throttle3 false false))
     = true
  /\ JobQueueServer.queue
       (JobQueueServer.run enqueue_four (JobQueueServer.create throttle3 false false))
     = [ {| JobQueueServer.id := "10-aaaaaa"; JobQueueServer.name := "j";
            JobQueueServer.payload := VNull; JobQueueServer.ts := 10 |};
         {| JobQueueServer.id := "11-bbbbbb"; JobQueueServer.name := "j";
            JobQueueServer.payload := VNull; JobQueueServer.ts := 11 |};
         {| JobQueueServer.id := "12-cccccc"; JobQueueServer.name := "j";
            JobQueueServer.payload := VNull; JobQueueServer.ts := 12 |};
         {| JobQueueServer.id := "13-dddddd"; JobQueueServer.name := "j";
            JobQueueServer.payload := VNull; JobQueueServer.ts := 13 |} ]
  /\ exists def,
       JobQueueServer.jobs
         (JobQueueServer.run enqueue_four (JobQueueServer.create throttle3 false false))
         !! "j" = Some def
       /\ JobQueueServer.inflight
            (JobQueueServer.pump_take JobQueueServer.Nothing
               (JobQueueServer.run enqueue_four
                  (JobQueueServer.create throttle3 false false)))
          = [ ({| JobQueueServer.id := "10-aaaaaa"; JobQueueServer.name := "j";
                  JobQueueServer.payload := VNull; JobQueueServer.ts := 10 |}, def) ].
Proof.
  assert (H1 : JobQueueServer.redis (JobQueueServer.create throttle3 false false)
               = false) by reflexivity.
  assert (H2 : JobQueueServer.running
                 (JobQueueServer.run enqueue_four
                    (JobQueueServer.create throttle3 false false)) = true)
    by (vm_compute; reflexivity).
  assert (H3 : JobQueueServer.queue
                 (JobQueueServer.run enqueue_four
                    (JobQueueServer.create throttle3 false false))
               = [ {| JobQueueServer.id := "10-aaaaaa"; JobQueueServer.name := "j";
                      JobQueueServer.payload := VNull; JobQueueServer.ts := 10 |};
                   {| JobQueueServer.id := "11-bbbbbb"; JobQueueServer.name := "j";
                      JobQueueServer.payload := VNull; JobQueueServer.ts := 11 |};
                   {| JobQueueServer.id := "12-cccccc"; JobQueueServer.name := "j";
                      JobQueueServer.payload := VNull; JobQueueServer.ts := 12 |};
                   {| JobQueueServer.id := "13-dddddd"; JobQueueServer.name := "j";
                      JobQueueServer.payload := VNull; JobQueueServer.ts := 13 |} ])
    by (vm_compute; reflexivity).
  split; [exact H1|]. split; [exact H2|]. split; [exact H3|].
  destruct (memory_queue_jobs_are_always_known throttle3 false false enqueue_four
              JobQueueServer.Nothing _ _ H1 H2 H3) as (_ & def & Hd & _ & Hi & _).
  exists def. split; [exact Hd|].
  rewrite Hi. reflexivity.
Defined.

Lemma leader_only_keeps_other_workers_idle_witness :
  JobQueueServer.cfg_leaderOnly leader_only = true
  /\ Forall JobQueueServer.off_leader worker_two
  /\ JobQueueServer.running
       (JobQueueServer.run worker_two (JobQueueServer.create leader_only false false))
     = false
  /\ JobQueueServer.inflight
       (JobQueueServer.run worker_two (JobQueueServer.create leader_only false false))
     = [].
Proof.
  assert (H1 : JobQueueServer.cfg_leaderOnly leader_only = true) by reflexivity.
  assert (H2 : Forall JobQueueServer.off_leader worker_two).
  { repeat constructor. cbn. lia. }
  split; [exact H1|]. split; [exact H2|].
  destruct (leader_only_keeps_other_workers_idle leader_only false false worker_two
              H1 H2) as (Hr & Hi & _).
  split; [exact Hr|exact Hi].
Defined.

End FurtherExamples.

(** ** HealthService: the status follows the flags of InfraStatus *)

Section HealthServiceFacts.
Import Js HealthService.

Lemma append_cons c r s : String c r +:+ s = String c (r +:+ s).
Proof. reflexivity. Qed.

(** The event names of InfraStatus tell the flag and the direction. *)
Lemma event_name_inj name (b : bool) k (b' : bool) :
  k = "redisUp" \/ k = "mongoUp" ->
  name +:+ ":" +:+ (if b then "up" else "down")
  = k +:+ ":" +:+ (if b' then "up" else "down") ->
  name = k /\ b = b'.
Proof.
  intros [-> | ->] H; destruct b, b'; cbn in H;
    repeat (destruct name as [|? name]; rewrite ?append_cons in H; cbn in H;
            [first [ discriminate H | by split ]
            | first [ discriminate H | injection H as -> H ]]).
Qed.

Lemma flag_insert_same k name (next : bool) flags :
  InfraStatus.flag name flags = next ->
  InfraStatus.flag k (<[name := next]> flags) = InfraStatus.flag k flags.
Proof.
  intros H. unfold InfraStatus.flag in *.
  destruct (String.eqb_spec name k) as [->|Hne].
  - by rewrite lookup_insert_eq.
  - by rewrite lookup_insert_ne.
Qed.

Lemma flag_insert_eq name (next : bool) flags :
  InfraStatus.flag name (<[name := next]> flags) = next.
Proof. unfold InfraStatus.flag. by rewrite lookup_insert_eq. Qed.

Lemma flag_insert_ne k name (next : bool) flags :
  name <> k ->
  InfraStatus.flag k (<[name := next]> flags) = InfraStatus.flag k flags.
Proof. intros H. unfold InfraStatus.flag. by rewrite lookup_insert_ne. Qed.

(** What [_recalc] leaves. *)
Lemma recalc_state es extra st :
  deps_mongo (fst (recalc es extra st)) = deps_mongo st
  /\ deps_redis (fst (recalc es extra st)) = deps_redis st
  /\ required_mongo (fst (recalc es extra st)) = required_mongo st
  /\ required_redis (fst (recalc es extra st)) = required_redis st
  /\ status (fst (recalc es extra st)) = verdict st
  /\ verdict (fst (recalc es extra st)) = verdict st.
Proof. done. Qed.

Lemma verdict_name st :
  verdict st
  = status_name (negb ((required_mongo st && negb (truthy (deps_mongo st)))
                       || (required_redis st && negb (truthy (deps_redis st))))).
Proof.
  unfold verdict, missing.
  by destruct (required_mongo st && negb (truthy (deps_mongo st))),
              (required_redis st && negb (truthy (deps_redis st))).
Qed.

Lemma step_tracks es w flags st :
  tracks flags st ->
  tracks (fst (fst (step es w flags st))) (snd (fst (step es w flags st)))
  /\ required_mongo (snd (fst (step es w flags st))) = required_mongo st
  /\ required_redis (snd (fst (step es w flags st))) = required_redis st.
Proof.
  intros (Hm & Hr & Hs). unfold step, InfraStatus.set.
  generalize (truthy (w_val w)) as next. intros next.
  destruct (Bool.eqb (InfraStatus.flag (w_name w) flags) next) eqn:E.
  - apply Bool.eqb_prop in E. cbn [fst snd]. unfold tracks.
    unfold InfraStatus.isMongoUp, InfraStatus.isRedisUp.
    rewrite !(flag_insert_same _ _ _ _ E). done.
  - apply Bool.eqb_false_iff in E.
    destruct (String.eqb_spec (w_name w) "mongoUp") as [Em|Nm];
      [|destruct (String.eqb_spec (w_name w) "redisUp") as [Er|Nr]].
    + rewrite Em. unfold onInfra.
      destruct next; vm_compute String.append; vm_compute String.eqb;
        unfold recalc; cbn [fst snd];
        unfold tracks, InfraStatus.isMongoUp, InfraStatus.isRedisUp;
        rewrite flag_insert_eq, flag_insert_ne by discriminate;
        cbn; repeat split; first [exact Hr | reflexivity].
    + rewrite Er. unfold onInfra.
      destruct next; vm_compute String.append; vm_compute String.eqb;
        unfold recalc; cbn [fst snd];
        unfold tracks, InfraStatus.isMongoUp, InfraStatus.isRedisUp;
        rewrite flag_insert_eq, flag_insert_ne by discriminate;
        cbn; repeat split; first [exact Hm | reflexivity].
    + assert (Hev : forall (k : string) (b' : bool), k = "redisUp" \/ k = "mongoUp" ->
                String.eqb (w_name w +:+ ":" +:+ (if next then "up" else "down"))
                           (k +:+ ":" +:+ (if b' then "up" else "down")) = false).
      { intros k b' Hk. apply String.eqb_neq. intros H.
        apply event_name_inj in H as [H _]; [|done].
        destruct Hk as [-> | ->]; congruence. }
      set (ev := w_name w +:+ ":" +:+ (if next then "up" else "down")) in *.
      assert (H1 : String.eqb ev "mongoUp:up" = false)
        by exact (Hev "mongoUp" true (or_intror eq_refl)).
      assert (H2 : String.eqb ev "mongoUp:down" = false)
        by exact (Hev "mongoUp" false (or_intror eq_refl)).
      assert (H3 : String.eqb ev "redisUp:up" = false)
        by exact (Hev "redisUp" true (or_introl eq_refl)).
      assert (H4 : String.eqb ev "redisUp:down" = false)
        by exact (Hev "redisUp" false (or_introl eq_refl)).
      unfold onInfra. rewrite H1, H2, H3, H4.
      cbn [fst snd]. unfold tracks, InfraStatus.isMongoUp, InfraStatus.isRedisUp.
      rewrite !flag_insert_ne by done. done.
Qed.

Lemma run_tracks es ws flags st :
  tracks flags st ->
  tracks (fst (fst (run es ws flags st))) (snd (fst (run es ws flags st)))
  /\ required_mongo (snd (fst (run es ws flags st))) = required_mongo st
  /\ required_redis (snd (fst (run es ws flags st))) = required_redis st.
Proof.
  revert flags st. induction ws as [|w r IH]; intros flags st H; [done|].
  cbn [run]. destruct (step_tracks es w flags st H) as (H1 & Hm1 & Hr1).
  destruct (step es w flags st) as [[flags1 st1] out]. cbn [fst snd] in *.
  destruct (IH flags1 st1 H1) as (H2 & Hm2 & Hr2).
  destruct (run es r flags1 st1) as [[flags2 st2] outs]. cbn [fst snd] in *.
  split; [done|]. split; congruence.
Qed.

Lemma start_tracks es cr cm rc mc flags st :
  tracks flags (fst (start es cr cm rc mc flags st))
  /\ required_mongo (fst (start es cr cm rc mc flags st)) = default mc cm
  /\ required_redis (fst (start es cr cm rc mc flags st)) = default rc cr.
Proof. done. Qed.

(** X25.  A started HealthService follows InfraStatus: after [start()]
    and any run of [Infra.set] calls, on any flags, the dependencies it
    records are the "mongoUp" and "redisUp" flags, what it requires is
    what [start()] decided, and its status is "Ok" exactly when no
    required dependency has its flag down. *)
Theorem health_follows_infra_flags es cr cm rc mc ws flags st :
  let r := run es ws flags (fst (start es cr cm rc mc flags st)) in
  let flags' := fst (fst r) in
  let h := snd (fst r) in
  deps_mongo h = VBool (InfraStatus.isMongoUp flags')
  /\ deps_redis h = VBool (InfraStatus.isRedisUp flags')
  /\ required_mongo h = default mc cm
  /\ required_redis h = default rc cr
  /\ status h
     = (if (default mc cm && negb (InfraStatus.isMongoUp flags'))
           || (default rc cr && negb (InfraStatus.isRedisUp flags'))
        then "NotOk" else "Ok")
  /\ get "status" (getState h) = VStr (status h).
Proof.
  intros r flags' h.
  destruct (start_tracks es cr cm rc mc flags st) as (H0 & Hm0 & Hr0).
  destruct (run_tracks es ws flags _ H0) as ((Hm & Hr & Hs) & Hqm & Hqr).
  fold r in Hm, Hr, Hs, Hqm, Hqr. fold h in Hm, Hr, Hs, Hqm, Hqr.
  fold flags' in Hm, Hr.
  rewrite Hm0 in Hqm. rewrite Hr0 in Hqr.
  repeat (split; [done|]). split; [|done].
  rewrite Hs, verdict_name, Hm, Hr, Hqm, Hqr. cbn [truthy].
  by destruct (default mc cm && negb (InfraStatus.isMongoUp flags')),
              (default rc cr && negb (InfraStatus.isRedisUp flags')).
Qed.

Lemma recalc_announces extra st (b : bool) :
  status st = status_name b ->
  match snd (recalc true extra st) with
  | None => status (fst (recalc true extra st)) = status_name b
  | Some (ev, pl) =>
      ev = "zapi:sys:health:changed"
      /\ get "status" pl = VStr (status_name (negb b))
      /\ status (fst (recalc true extra st)) = status_name (negb b)
  end.
Proof.
  intros Hs. unfold recalc. cbn [fst snd]. rewrite Hs, verdict_name.
  set (c := negb _).
  destruct c, b; cbn [status_name String.eqb Ascii.eqb Bool.eqb negb];
    first [ reflexivity
          | unfold BaseLifecycle.emitZapi, state_value; cbn [status];
            repeat split; reflexivity ].
Qed.

Lemma recalc_silent extra st : snd (recalc false extra st) = None.
Proof. unfold recalc. cbn [snd]. by case_match. Qed.

Lemma onInfra_announces ev e st (b : bool) :
  status st = status_name b ->
  match snd (onInfra true ev e st) with
  | None => status (fst (onInfra true ev e st)) = status_name b
  | Some (ev', pl) =>
      ev' = "zapi:sys:health:changed"
      /\ get "status" pl = VStr (status_name (negb b))
      /\ status (fst (onInfra true ev e st)) = status_name (negb b)
  end.
Proof.
  intros Hs. unfold onInfra.
  destruct (String.eqb ev "mongoUp:up");
    [exact (recalc_announces _ (set_deps_mongo (VBool true) st) b Hs)|].
  destruct (String.eqb ev "mongoUp:down");
    [exact (recalc_announces _ (set_deps_mongo (VBool false) st) b Hs)|].
  destruct (String.eqb ev "redisUp:up");
    [exact (recalc_announces _ (set_deps_redis (VBool true) st) b Hs)|].
  destruct (String.eqb ev "redisUp:down");
    [exact (recalc_announces _ (set_deps_redis (VBool false) st) b Hs)|].
  exact Hs.
Qed.

Lemma onInfra_silent ev e st : snd (onInfra false ev e st) = None.
Proof. unfold onInfra. repeat case_match; first [apply recalc_silent | done]. Qed.

Lemma step_announces w flags st (b : bool) :
  status st = status_name b ->
  match snd (step true w flags st) with
  | None => status (snd (fst (step true w flags st))) = status_name b
  | Some (ev', pl) =>
      ev' = "zapi:sys:health:changed"
      /\ get "status" pl = VStr (status_name (negb b))
      /\ status (snd (fst (step true w flags st))) = status_name (negb b)
  end.
Proof.
  intros Hs. unfold step.
  destruct (InfraStatus.set (w_name w) (w_val w) (w_meta w) (w_now w) flags)
    as [flags1 [[ev e]|]]; [|exact Hs].
  pose proof (onInfra_announces ev e st b Hs) as H.
  destruct (onInfra true ev e st) as [st1 out]. exact H.
Qed.

Lemma step_silent w flags st : snd (step false w flags st) = None.
Proof.
  unfold step.
  destruct (InfraStatus.set (w_name w) (w_val w) (w_meta w) (w_now w) flags)
    as [flags1 [[ev e]|]]; [|done].
  pose proof (onInfra_silent ev e st) as H.
  destruct (onInfra false ev e st) as [st1 out]. exact H.
Qed.

Lemma run_announces ws flags st (b : bool) i ev pl :
  status st = status_name b ->
  snd (run true ws flags st) !! i = Some (ev, pl) ->
  ev = "zapi:sys:health:changed"
  /\ get "status" pl = VStr (status_name (xorb b (Nat.even i))).
Proof.
  revert flags st b i. induction ws as [|w r IH]; intros flags st b i Hs; [done|].
  cbn [run]. pose proof (step_announces w flags st b Hs) as H1.
  destruct (step true w flags st) as [[flags1 st1] out]. cbn [fst snd] in H1.
  specialize (IH flags1 st1).
  destruct (run true r flags1 st1) as [[flags2 st2] outs]. cbn [snd] in *.
  destruct out as [[ev1 pl1]|].
  - destruct H1 as (He & Hp & Hs1). destruct i as [|i]; cbn [lookup list_lookup].
    + intros [= <- <-]. split; [done|]. rewrite Hp. by destruct b.
    + intros H. apply (IH (negb b)) in H; [|done]. destruct H as [-> ->].
      split; [done|]. rewrite Nat.even_succ, <- Nat.negb_even.
      by destruct b, (Nat.even i).
  - by apply IH.
Qed.

Lemma run_silent ws flags st : snd (run false ws flags st) = [].
Proof.
  revert flags st. induction ws as [|w r IH]; intros flags st; [done|].
  cbn [run]. pose proof (step_silent w flags st) as H1.
  destruct (step false w flags st) as [[flags1 st1] out]. cbn [snd] in H1.
  subst out. specialize (IH flags1 st1).
  destruct (run false r flags1 st1) as [[flags2 st2] outs]. exact IH.
Qed.

(** From a new service the announcements carry "NotOk", "Ok", "NotOk",
    ... in turn. *)
Lemma announcements_in_turn es cr cm rc mc ws flags :
  let s0 := start es cr cm rc mc flags create in
  let outs := match snd s0 with Some x => [x] | None => [] end
              ++ snd (run es ws flags (fst s0)) in
  (forall i ev pl,
      outs !! i = Some (ev, pl) ->
      ev = "zapi:sys:health:changed"
      /\ get "status" pl = VStr (if Nat.even i then "NotOk" else "Ok"))
  /\ (es = false -> outs = []).
Proof.
  intros s0 outs. split.
  - destruct es.
    + intros i ev pl. subst outs s0. unfold start.
      pose proof (recalc_announces (VObj [("boot", VBool true)])
                    {| status := status create; meta := meta create;
                       deps_mongo := VBool (InfraStatus.isMongoUp flags);
                       deps_redis := VBool (InfraStatus.isRedisUp flags);
                       required_mongo := default mc cm;
                       required_redis := default rc cr |} true eq_refl) as H0.
      destruct (recalc true _ _) as [h0 [[ev0 pl0]|]]; cbn [fst snd] in *.
      * destruct H0 as (He & Hp & Hs). destruct i as [|i]; cbn [app lookup list_lookup].
        -- intros [= <- <-]. done.
        -- intros H. apply (run_announces _ _ _ false) in H; [|done].
           destruct H as [-> ->]. split; [done|].
           rewrite Nat.even_succ, <- Nat.negb_even. by destruct (Nat.even i).
      * cbn [app]. intros H. apply (run_announces _ _ _ true) in H; [|done].
        destruct H as [-> ->]. split; [done|]. by destruct (Nat.even i).
    + subst outs s0. unfold start. rewrite recalc_silent, run_silent. done.
  - intros ->. subst outs s0. unfold start. by rewrite recalc_silent, run_silent.
Qed.

(** What [_recalc] announces: the state it leaves, when and only when
    the status of that state is not the one before. *)
Lemma recalc_out extra st :
  snd (recalc true extra st)
  = if String.eqb (status (fst (recalc true extra st))) (status st) then None
    else Some ("zapi:sys:health:changed", state_value (fst (recalc true extra st))).
Proof. unfold recalc. cbn [fst snd status]. by case_match. Qed.

Lemma onInfra_out ev e st :
  snd (onInfra true ev e st)
  = if String.eqb (status (fst (onInfra true ev e st))) (status st) then None
    else Some ("zapi:sys:health:changed", state_value (fst (onInfra true ev e st))).
Proof.
  unfold onInfra.
  destruct (String.eqb ev "mongoUp:up");
    [exact (recalc_out _ (set_deps_mongo (VBool true) st))|].
  destruct (String.eqb ev "mongoUp:down");
    [exact (recalc_out _ (set_deps_mongo (VBool false) st))|].
  destruct (String.eqb ev "redisUp:up");
    [exact (recalc_out _ (set_deps_redis (VBool true) st))|].
  destruct (String.eqb ev "redisUp:down");
    [exact (recalc_out _ (set_deps_redis (VBool false) st))|].
  cbn [fst snd]. by rewrite String.eqb_refl.
Qed.

Lemma step_out w flags st :
  snd (step true w flags st)
  = if String.eqb (status (snd (fst (step true w flags st)))) (status st) then None
    else Some ("zapi:sys:health:changed",
               state_value (snd (fst (step true w flags st)))).
Proof.
  unfold step.
  destruct (InfraStatus.set (w_name w) (w_val w) (w_meta w) (w_now w) flags)
    as [flags1 [[ev e]|]].
  - pose proof (onInfra_out ev e st) as H.
    destruct (onInfra true ev e st) as [st1 out]. exact H.
  - cbn [fst snd]. by rewrite String.eqb_refl.
Qed.

(** The payloads announced over a run are the states the service had
    right after each change of its status. *)
Lemma run_changes ws flags st :
  map fst (snd (run true ws flags st))
  = map (fun _ => "zapi:sys:health:changed")
        (changes (status st) (statuses true ws flags st))
  /\ map (fun o => get "status" (snd o)) (snd (run true ws flags st))
     = map VStr (changes (status st) (statuses true ws flags st)).
Proof.
  revert flags st. induction ws as [|w r IH]; intros flags st; [done|].
  cbn [run statuses]. pose proof (step_out w flags st) as H1.
  destruct (step true w flags st) as [[flags1 st1] out]. cbn [fst snd] in H1.
  destruct (IH flags1 st1) as [IHn IHs].
  destruct (run true r flags1 st1) as [[flags2 st2] outs]. cbn [snd] in *.
  cbn [changes]. subst out.
  destruct (String.eqb_spec (status st1) (status st)) as [E|E].
  - rewrite <- E. by split.
  - cbn [map fst snd]. rewrite IHn, IHs. by split.
Qed.

(** X26.  A change of health is announced once, and nothing else is.
    With an EventServer at hand, take a new service, [start()] it and
    run any [Infra.set] calls on flags that exist: the
    "zapi:sys:health:changed" events asked for are exactly the changes
    in the sequence of statuses the service goes through (the one after
    [start()], then the one after each call), beginning from the "Ok" of
    a new service; each carries the status it changed to, so they read
    "NotOk", "Ok", "NotOk", ... in turn.  Without an EventServer nothing
    is announced. *)
Theorem health_change_is_announced_once cr cm rc mc ws flags :
  Forall (fun w => is_Some (flags !! w_name w)) ws ->
  let s0 := start true cr cm rc mc flags create in
  let outs := match snd s0 with Some x => [x] | None => [] end
              ++ snd (run true ws flags (fst s0)) in
  let trace := status (fst s0) :: statuses true ws flags (fst s0) in
  map fst outs = map (fun _ => "zapi:sys:health:changed") (changes "Ok" trace)
  /\ map (fun o => get "status" (snd o)) outs = map VStr (changes "Ok" trace)
  /\ (forall i s, changes "Ok" trace !! i = Some s ->
                  s = if Nat.even i then "NotOk" else "Ok")
  /\ (snd (start false cr cm rc mc flags create) = None
      /\ snd (run false ws flags (fst (start false cr cm rc mc flags create))) = []).
Proof.
  intros _ s0 outs trace.
  assert (Hc : map fst outs
               = map (fun _ => "zapi:sys:health:changed") (changes "Ok" trace)
               /\ map (fun o => get "status" (snd o)) outs
                  = map VStr (changes "Ok" trace)).
  { subst outs trace s0. unfold start.
    set (st0 := {| status := status create; meta := meta create;
                   deps_mongo := VBool (InfraStatus.isMongoUp flags);
                   deps_redis := VBool (InfraStatus.isRedisUp flags);
                   required_mongo := default mc cm;
                   required_redis := default rc cr |}).
    pose proof (recalc_out (VObj [("boot", VBool true)]) st0) as H0.
    destruct (recalc true (VObj [("boot", VBool true)]) st0) as [h0 out0].
    cbn [fst snd] in *. destruct (run_changes ws flags h0) as [Hn Hs].
    cbn [changes]. subst out0. change (status st0) with "Ok".
    destruct (String.eqb_spec (status h0) "Ok") as [E|E].
    - cbn [app]. rewrite <- E. by split.
    - cbn [app map fst snd]. rewrite Hn, Hs. by split. }
  destruct Hc as [Hn Hs]. split; [exact Hn|]. split; [exact Hs|]. split.
  - intros i s Hi.
    assert (Ho : exists o, outs !! i = Some o /\ get "status" (snd o) = VStr s).
    { assert (H : map (fun o => get "status" (snd o)) outs !! i = Some (VStr s))
        by (by rewrite Hs, list_lookup_fmap, Hi).
      rewrite list_lookup_fmap in H. destruct (outs !! i) as [o|]; [|done].
      exists o. split; [done|]. by injection H. }
    destruct Ho as ([ev pl] & Ho & Hst).
    destruct (announcements_in_turn true cr cm rc mc ws flags) as [Ht _].
    destruct (Ht i ev pl Ho) as [_ Hp]. cbn [snd] in Hst.
    rewrite Hst in Hp. injection Hp as ->. done.
  - unfold start. by rewrite recalc_silent, run_silent.
Qed.

End HealthServiceFacts.

(** ** BaseLifecycle: the names [emitZapi] publishes under *)

Section EmitZapiFacts.
Import Js BaseLifecycle.




End EmitZapiFacts.

(** ** SystemEventService: what [localEcho] does to subscribers *)

Section LocalEcho.
Import Js EventServer.

Variable throws : handler -> value -> bool.
Variable p : process.

Lemma handled_cons_other h g env o :
  g <> h -> handled h (Handled g env :: o) = handled h o.
Proof.
  intros Hne. unfold handled. cbn.
  by rewrite (proj2 (Nat.eqb_neq g h) Hne).
Qed.

(** X28.  With [localEcho] the adapter of SystemEventService emits every
    envelope a second time under its event name.  On a started server
    with one subscription to a topic that does not end in a star and one
    [any] handler, neither throwing, a [publish] of an event other than
    "*" and "error" hands the envelope to the adapter once, and with the
    call the adapter makes the topic's handler is called twice for its
    topic while the [any] handler is called once. *)
Theorem local_echo_doubles_exact_subscribers now ev pl topic h g a ads :
  endsWithStar topic = false -> ev <> "*" -> ev <> "error" -> h <> g ->
  NoDup ads ->
  (forall env, throws h env = false) -> (forall env, throws g env = false) ->
  let st := SystemEventService.start true true a
              (any g (subscribe topic h
                        {| local := []; adapters := ads; started := true;
                           buffer := [] |})) in
  let env := envelope p now (VObj [("status", VStr "Ok"); ("meta", VObj [])]) ev
               (match pl with VUndef => VObj [] | _ => pl end) in
  let o := snd (fst (publish throws p now None ev pl st)) in
  received a o = [env]
  /\ handled h (o ++ SystemEventService.echo throws st env)
     = (if String.eqb ev topic then [env; env] else [])
  /\ handled g (o ++ SystemEventService.echo throws st env) = [env].
Proof.
  intros He Hstar Herr Hhg Hnd Hh Hg st env o.
  assert (Ht : String.eqb topic "*" = false)
    by (apply String.eqb_neq; by apply endsWithStar_not_star).
  assert (Hl : local st = [(topic, Wrapped topic h); ("*", Plain g)]).
  { subst st. unfold SystemEventService.start, registerAdapter, any, subscribe.
    cbn [andb local Emitter.on app]. by rewrite Ht, He. }
  assert (Hs : started st = true) by reflexivity.
  assert (Hin : a ∈ adapters st) by apply registerAdapter_elem.
  assert (Hnd' : NoDup (adapters st)) by (by apply registerAdapter_NoDup).
  assert (He1 : Emitter.emit (invoke throws) (local st) ev env
                = if String.eqb ev topic then ([Handled h env], Normal)
                  else ([], Normal)).
  { rewrite Hl. unfold Emitter.emit.
    rewrite !listeners_cons, listeners_nil, (String.eqb_sym topic ev).
    rewrite (proj2 (String.eqb_neq "*" ev)) by congruence.
    destruct (String.eqb_spec ev topic) as [->|Hne].
    - cbn [Emitter.call_all]. rewrite invoke_exact by done.
      assert (Hi : is_str (get "event" env) topic = true)
        by (cbn; apply String.eqb_refl).
      rewrite Hi. unfold call. by rewrite Hh.
    - by rewrite (proj2 (String.eqb_neq ev "error") Herr). }
  assert (He2 : Emitter.emit (invoke throws) (local st) "*" env
                = ([Handled g env], Normal)).
  { rewrite Hl. unfold Emitter.emit. rewrite !listeners_cons, listeners_nil, Ht.
    cbn [String.eqb Ascii.eqb Bool.eqb Emitter.call_all invoke].
    unfold call. by rewrite Hg. }
  assert (Ho : o = fst (Emitter.emit (invoke throws) (local st) ev env)
                   ++ [Handled g env] ++ to_adapters (adapters st) env).
  { subst o. unfold publish. rewrite Hs. cbn [negb]. fold env.
    unfold deliver. rewrite He2, He1. by destruct (String.eqb ev topic). }
  assert (Hecho : SystemEventService.echo throws st env
                  = fst (Emitter.emit (invoke throws) (local st) ev env)).
  { unfold SystemEventService.echo. by change (event_of env) with ev. }
  rewrite Hecho, Ho, He1. split; [|split].
  - rewrite !received_app, received_to_adapters by done.
    by destruct (String.eqb ev topic).
  - rewrite !handled_app, handled_to_adapters.
    destruct (String.eqb ev topic); cbn [fst app].
    + rewrite !handled_cons_same. rewrite handled_cons_other by congruence. done.
    + by rewrite handled_cons_other by congruence.
  - rewrite !handled_app, handled_to_adapters.
    destruct (String.eqb ev topic); cbn [fst app].
    + rewrite !(handled_cons_other g h) by done. by rewrite handled_cons_same.
    + by rewrite handled_cons_same.
Qed.

End LocalEcho.

Section EchoExample.
Import Js Scenario.

Lemma local_echo_doubles_exact_subscribers_witness :
  endsWithStar "a" = false /\ "a" <> "*" /\ "a" <> "error" /\ 0%nat <> 1%nat
  /\ NoDup [7%nat]
  /\ (forall env, quiet 0%nat env = false)
  /\ (forall env, quiet 1%nat env = false)
  /\ EventServer.handled 0%nat
       (snd (fst (EventServer.publish quiet proc 1 None "a" VUndef echo_server))
        ++ SystemEventService.echo quiet echo_server (env_of 1 "a"))
     = [env_of 1 "a"; env_of 1 "a"]
  /\ EventServer.handled 1%nat
       (snd (fst (EventServer.publish quiet proc 1 None "a" VUndef echo_server))
        ++ SystemEventService.echo quiet echo_server (env_of 1 "a"))
     = [env_of 1 "a"].
Proof.
  assert (H1 : endsWithStar "a" = false) by reflexivity.
  assert (H2 : "a" <> "*") by discriminate.
  assert (H3 : "a" <> "error") by discriminate.
  assert (H4 : 0%nat <> 1%nat) by discriminate.
  assert (H5 : NoDup [7%nat]).
  { apply (NoDup_cons_2 7%nat []); [apply not_elem_of_nil | apply NoDup_nil_2]. }
  assert (H6 : forall env, quiet 0%nat env = false) by (intros env; reflexivity).
  assert (H7 : forall env, quiet 1%nat env = false) by (intros env; reflexivity).
  split; [exact H1|]. split; [exact H2|]. split; [exact H3|]. split; [exact H4|].
  split; [exact H5|]. split; [exact H6|]. split; [exact H7|].
  destruct (local_echo_doubles_exact_subscribers quiet proc 1 "a" VUndef "a"
              0%nat 1%nat 9%nat [7%nat] H1 H2 H3 H4 H5 H6 H7) as (_ & Hh & Hg).
  split; [exact Hh|exact Hg].
Defined.

End EchoExample.

Section HealthExample.
Import Js Scenario.

(** A service that requires Redis, started while Redis is down: "NotOk"
    at the start, "Ok" when Redis comes up, nothing when it is told up
    again, "NotOk" when it goes down. *)
Lemma health_change_is_announced_once_witness :
  Forall (fun w => is_Some (InfraStatus.create !! HealthService.w_name w))
         redis_flaps
  /\ map (fun o => get "status" (snd o))
       (match snd (HealthService.start true (Some true) None false false
                     InfraStatus.create HealthService.create) with
        | Some x => [x]
        | None => []
        end
        ++ snd (HealthService.run true redis_flaps InfraStatus.create
                  (fst (HealthService.start true (Some true) None false false
                          InfraStatus.create HealthService.create))))
     = [VStr "NotOk"; VStr "Ok"; VStr "NotOk"].
Proof.
  assert (He : is_Some (InfraStatus.create !! "redisUp"))
    by (exists false; vm_compute; reflexivity).
  assert (H1 : Forall (fun w => is_Some (InfraStatus.create !! HealthService.w_name w))
                 redis_flaps)
    by (repeat constructor; exact He).
  split; [exact H1|].
  destruct (health_change_is_announced_once (Some true) None false false
              redis_flaps InfraStatus.create H1) as (_ & Hs & _).
  rewrite Hs. vm_compute. reflexivity.
Defined.

End HealthExample.
